(** * RhythmBox: cache keys, memoisation and the favourites service

    A shallow embedding of the cache layer ([src/cache_manager.py]), of the
    favourites adapter ([src/favorites_manager.py]) and of the two favourites
    routes of [app.py], followed by the properties proved about them.
    The methods that write to the favourites and the routes over them,
    the invalidation of the cache with the route that clears it, and the
    checks of [src/validation_utils.py] on identifiers and search queries
    come after, with their own properties.

    Python values are modelled as follows.
    - [int] is [Z]; [//] is [Z.div] (both round towards minus infinity).
    - [str] is [string], read as the UTF-8 encoding of the text, so that
      [str.encode()] is the identity and the code point order of Python is
      the byte-wise lexicographic order [String.compare].
    - [Optional[str]] is [option string]; truthiness of such a value is
      [str_truthy].
    - an exception is the [Raise] case of [outcome], carrying [str(e)].
    - the Spotify client, the Redis client, [json] and the wrapped read
      operation are external: they are fields of an environment record that
      act on an abstract world, and every call to them is recorded, with its
      arguments and its answer, in the trace of the run. *)

From Stdlib Require Import ZArith Lia List Bool Ascii String DecimalString.
From Stdlib Require Import Sorting.Sorted.
From stdpp Require Import base list sorting strings gmap.
Import ListNotations.

(** ** Python primitives *)

Module Py.

(** The result of a call that may raise; [msg] is [str(e)]. *)
Inductive outcome (A : Type) : Type :=
| Ok (a : A)
| Raise (msg : string).
Arguments Ok {A} a.
Arguments Raise {A} msg.

(** [bool(x)] for [x : Optional[str]]: [None] and [''] are falsy. *)
Definition str_truthy (x : option string) : bool :=
  match x with
  | Some s => negb (String.eqb s "")
  | None => false
  end.

(** [x or d] for [x : Optional[str]]. *)
Definition str_or (x : option string) (d : string) : string :=
  match x with
  | Some s => if String.eqb s "" then d else s
  | None => d
  end.

(** [len(l)] *)
Definition len {A} (l : list A) : Z := Z.of_nat (length l).

(** Normalisation of one bound of a slice of a sequence of length [n]
    (step 1): a negative bound counts from the end, and the result is
    clipped to [0..n]. *)
Definition slice_bound (n i : Z) : Z :=
  if (i <? 0)%Z then Z.max 0 (i + n) else Z.min i n.

(** [l[start:stop]] *)
Definition slice {A} (l : list A) (start stop : Z) : list A :=
  let n := len l in
  let s := slice_bound n start in
  let e := slice_bound n stop in
  firstn (Z.to_nat (e - s)) (skipn (Z.to_nat s) l).

(** [s[start:stop]] on [str] *)
Definition str_slice (s : string) (start stop : Z) : string :=
  string_of_list_ascii (slice (list_ascii_of_string s) start stop).

(** [[x] * n] *)
Definition repeat_list {A} (x : A) (n : Z) : list A := repeat x (Z.to_nat n).

(** [range(0, stop, step)] for a positive [step], by recursion on a bound
    on the number of elements. *)
Fixpoint range_from (count : nat) (i stop step : Z) : list Z :=
  match count with
  | O => []
  | S count' =>
      if (i <? stop)%Z then i :: range_from count' (i + step) stop step
      else []
  end.

Definition range0 (stop step : Z) : list Z :=
  range_from (Z.to_nat stop) 0 stop step.

(** [sep.join(parts)] *)
Fixpoint join (sep : string) (parts : list string) : string :=
  match parts with
  | [] => ""
  | [p] => p
  | p :: rest => p +:+ sep +:+ join sep rest
  end.

(** [str.strip()] on ASCII text: the white space of Python below 128 is
    the characters 9 to 13, 28 to 32. *)
Definition is_space (c : ascii) : bool :=
  let n := nat_of_ascii c in
  ((9 <=? n) && (n <=? 13) || (28 <=? n) && (n <=? 32))%nat.

Fixpoint lstrip_chars (cs : list ascii) : list ascii :=
  match cs with
  | c :: cs' => if is_space c then lstrip_chars cs' else cs
  | [] => []
  end.

Definition strip_ascii (s : string) : string :=
  string_of_list_ascii
    (rev (lstrip_chars (rev (lstrip_chars (list_ascii_of_string s))))).

(** [str.casefold()] on ASCII text: the letters A to Z become a to z. *)
Definition casefold_char (c : ascii) : ascii :=
  let n := nat_of_ascii c in
  if ((65 <=? n) && (n <=? 90))%nat then ascii_of_nat (n + 32) else c.

Definition casefold_ascii (s : string) : string :=
  string_of_list_ascii (map casefold_char (list_ascii_of_string s)).

(** [a < b] on [str]. *)
Definition str_lt (a b : string) : bool := String.ltb a b.

(** [list.sort(key=key, reverse=reverse)] over keys compared with [lt].
    The built-in is specified by its documented contract: the result is
    ordered by key, the sort is stable, and [reverse=True] sorts as if
    each comparison were reversed, still keeping elements with equal keys
    in their original order.  The model is the stable insertion sort. *)
Section Sort.
Context {A K : Type} (lt : K -> K -> bool) (key : A -> K).

Definition comes_first (reverse : bool) (a b : K) : bool :=
  if reverse then lt b a else lt a b.

Fixpoint sort_insert (reverse : bool) (x : A) (l : list A) : list A :=
  match l with
  | [] => [x]
  | y :: l' =>
      if comes_first reverse (key y) (key x)
      then y :: sort_insert reverse x l'
      else x :: y :: l'
  end.

Definition sort (reverse : bool) (l : list A) : list A :=
  fold_right (sort_insert reverse) [] l.

(** [in_order reverse a b]: [a] may stand before [b] in a sorted list,
    that is [key a <= key b], or [key a >= key b] when reversed. *)
Definition in_order (reverse : bool) (a b : A) : Prop :=
  comes_first reverse (key b) (key a) = false.
End Sort.

End Py.

(** ** Records of [src/models.py] *)

Module Models.

(** [Track].  The dataclass declares [name] and [artist] as [str], but
    the routes guard both with [or ''], so [None] is representable. *)
Record Track : Type := {
  id : string;
  name : option string;
  artist : option string;
  album : string;
  spotify_url : string;
  image_url : option string;
  preview_url : option string
}.

End Models.

(** ** Runs: state passing over the outside world, with a trace *)

Module Run.

Section Monad.
Context {World Ev : Type}.

(** A computation reads and updates the world and reports the external
    calls it made, in order. *)
Definition M (A : Type) : Type := World -> A * World * list Ev.

Definition ret {A} (a : A) : M A := fun w => (a, w, []).

Definition bind {A B} (m : M A) (k : A -> M B) : M B :=
  fun w =>
    let '(a, w1, t1) := m w in
    let '(b, w2, t2) := k a w1 in
    (b, w2, t1 ++ t2).

(** An external call whose answer [x] is recorded as [ev x]. *)
Definition call {X} (op : World -> X * World) (ev : X -> Ev) : M X :=
  fun w => let '(x, w') := op w in (x, w', [ev x]).

(** An external call that leaves no record. *)
Definition quiet {X} (op : World -> X * World) : M X :=
  fun w => let '(x, w') := op w in (x, w', []).

Definition emit (e : Ev) : M unit := fun w => (tt, w, [e]).

Definition value {A} (r : A * World * list Ev) : A := fst (fst r).
Definition world {A} (r : A * World * list Ev) : World := snd (fst r).
Definition trace {A} (r : A * World * list Ev) : list Ev := snd r.
End Monad.

Arguments M : clear implicits.

Declare Scope run_scope.
Delimit Scope run_scope with run.
Notation "'do' x <- m ; k" := (bind m (fun x => k))
  (at level 10, x pattern, m at level 100, k at level 200) : run_scope.

End Run.

(** ** The favourites adapter ([src/favorites_manager.py]) *)

Module FavoritesManager.
Import Py Models Run.
Local Open Scope Z_scope.
Local Open Scope run_scope.

(** One element of the [items] list of a saved-tracks page, by what
    [_parse_tracks_from_response] does with it. *)
Inductive item : Type :=
| ItemInvalid      (* falsy, not a dict, no 'track' key or a falsy track *)
| ItemUnparsable   (* [Track.from_spotify_data] raises *)
| ItemTrack (t : Track).

(** The [items] entry of a page. *)
Inductive items_field : Type :=
| ItemsAbsent
| ItemsNotList
| ItemsList (l : list item).

(** A truthy answer of [current_user_saved_tracks]: the envelope
    [{items, total}], either key possibly missing. *)
Record response : Type := {
  resp_items : items_field;
  resp_total : option Z
}.

(** The calls recorded in a trace.  The [Called_] events mark the entry
    of a method of the adapter with the arguments it received; the [Api_]
    events are the calls to the Spotify client with their answers
    ([None]: a falsy answer, or for [contains] an answer that is [None] or
    not a list). *)
Inductive event : Type :=
| Called_get_saved_tracks (limit offset : Z)
| Called_get_all_saved_tracks
| Called_get_total_saved_tracks
| Called_check_saved_tracks (track_ids : list string)
| Api_saved_tracks (limit offset : Z) (r : outcome (option response))
| Api_saved_tracks_contains (chunk : list string)
    (r : outcome (option (list bool))).

(** The methods of the adapter that a run entered, in order. *)
Definition is_adapter_call (e : event) : bool :=
  match e with
  | Api_saved_tracks _ _ _ | Api_saved_tracks_contains _ _ => false
  | _ => true
  end.

Definition adapter_calls (t : list event) : list event :=
  List.filter is_adapter_call t.

(** The collaborators of the adapter.  [get_spotify_token] answers
    whether the token is truthy, [get_spotify_instance] whether
    [SpotifyClient(use_auth=True).get_spotify_instance()] is truthy. *)
Record Spotify (World : Type) : Type := {
  get_spotify_token : World -> outcome bool * World;
  get_spotify_instance : World -> outcome bool * World;
  current_user_saved_tracks :
    Z -> Z -> World -> outcome (option response) * World;
  current_user_saved_tracks_contains :
    list string -> World -> outcome (option (list bool)) * World
}.
Arguments get_spotify_token {World}.
Arguments get_spotify_instance {World}.
Arguments current_user_saved_tracks {World}.
Arguments current_user_saved_tracks_contains {World}.

Definition MAX_TRACKS_PER_REQUEST : Z := 50.
Definition MAX_IDS_CHECK : Z := 50.

(** Offset used by the client when [current_user_saved_tracks] is called
    with [limit] only. *)
Definition DEFAULT_OFFSET : Z := 0.

Fixpoint _parse_tracks_from_response (items : list item) : list Track :=
  match items with
  | [] => []
  | ItemTrack t :: rest => t :: _parse_tracks_from_response rest
  | _ :: rest => _parse_tracks_from_response rest
  end.

(** The tracks that an answer of the client contributes. *)
Definition tracks_of (r : outcome (option response)) : list Track :=
  match r with
  | Ok (Some {| resp_items := ItemsList l |}) => _parse_tracks_from_response l
  | _ => []
  end.

(** An answer that holds a list of at least [limit] items. *)
Definition full_page (limit : Z) (r : outcome (option response)) : bool :=
  match r with
  | Ok (Some {| resp_items := ItemsList l |}) => limit <=? len l
  | _ => false
  end.

(** The calls of the loop that starts at [offset]: page after page of
    [limit] items. *)
Definition page_calls (limit offset : Z)
    (rs : list (outcome (option response))) : list event :=
  imap (fun k r => Api_saved_tracks limit (offset + limit * Z.of_nat k) r) rs.

(** What the loop hands back after the answers [rs]. *)
Definition loop_result (all_tracks : list Track)
    (rs : list (outcome (option response))) : outcome (list Track) :=
  match last rs with
  | Some (Raise e) => Raise e
  | _ => Ok (all_tracks ++ flat_map tracks_of rs)
  end.

(** The chunks that [check_saved_tracks] sends, in order. *)
Definition id_chunks (track_ids : list string) : list (list string) :=
  map (fun i => slice track_ids i (i + MAX_IDS_CHECK))
    (range0 (len track_ids) MAX_IDS_CHECK).

(** What the answer to a chunk adds to [results_all], when it is not an
    exception. *)
Definition contribution (chunk : list string)
    (r : outcome (option (list bool))) : list bool :=
  match r with
  | Ok (Some bs) => bs
  | _ => repeat_list false (len chunk)
  end.

Definition raised {A} (r : outcome A) : bool :=
  match r with Raise _ => true | Ok _ => false end.

(** What [check_saved_tracks] returns after the answers [rs] to the
    chunks [chunks], starting from [results_all]. *)
Definition check_result (results_all : list bool)
    (chunks : list (list string)) (rs : list (outcome (option (list bool))))
  : outcome (list bool) :=
  match last rs with
  | Some (Raise e) => Raise e
  | _ => Ok (results_all ++ concat (zip_with contribution chunks rs))
  end.

Section Adapter.
Context {World : Type} (sp : Spotify World).
(** [str.strip()] *)
Context (strip : string -> string).

Abbreviation M := (M World event).

(** Returns [(sp is not None, error)]. *)
Definition _validate_authentication : M (bool * option string) :=
  do token <- quiet (get_spotify_token sp);
  match token with
  | Raise e => ret (false, Some ("Erro ao conectar ao Spotify: " +:+ e))
  | Ok false => ret (false, Some "Usuário não autenticado no Spotify.")
  | Ok true =>
      do inst <- quiet (get_spotify_instance sp);
      match inst with
      | Raise e =>
          ret (false, Some ("Erro ao conectar ao Spotify: " +:+ e))
      | Ok false => ret (false, Some "Erro ao conectar ao Spotify.")
      | Ok true => ret (true, None)
      end
  end.

(** Whether a method goes past its [if error or sp is None] guard. *)
Definition authenticated (w : World) : bool :=
  let '(ok, error) := value (_validate_authentication w) in
  negb (str_truthy error || negb ok).

Definition get_saved_tracks (limit offset : Z)
  : M (list Track * option string) :=
  do _ <- emit (Called_get_saved_tracks limit offset);
  let limit := Z.max 1 (Z.min MAX_TRACKS_PER_REQUEST limit) in
  let offset := Z.max 0 offset in
  do (ok, error) <- _validate_authentication;
  if str_truthy error || negb ok
  then ret ([], Some (str_or error "Erro na autenticação"))
  else
    do results <- call (current_user_saved_tracks sp limit offset)
                       (Api_saved_tracks limit offset);
    match results with
    | Raise e => ret ([], Some ("Erro ao obter favoritos: " +:+ e))
    | Ok None => ret ([], Some "Nenhum resultado retornado pela API")
    | Ok (Some r) =>
        let tracks :=
          match resp_items r with
          | ItemsList l => _parse_tracks_from_response l
          | _ => []
          end in
        ret (tracks, None)
    end.

(** The [while True] loop of [get_all_saved_tracks].  [None]: the fuel
    ran out before the loop left; [Some (Raise e)]: the client raised. *)
Fixpoint get_all_loop (fuel : nat) (limit offset page : Z)
    (all_tracks : list Track) : M (option (outcome (list Track))) :=
  match fuel with
  | O => ret None
  | S fuel' =>
      do results <- call (current_user_saved_tracks sp limit offset)
                         (Api_saved_tracks limit offset);
      match results with
      | Raise e => ret (Some (Raise e))
      | Ok None => ret (Some (Ok all_tracks))
      | Ok (Some r) =>
          match resp_items r with
          | ItemsAbsent | ItemsNotList => ret (Some (Ok all_tracks))
          | ItemsList [] => ret (Some (Ok all_tracks))
          | ItemsList items =>
              let all_tracks :=
                all_tracks ++ _parse_tracks_from_response items in
              if len items <? limit then ret (Some (Ok all_tracks))
              else
                let offset := offset + limit in
                let page := page + 1 in
                if page >? 1000 then ret (Some (Ok all_tracks))
                else get_all_loop fuel' limit offset page all_tracks
          end
      end
  end.

(** What the client answers to [n] requests in a row, each for [limit]
    items, at the offsets [offset], [offset + limit], ..., and the world
    that the last of them leaves. *)
Fixpoint page_answers (n : nat) (limit offset : Z) (w : World)
  : list (outcome (option response)) * World :=
  match n with
  | O => ([], w)
  | S n' =>
      let '(r, w1) := current_user_saved_tracks sp limit offset w in
      let '(rs, w') := page_answers n' limit (offset + limit) w1 in
      (r :: rs, w')
  end.

Definition get_all_saved_tracks (fuel : nat)
  : M (option (list Track * option string)) :=
  do _ <- emit Called_get_all_saved_tracks;
  do (ok, error) <- _validate_authentication;
  if str_truthy error || negb ok
  then ret (Some ([], Some (str_or error "Erro na autenticação")))
  else
    do r <- get_all_loop fuel MAX_TRACKS_PER_REQUEST 0 1 [];
    match r with
    | None => ret None
    | Some (Ok all_tracks) => ret (Some (all_tracks, None))
    | Some (Raise e) =>
        ret (Some ([], Some ("Erro ao obter todos os favoritos: " +:+ e)))
    end.

(** The [for i in range(0, len(track_ids), MAX_IDS_CHECK)] loop. *)
Fixpoint check_loop (starts : list Z) (track_ids : list string)
    (results_all : list bool) : M (outcome (list bool)) :=
  match starts with
  | [] => ret (Ok results_all)
  | i :: starts' =>
      let chunk := slice track_ids i (i + MAX_IDS_CHECK) in
      do res <- call (current_user_saved_tracks_contains sp chunk)
                     (Api_saved_tracks_contains chunk);
      match res with
      | Raise e => ret (Raise e)
      | Ok (Some bs) => check_loop starts' track_ids (results_all ++ bs)
      | Ok None =>
          check_loop starts' track_ids
            (results_all ++ repeat_list false (len chunk))
      end
  end.

(** What the client answers to the requests for [chunks], one after the
    other, and the world that the last of them leaves. *)
Fixpoint chunk_answers (chunks : list (list string)) (w : World)
  : list (outcome (option (list bool))) * World :=
  match chunks with
  | [] => ([], w)
  | chunk :: rest =>
      let '(r, w1) := current_user_saved_tracks_contains sp chunk w in
      let '(rs, w') := chunk_answers rest w1 in
      (r :: rs, w')
  end.

(** [[tid.strip() for tid in track_ids if tid and tid.strip()]] *)
Definition clean_ids (track_ids : list string) : list string :=
  map strip
    (filter (fun tid => negb (String.eqb tid "")
                        && negb (String.eqb (strip tid) ""))
       track_ids).

Definition check_saved_tracks (track_ids : list string)
  : M (list bool * option string) :=
  do _ <- emit (Called_check_saved_tracks track_ids);
  match track_ids with
  | [] => ret ([], None)
  | _ =>
      let track_ids := clean_ids track_ids in
      match track_ids with
      | [] => ret ([], Some "Nenhum ID válido fornecido.")
      | _ =>
          do (ok, error) <- _validate_authentication;
          if str_truthy error || negb ok
          then ret ([], Some (str_or error "Erro na autenticação"))
          else
            do r <- check_loop (range0 (len track_ids) MAX_IDS_CHECK)
                      track_ids [];
            match r with
            | Ok results_all => ret (results_all, None)
            | Raise e =>
                ret ([], Some ("Erro ao verificar favoritos: " +:+ e))
            end
      end
  end.

Definition get_total_saved_tracks : M (Z * option string) :=
  do _ <- emit Called_get_total_saved_tracks;
  do (ok, error) <- _validate_authentication;
  if str_truthy error || negb ok
  then ret (0, Some (str_or error "Erro na autenticação"))
  else
    do results <- call (current_user_saved_tracks sp 1 DEFAULT_OFFSET)
                       (Api_saved_tracks 1 DEFAULT_OFFSET);
    match results with
    | Raise e => ret (0, Some ("Erro ao obter total de favoritos: " +:+ e))
    | Ok None => ret (0, Some "Resposta inválida da API")
    | Ok (Some r) =>
        match resp_total r with
        | None => ret (0, Some "Resposta inválida da API")
        | Some total => ret (total, None)
        end
    end.
End Adapter.

End FavoritesManager.

(** ** The favourites routes of [app.py] *)

Module App.
Import Py Models Run FavoritesManager.
Local Open Scope Z_scope.
Local Open Scope run_scope.

(** The keyword arguments given to [render_template('favoritos.html', _)]. *)
Record template : Type := {
  tpl_tracks : list Track;
  tpl_error : option string;
  tpl_total : Z;
  tpl_page : Z;
  tpl_limit : Z;
  tpl_sort : string
}.

(** One entry of ['tracks'] in the JSON body of [/api/favoritos]. *)
Record track_dict : Type := {
  d_id : string;
  d_name : option string;
  d_artist : option string;
  d_album : string;
  d_image_url : option string;
  d_spotify_url : string
}.

(** The body of a successful answer of [/api/favoritos] (status 200). *)
Record page_body : Type := {
  js_tracks : list track_dict;
  js_total : Z;
  js_page : Z;
  js_limit : Z;
  js_total_pages : Z
}.

(** [({'success': True, ...}, 200)] or [({'success': False, 'error': e}, 500)]. *)
Inductive api_response : Type :=
| Success (body : page_body)
| Failure (error : option string).

Definition to_dict (t : Track) : track_dict :=
  {| d_id := id t; d_name := name t; d_artist := artist t;
     d_album := album t; d_image_url := image_url t;
     d_spotify_url := spotify_url t |}.

(** [min(max(20, limit), 100)] *)
Definition clamp_limit (limit : Z) : Z := Z.min (Z.max 20 limit) 100.

(** [limit > 1000 or sort != 'default'] *)
Definition fetch_all (limit : Z) (sort : string) : bool :=
  (limit >? 1000) || negb (String.eqb sort "default").

(** [sorted] is [tracks] put in the order of the case-folded [field], a
    missing field counting as the empty string: the same tracks, each key
    at most (at least, when [reverse]) the keys after it, and the tracks
    of equal key in the order they had in [tracks]. *)
Definition stably_sorted_by (casefold : string -> string)
    (field : Track -> option string) (reverse : bool)
    (tracks sorted : list Track) : Prop :=
  let key t := casefold (str_or (field t) "") in
  sorted ≡ₚ tracks
  /\ StronglySorted
       (fun a b => if reverse then str_lt (key a) (key b) = false
                   else str_lt (key b) (key a) = false) sorted
  /\ forall k : string,
       filter (fun t => key t = k) sorted = filter (fun t => key t = k) tracks.

Section Routes.
Context {World : Type} (sp : Spotify World).
(** [str.casefold()] *)
Context (casefold : string -> string).

Abbreviation M := (M World event).

Definition sort_key_name (t : Track) : string :=
  casefold (str_or (name t) "").

Definition sort_key_artist (t : Track) : string :=
  casefold (str_or (artist t) "").

(** The [if sort == ... elif ...] chain over [tracks.sort]. *)
Definition sort_tracks (sort : string) (tracks : list Track) : list Track :=
  if String.eqb sort "name-asc" then
    Py.sort str_lt sort_key_name false tracks
  else if String.eqb sort "name-desc" then
    Py.sort str_lt sort_key_name true tracks
  else if String.eqb sort "artist-asc" then
    Py.sort str_lt sort_key_artist false tracks
  else if String.eqb sort "artist-desc" then
    Py.sort str_lt sort_key_artist true tracks
  else tracks.

(** [favoritos()]: the page route.  [page], [limit] and [sort] are the
    parsed query arguments. *)
Definition favoritos (fuel : nat) (page limit : Z) (sort : string)
  : M (option template) :=
  let page := Z.max 1 page in
  if fetch_all limit sort then
    do r <- get_all_saved_tracks sp fuel;
    match r with
    | None => ret None
    | Some (tracks, error) =>
        if str_truthy error then
          ret (Some {| tpl_tracks := []; tpl_error := error;
                       tpl_total := 0; tpl_page := 1; tpl_limit := 20;
                       tpl_sort := sort |})
        else
          let tracks := sort_tracks sort tracks in
          let total_favorites := len tracks in
          if limit >? 1000 then
            ret (Some {| tpl_tracks := tracks; tpl_error := None;
                         tpl_total := total_favorites; tpl_page := 1;
                         tpl_limit := 9999; tpl_sort := sort |})
          else
            let limit := Z.min (Z.max 20 limit) 100 in
            let page := Z.max 1 page in
            let start := (page - 1) * limit in
            let end_ := start + limit in
            let page_tracks := slice tracks start end_ in
            ret (Some {| tpl_tracks := page_tracks; tpl_error := None;
                         tpl_total := total_favorites; tpl_page := page;
                         tpl_limit := limit; tpl_sort := sort |})
    end
  else
    let limit := Z.min (Z.max 20 limit) 100 in
    let offset := (page - 1) * limit in
    do (tracks, error) <- get_saved_tracks sp limit offset;
    do (total_favorites, total_error) <- get_total_saved_tracks sp;
    let total_favorites :=
      if str_truthy total_error then len tracks else total_favorites in
    if str_truthy error then
      ret (Some {| tpl_tracks := []; tpl_error := error; tpl_total := 0;
                   tpl_page := 1; tpl_limit := limit; tpl_sort := sort |})
    else
      ret (Some {| tpl_tracks := tracks; tpl_error := None;
                   tpl_total := total_favorites; tpl_page := page;
                   tpl_limit := limit; tpl_sort := sort |}).

(** [api_favoritos()]: the JSON route. *)
Definition api_favoritos (fuel : nat) (page limit : Z) (sort : string)
  : M (option api_response) :=
  let page := Z.max 1 page in
  if (limit >? 1000) || negb (String.eqb sort "default") then
    do r <- get_all_saved_tracks sp fuel;
    match r with
    | None => ret None
    | Some (tracks, error) =>
        if str_truthy error then ret (Some (Failure error))
        else
          let tracks := sort_tracks sort tracks in
          let total := len tracks in
          if limit >? 1000 then
            let tracks_data := map to_dict tracks in
            ret (Some (Success
              {| js_tracks := tracks_data; js_total := total;
                 js_page := 1; js_limit := total;
                 js_total_pages := 1 |}))
          else
            let limit := Z.min (Z.max 20 limit) 100 in
            let page := Z.max 1 page in
            let start := (page - 1) * limit in
            let end_ := start + limit in
            let paged_tracks := slice tracks start end_ in
            let tracks_data := map to_dict paged_tracks in
            ret (Some (Success
              {| js_tracks := tracks_data; js_total := total;
                 js_page := page; js_limit := limit;
                 js_total_pages := (total + limit - 1) / limit |}))
    end
  else
    let limit := Z.min (Z.max 20 limit) 100 in
    let offset := (page - 1) * limit in
    do (tracks, error) <- get_saved_tracks sp limit offset;
    if str_truthy error then ret (Some (Failure error))
    else
      do (total, error) <- get_total_saved_tracks sp;
      let total := if str_truthy error then len tracks else total in
      let tracks_data := map to_dict tracks in
      ret (Some (Success
        {| js_tracks := tracks_data; js_total := total; js_page := page;
           js_limit := limit;
           js_total_pages := (total + limit - 1) / limit |})).
End Routes.

End App.

(** ** [hashlib.md5] (RFC 1321) *)

Module MD5.
Local Open Scope Z_scope.

Definition add32 (a b : Z) : Z := (a + b) mod 2 ^ 32.
Definition not32 (a : Z) : Z := Z.lxor a 0xffffffff.
Definition rotl32 (x c : Z) : Z :=
  Z.lor (Z.shiftl x c mod 2 ^ 32) (Z.shiftr x (32 - c)).

Definition shifts : list Z :=
  [7; 12; 17; 22; 7; 12; 17; 22; 7; 12; 17; 22; 7; 12; 17; 22;
   5; 9; 14; 20; 5; 9; 14; 20; 5; 9; 14; 20; 5; 9; 14; 20;
   4; 11; 16; 23; 4; 11; 16; 23; 4; 11; 16; 23; 4; 11; 16; 23;
   6; 10; 15; 21; 6; 10; 15; 21; 6; 10; 15; 21; 6; 10; 15; 21].

Definition sines : list Z :=
  [0xd76aa478; 0xe8c7b756; 0x242070db; 0xc1bdceee;
   0xf57c0faf; 0x4787c62a; 0xa8304613; 0xfd469501;
   0x698098d8; 0x8b44f7af; 0xffff5bb1; 0x895cd7be;
   0x6b901122; 0xfd987193; 0xa679438e; 0x49b40821;
   0xf61e2562; 0xc040b340; 0x265e5a51; 0xe9b6c7aa;
   0xd62f105d; 0x02441453; 0xd8a1e681; 0xe7d3fbc8;
   0x21e1cde6; 0xc33707d6; 0xf4d50d87; 0x455a14ed;
   0xa9e3e905; 0xfcefa3f8; 0x676f02d9; 0x8d2a4c8a;
   0xfffa3942; 0x8771f681; 0x6d9d6122; 0xfde5380c;
   0xa4beea44; 0x4bdecfa9; 0xf6bb4b60; 0xbebfbc70;
   0x289b7ec6; 0xeaa127fa; 0xd4ef3085; 0x04881d05;
   0xd9d4d039; 0xe6db99e5; 0x1fa27cf8; 0xc4ac5665;
   0xf4292244; 0x432aff97; 0xab9423a7; 0xfc93a039;
   0x655b59c3; 0x8f0ccc92; 0xffeff47d; 0x85845dd1;
   0x6fa87e4f; 0xfe2ce6e0; 0xa3014314; 0x4e0811a1;
   0xf7537e82; 0xbd3af235; 0x2ad7d2bb; 0xeb86d391].

Record state : Type := { sa : Z; sb : Z; sc : Z; sd : Z }.

Definition init : state :=
  {| sa := 0x67452301; sb := 0xefcdab89; sc := 0x98badcfe;
     sd := 0x10325476 |}.

(** The bytes of the message followed by the padding: [0x80], zeros up to
    56 modulo 64, and the bit length on 8 bytes, least significant first. *)
Definition le_bytes (count : nat) (x : Z) : list Z :=
  map (fun k => Z.shiftr x (8 * Z.of_nat k) mod 256) (seq 0 count).

Definition pad (msg : list Z) : list Z :=
  let n := Z.of_nat (length msg) in
  msg ++ [0x80] ++ repeat 0 (Z.to_nat ((55 - n) mod 64))
      ++ le_bytes 8 ((8 * n) mod 2 ^ 64).

Fixpoint word_of_le_bytes (bs : list Z) : Z :=
  match bs with
  | [] => 0
  | b :: bs' => b + 256 * word_of_le_bytes bs'
  end.

(** The sixteen words of a 64-byte block. *)
Definition words (block : list Z) : list Z :=
  map (fun k => word_of_le_bytes (firstn 4 (skipn (4 * k) block)))
    (seq 0 16).

Definition round (m : list Z) (st : state) (i : nat) : state :=
  let '(f, g) :=
    let b := sb st in let c := sc st in let d := sd st in
    if (i <? 16)%nat then
      (Z.lor (Z.land b c) (Z.land (not32 b) d), i)
    else if (i <? 32)%nat then
      (Z.lor (Z.land d b) (Z.land (not32 d) c), ((5 * i + 1) mod 16)%nat)
    else if (i <? 48)%nat then
      (Z.lxor b (Z.lxor c d), ((3 * i + 5) mod 16)%nat)
    else
      (Z.lxor c (Z.lor b (not32 d)), ((7 * i) mod 16)%nat) in
  let f := add32 (add32 (add32 f (sa st)) (nth i sines 0)) (nth g m 0) in
  {| sa := sd st; sd := sc st; sc := sb st;
     sb := add32 (sb st) (rotl32 f (nth i shifts 0)) |}.

Definition compress (st : state) (block : list Z) : state :=
  let st' := fold_left (round (words block)) (seq 0 64) st in
  {| sa := add32 (sa st) (sa st'); sb := add32 (sb st) (sb st');
     sc := add32 (sc st) (sc st'); sd := add32 (sd st) (sd st') |}.

Fixpoint blocks (count : nat) (bs : list Z) : list (list Z) :=
  match count with
  | O => []
  | S count' => firstn 64 bs :: blocks count' (skipn 64 bs)
  end.

Definition digest_state (msg : list Z) : state :=
  let p := pad msg in
  fold_left compress (blocks (length p / 64) p) init.

Definition hex_digit (d : Z) : ascii :=
  match Z.to_nat (d mod 16) with
  | 0 => "0" | 1 => "1" | 2 => "2" | 3 => "3" | 4 => "4" | 5 => "5"
  | 6 => "6" | 7 => "7" | 8 => "8" | 9 => "9" | 10 => "a" | 11 => "b"
  | 12 => "c" | 13 => "d" | 14 => "e" | _ => "f"
  end%nat%char.

(** A lower-case hexadecimal digit. *)
Definition is_hex (c : ascii) : bool :=
  existsb (Ascii.eqb c) (list_ascii_of_string "0123456789abcdef").

Definition hex_byte (b : Z) : list ascii :=
  [hex_digit (b / 16); hex_digit b].

Definition bytes_of_string (s : string) : list Z :=
  map (fun c => Z.of_N (N_of_ascii c)) (list_ascii_of_string s).

(** [hashlib.md5(data).hexdigest()] *)
Definition hexdigest (data : string) : string :=
  let st := digest_state (bytes_of_string data) in
  string_of_list_ascii
    (flat_map hex_byte
       (le_bytes 4 (sa st) ++ le_bytes 4 (sb st)
        ++ le_bytes 4 (sc st) ++ le_bytes 4 (sd st))).

End MD5.

(** ** The cache layer ([src/cache_manager.py]) *)

Module CacheManager.
Import Py Run.
Local Open Scope Z_scope.
Local Open Scope run_scope.

(** A positional or keyword argument of a cached call, by its [str()]:
    [AObject text] is any other object, [text] being its [str()]. *)
Inductive arg : Type :=
| AStr (s : string)
| AInt (z : Z)
| ABool (b : bool)
| ANone
| AObject (text : string).

(** [str(a)], which is also what [f"{a}"] prints. *)
Definition str (a : arg) : string :=
  match a with
  | AStr s => s
  | AInt z => NilZero.string_of_int (Z.to_int z)
  | ABool true => "True"
  | ABool false => "False"
  | ANone => "None"
  | AObject text => text
  end.

(** [**kwargs]: the items of the dict in insertion order; the keys of a
    dict are pairwise distinct. *)
Definition kwargs := list (string * arg).

(** [sorted(kwargs.items())]: with pairwise distinct keys the comparison
    of two items is decided by their keys. *)
Definition sorted_items (kw : kwargs) : kwargs :=
  Py.sort str_lt (fun item : string * arg => fst item) false kw.

(** The string that is hashed. *)
Definition key_string (args : list arg) (kw : kwargs) : string :=
  let key_parts := map str args in
  let key_parts :=
    key_parts
    ++ map (fun item : string * arg => fst item +:+ "=" +:+ str (snd item))
         (sorted_items kw) in
  join "|" key_parts.

(** A string without the separator of [key_string]. *)
Fixpoint no_sep (s : string) : bool :=
  match s with
  | EmptyString => true
  | String c s' => negb (Ascii.eqb c "|") && no_sep s'
  end.

Definition _generate_key (prefix : string) (args : list arg) (kw : kwargs)
  : string :=
  let key_hash := str_slice (MD5.hexdigest (key_string args kw)) 0 16 in
  "rhythmbox:" +:+ prefix +:+ ":" +:+ key_hash.

(** A value returned by a cached operation or held in the cache. *)
#[warnings="-register-all"]
Inductive pyvalue : Type :=
| PNone
| PBool (b : bool)
| PInt (z : Z)
| PStr (s : string)
| PList (l : list pyvalue)
| PDict (d : list (string * pyvalue)).

(** [v is None] *)
Definition is_none (v : pyvalue) : bool :=
  match v with PNone => true | _ => false end.

(** An empty string, list or dict. *)
Definition is_empty (v : pyvalue) : bool :=
  match v with
  | PStr "" | PList [] | PDict [] => true
  | _ => false
  end.

(** The calls recorded in a trace: the commands sent to Redis with their
    answers, and the invocations of the wrapped operation. *)
Inductive event : Type :=
| Redis_ping (r : outcome unit)
| Redis_get (key : string) (r : outcome (option string))
| Redis_set (key payload : string) (r : outcome unit)
| Redis_setex (key : string) (ttl : Z) (payload : string) (r : outcome unit)
| Invoked (args : list arg) (kw : kwargs) (r : outcome pyvalue).

(** The Redis client and the [json] module. *)
Record Redis (World : Type) : Type := {
  ping : World -> outcome unit * World;
  redis_get : string -> World -> outcome (option string) * World;
  redis_set : string -> string -> World -> outcome unit * World;
  redis_setex : string -> Z -> string -> World -> outcome unit * World;
  (** [json.dumps(value, default=str)] *)
  json_dumps : pyvalue -> outcome string;
  json_loads : string -> outcome pyvalue
}.
Arguments ping {World}.
Arguments redis_get {World}.
Arguments redis_set {World}.
Arguments redis_setex {World}.
Arguments json_dumps {World}.
Arguments json_loads {World}.

(** A [CacheManager]: [_enabled] is [redis_client is not None]. *)
Record t : Type := { _enabled : bool }.

(** A keyword that meets a parameter of [_generate_key] which the call of
    the wrapper has already bound. *)
Definition bound_parameter (name : string) : bool :=
  String.eqb name "self" || String.eqb name "prefix".

(** The call [cache_manager._generate_key(prefix, *args, **kwargs)] of the
    wrapper.  With a keyword named [self] or [prefix] the call raises a
    [TypeError] before [_generate_key] runs; the message (here the text of
    Python 3.10 and later) names the first such keyword. *)
Definition generate_key_call (prefix : string) (args : list arg)
    (kw : kwargs) : outcome string :=
  match List.find (fun item : string * arg => bound_parameter (fst item)) kw
  with
  | Some item =>
      Raise ("CacheManager._generate_key() got multiple values for argument '"
             +:+ fst item +:+ "'")
  | None => Ok (_generate_key prefix args kw)
  end.

(** The key that the wrapper uses. *)
Definition cache_key (prefix : string)
    (key_func : option (list arg -> kwargs -> outcome string))
    (args : list arg) (kw : kwargs) : outcome string :=
  match key_func with
  | Some kf => kf args kw
  | None => generate_key_call prefix args kw
  end.

(** The number of times a run invoked the wrapped operation. *)
Definition invocations (t : list event) : nat :=
  length (List.filter (fun e => match e with Invoked _ _ _ => true
                                        | _ => false end) t).

(** A result that the wrapper hands to [set]: a value other than [None]. *)
Definition storable (r : outcome pyvalue) : bool :=
  match r with
  | Ok v => negb (is_none v)
  | Raise _ => false
  end.

Definition result_value (r : outcome pyvalue) : pyvalue :=
  match r with
  | Ok v => v
  | Raise _ => PNone
  end.

(** A payload that [get] turns into a value: a text that is not empty and
    that [json.loads] reads as a value other than [None]. *)
Definition readable {World : Type} (redis : Redis World) (payload : string)
  : bool :=
  negb (String.eqb payload "")
  && match json_loads redis payload with
     | Ok v => negb (is_none v)
     | Raise _ => false
     end.

(** An entry of Redis that [get] turns into a value. *)
Definition held {World : Type} (redis : Redis World) (entry : option string)
  : bool :=
  match entry with
  | Some payload => readable redis payload
  | None => false
  end.

(** A value other than [None] that [json.dumps] writes as a readable
    payload. *)
Definition cacheable {World : Type} (redis : Redis World) (v : pyvalue)
  : bool :=
  negb (is_none v)
  && match json_dumps redis v with
     | Ok payload => readable redis payload
     | Raise _ => false
     end.

(** A Redis that works, seen through [up], whether the server answers, and
    through [contents], the payload held under each key.  While the server
    is up every command succeeds and leaves it up; [PING] and [GET] change
    no entry, [GET] returns the payload held, and after [SET], or [SETEX]
    with a positive time to live, the key holds the payload written.  No
    entry expires. *)
Definition working {World : Type} (redis : Redis World)
    (up : World -> bool) (contents : World -> string -> option string)
  : Prop :=
  (forall w, up w = true ->
     fst (ping redis w) = Ok tt
     /\ up (snd (ping redis w)) = true
     /\ forall k, contents (snd (ping redis w)) k = contents w k)
  /\ (forall key w, up w = true ->
        fst (redis_get redis key w) = Ok (contents w key)
        /\ up (snd (redis_get redis key w)) = true
        /\ forall k, contents (snd (redis_get redis key w)) k
                     = contents w k)
  /\ (forall key payload w, up w = true ->
        fst (redis_set redis key payload w) = Ok tt
        /\ up (snd (redis_set redis key payload w)) = true
        /\ contents (snd (redis_set redis key payload w)) key
           = Some payload)
  /\ (forall key ttl payload w, up w = true -> 0 < ttl ->
        fst (redis_setex redis key ttl payload w) = Ok tt
        /\ up (snd (redis_setex redis key ttl payload w)) = true
        /\ contents (snd (redis_setex redis key ttl payload w)) key
           = Some payload).

Section Cache.
Context {World : Type} (redis : Redis World).

Abbreviation M := (M World event).

(** The [enabled] property. *)
Definition enabled (self : t) : M bool :=
  if negb (_enabled self) then ret false
  else
    do r <- call (ping redis) Redis_ping;
    match r with
    | Ok _ => ret true
    | Raise _ => ret false
    end.

(** [get]: [PNone] stands for the [None] it returns on a miss. *)
Definition get (self : t) (key : string) : M pyvalue :=
  do en <- enabled self;
  if negb en then ret PNone
  else
    do value <- call (redis_get redis key) (Redis_get key);
    match value with
    | Raise _ => ret PNone
    | Ok None => ret PNone
    | Ok (Some payload) =>
        if String.eqb payload "" then ret PNone
        else
          match json_loads redis payload with
          | Ok v => ret v
          | Raise _ => ret PNone
          end
    end.

(** [set]; [ttl] is [None] or an int, and [if ttl] is false for both
    [None] and [0]. *)
Definition set (self : t) (key : string) (value : pyvalue)
    (ttl : option Z) : M bool :=
  do en <- enabled self;
  if negb en then ret false
  else
    match json_dumps redis value with
    | Raise _ => ret false
    | Ok serialized =>
        do r <-
          match ttl with
          | Some seconds =>
              if seconds =? 0
              then call (redis_set redis key serialized)
                        (Redis_set key serialized)
              else call (redis_setex redis key seconds serialized)
                        (Redis_setex key seconds serialized)
          | None => call (redis_set redis key serialized)
                         (Redis_set key serialized)
          end;
        match r with
        | Ok _ => ret true
        | Raise _ => ret false
        end
    end.

(** The [wrapper] that [cache_result(prefix, ttl, key_func)] puts
    around [f], applied to [args] and [kw]; [cache_manager] is the
    attribute of [current_app] ([None] when it is missing).  The wrapper has no [try]: what [key_func] or [f] raise
    leaves the wrapper. *)
Definition cache_result (prefix : string) (ttl : Z)
    (key_func : option (list arg -> kwargs -> outcome string))
    (f : list arg -> kwargs -> World -> outcome pyvalue * World)
    (cache_manager : option t) (args : list arg) (kw : kwargs)
  : M (outcome pyvalue) :=
  do en <- match cache_manager with
           | None => ret false
           | Some cm => enabled cm
           end;
  match cache_manager, en with
  | Some cm, true =>
      let key :=
        match key_func with
        | Some kf => kf args kw
        | None => generate_key_call prefix args kw
        end in
      match key with
      | Raise e => ret (Raise e)
      | Ok cache_key =>
          do cached <- get cm cache_key;
          if negb (is_none cached) then ret (Ok cached)
          else
            do result <- call (f args kw) (Invoked args kw);
            match result with
            | Raise e => ret (Raise e)
            | Ok v =>
                if negb (is_none v) then
                  do _ <- set cm cache_key v (Some ttl);
                  ret (Ok v)
                else ret (Ok v)
            end
      end
  | _, _ => call (f args kw) (Invoked args kw)
  end.
(** [not cache_manager or not cache_manager.enabled], negated. *)
Definition available (cache_manager : option t) : M bool :=
  match cache_manager with
  | None => ret false
  | Some cm => enabled cm
  end.

(** Whether a call of the wrapper in world [w] is served from the cache. *)
Definition hits (cache_manager : option t) (key : string) (w : World)
  : bool :=
  match cache_manager with
  | None => false
  | Some cm =>
      let check := enabled cm w in
      value check && negb (is_none (value (get cm key (world check))))
  end.
End Cache.

End CacheManager.

(** ** Prepared environments

    A Spotify client that replays a prepared list of answers: each call of
    [current_user_saved_tracks] or of [current_user_saved_tracks_contains]
    consumes the next answer of its list, and answers [None] once the list
    is used up. *)

Module Replay.
Import Py Models FavoritesManager.

Record script : Type := {
  token : outcome bool;
  instance : outcome bool;
  pages : list (outcome (option response));
  checks : list (outcome (option (list bool)))
}.

Definition next_page (w : script) : outcome (option response) * script :=
  match pages w with
  | [] => (Ok None, w)
  | r :: rest =>
      (r, {| token := token w; instance := instance w; pages := rest;
             checks := checks w |})
  end.

Definition next_check (w : script)
  : outcome (option (list bool)) * script :=
  match checks w with
  | [] => (Ok None, w)
  | r :: rest =>
      (r, {| token := token w; instance := instance w; pages := pages w;
             checks := rest |})
  end.

Definition client : Spotify script := {|
  get_spotify_token w := (token w, w);
  get_spotify_instance w := (instance w, w);
  current_user_saved_tracks _ _ w := next_page w;
  current_user_saved_tracks_contains _ w := next_check w
|}.

(** A logged-in user and the given answers. *)
Definition logged_in (ps : list (outcome (option response)))
    (cs : list (outcome (option (list bool)))) : script :=
  {| token := Ok true; instance := Ok true; pages := ps; checks := cs |}.

(** A track that only has a name. *)
Definition named (n : string) : Track :=
  {| id := n; name := Some n; artist := Some ""; album := "";
     spotify_url := ""; image_url := Some ""; preview_url := None |}.

(** [n] track ids: t0, t1, ... *)
Definition ids (n : nat) : list string :=
  map (fun k => "t" +:+ NilZero.string_of_uint (Nat.to_uint k)) (seq 0 n).

(** The track number [k] of a library: id t<k>, by artist<k>. *)
Definition track (k : nat) : Track :=
  let n := NilZero.string_of_uint (Nat.to_uint k) in
  {| id := "t" +:+ n; name := Some ("Song " +:+ n);
     artist := Some ("artist" +:+ n); album := ""; spotify_url := "";
     image_url := Some ""; preview_url := None |}.

(** The answers of a well-behaved client to the successive pages of 50 of
    a library of [n] tracks, here for [n] below 100. *)
Definition library_pages (n : nat) : list (outcome (option response)) :=
  let items := map (fun k => ItemTrack (track k)) (seq 0 n) in
  [Ok (Some {| resp_items := ItemsList (take 50 items);
               resp_total := Some (Z.of_nat n) |});
   Ok (Some {| resp_items := ItemsList (drop 50 items);
               resp_total := Some (Z.of_nat n) |})].

(** A truthy page of [n] tracks with the given [total] entry. *)
Definition page_of (n : nat) (total : option Z) : response :=
  {| resp_items := ItemsList (repeat (ItemTrack (named "t")) n);
     resp_total := total |}.

End Replay.

(** A Redis server held in memory: a map from keys to payloads, which can
    be up or down.  No time passes, so that no entry expires; [SETEX] with
    a time to live that is not positive is an error, as in Redis. *)

Module Memory.
Import Py CacheManager.
Local Open Scope Z_scope.

Record server : Type := { up : bool; data : gmap string string }.

Definition command {A} (w : server) (answer : A) (w' : server)
  : outcome A * server :=
  if up w then (Ok answer, w') else (Raise "Connection refused", w).

Definition store (key payload : string) (w : server) : server :=
  {| up := up w; data := <[key := payload]> (data w) |}.

Definition quote : string := String (ascii_of_nat 34) EmptyString.

(** A string that JSON writes as it is between quotes. *)
Definition plain (s : string) : bool :=
  forallb (fun c => let n := nat_of_ascii c in
                    (32 <=? n) && (n <=? 126) && negb (n =? 34)
                    && negb (n =? 92))%nat
    (list_ascii_of_string s).

(** [json.dumps] and [json.loads] on [None], booleans, integers, plain
    strings and the empty list and dict; other values are refused. *)
Definition dumps (v : pyvalue) : outcome string :=
  match v with
  | PNone => Ok "null"
  | PBool true => Ok "true"
  | PBool false => Ok "false"
  | PInt z => Ok (NilZero.string_of_int (Z.to_int z))
  | PStr s => if plain s then Ok (quote +:+ s +:+ quote)
              else Raise "unsupported"
  | PList [] => Ok "[]"
  | PDict [] => Ok "{}"
  | _ => Raise "unsupported"
  end.

Definition unquote (s : string) : option string :=
  match list_ascii_of_string s with
  | c :: rest =>
      match rev rest with
      | d :: middle =>
          if (nat_of_ascii c =? 34)%nat && (nat_of_ascii d =? 34)%nat
          then Some (string_of_list_ascii (rev middle))
          else None
      | [] => None
      end
  | [] => None
  end.

Definition loads (s : string) : outcome pyvalue :=
  if String.eqb s "null" then Ok PNone
  else if String.eqb s "true" then Ok (PBool true)
  else if String.eqb s "false" then Ok (PBool false)
  else if String.eqb s "[]" then Ok (PList [])
  else if String.eqb s "{}" then Ok (PDict [])
  else
    match unquote s with
    | Some text => if plain text then Ok (PStr text) else Raise "unsupported"
    | None =>
        match NilZero.int_of_string s with
        | Some i => Ok (PInt (Z.of_int i))
        | None => Raise "Expecting value"
        end
    end.

Definition redis : Redis server := {|
  ping w := command w tt w;
  redis_get key w := command w (data w !! key) w;
  redis_set key payload w := command w tt (store key payload w);
  redis_setex key ttl payload w :=
    if ttl <=? 0 then (Raise "invalid expire time in 'setex' command", w)
    else command w tt (store key payload w);
  json_dumps := dumps;
  json_loads := loads
|}.

(** The payload held under a key. *)
Definition contents (w : server) (key : string) : option string :=
  data w !! key.

(** A running server without entries, and the manager connected to it. *)
Definition fresh : server := {| up := true; data := ∅ |}.
Definition manager : option t := Some {| _enabled := true |}.

(** A read operation that returns [v] whatever its arguments. *)
Definition constant (v : pyvalue) (_ : list arg) (_ : kwargs) (w : server)
  : outcome pyvalue * server := (Ok v, w).

End Memory.

(** ** Writes to the favourites ([src/favorites_manager.py]) *)

Module FavoritesWrites.
Import Py Models Run FavoritesManager.
Local Open Scope run_scope.

(** The calls of the methods that change the favourites: those of the
    reading methods, and the two writing calls of the client. *)
Inductive event : Type :=
| Read (e : FavoritesManager.event)
| Api_saved_tracks_add (tracks : list string) (r : outcome unit)
| Api_saved_tracks_delete (tracks : list string) (r : outcome unit).

(** A run of the reading part, inside a run that records [event]s. *)
Definition reading {World A : Type} (m : M World FavoritesManager.event A)
  : M World event A :=
  fun w => let '(a, w', t) := m w in (a, w', map Read t).

Record SpotifyWrites (World : Type) : Type := {
  current_user_saved_tracks_add :
    list string -> World -> outcome unit * World;
  current_user_saved_tracks_delete :
    list string -> World -> outcome unit * World
}.
Arguments current_user_saved_tracks_add {World}.
Arguments current_user_saved_tracks_delete {World}.

(** [not track_id or not track_id.strip()] *)
Definition blank (strip : string -> string) (track_id : string) : bool :=
  String.eqb track_id "" || String.eqb (strip track_id) "".

Section Writes.
Context {World : Type} (sp : Spotify World) (spw : SpotifyWrites World).
(** [str.strip()] *)
Context (strip : string -> string).

Definition save_track (track_id : string)
  : M World event (bool * option string) :=
  if blank strip track_id then ret (false, Some "ID da música inválido.")
  else
    let track_id := strip track_id in
    do (ok, error) <- reading (_validate_authentication sp);
    if str_truthy error || negb ok
    then ret (false, Some (str_or error "Erro na autenticação"))
    else
      do r <- call (current_user_saved_tracks_add spw [track_id])
                   (Api_saved_tracks_add [track_id]);
      match r with
      | Ok _ => ret (true, None)
      | Raise e =>
          ret (false, Some ("Erro ao adicionar aos favoritos: " +:+ e))
      end.

Definition remove_saved_track (track_id : string)
  : M World event (bool * option string) :=
  if blank strip track_id then ret (false, Some "ID da música inválido.")
  else
    let track_id := strip track_id in
    do (ok, error) <- reading (_validate_authentication sp);
    if str_truthy error || negb ok
    then ret (false, Some (str_or error "Erro na autenticação"))
    else
      do r <- call (current_user_saved_tracks_delete spw [track_id])
                   (Api_saved_tracks_delete [track_id]);
      match r with
      | Ok _ => ret (true, None)
      | Raise e =>
          ret (false, Some ("Erro ao remover dos favoritos: " +:+ e))
      end.

(** [results[0]] is taken once [results] is known not to be empty. *)
Definition is_track_saved (track_id : string)
  : M World FavoritesManager.event (bool * option string) :=
  if blank strip track_id then ret (false, Some "ID da música inválido")
  else
    do (results, error) <- check_saved_tracks sp strip [strip track_id];
    if str_truthy error then ret (false, error)
    else
      match results with
      | [] => ret (false, Some "Nenhum resultado retornado")
      | saved :: _ => ret (saved, None)
      end.

(** What a writing method does with the answer of its one call. *)
Definition write_result (failure : string) (out : outcome unit)
  : bool * option string :=
  match out with
  | Ok _ => (true, None)
  | Raise e => (false, Some (failure +:+ e))
  end.

(** What a run [run] of a writing method from the world [w] has to be,
    [op] being the call of the client that it makes and [ev] the record of
    that call: the call is made once, for the stripped id, when the id is
    not blank and the user is authenticated, and not otherwise; success is
    reported exactly when the call was made and did not raise, and then
    only without an error; an error is a truthy string; a blank id leaves
    the world as it is. *)
Definition write_contract (track_id : string) (w : World)
    (run : (bool * option string) * World * list event)
    (op : list string -> World -> outcome unit * World)
    (ev : list string -> outcome unit -> event) : Prop :=
  let w1 := world (_validate_authentication sp w) in
  let sent := negb (blank strip track_id) && authenticated sp w in
  let out := fst (op [strip track_id] w1) in
  trace run = (if sent then [ev [strip track_id] out] else [])
  /\ world run = (if sent then snd (op [strip track_id] w1)
                  else if blank strip track_id then w else w1)
  /\ fst (value run) = sent && negb (raised out)
  /\ (fst (value run) = true <-> snd (value run) = None)
  /\ (forall e, snd (value run) = Some e -> str_truthy (Some e) = true).
End Writes.

End FavoritesWrites.

(** ** Checks on inputs ([src/validation_utils.py]) *)

Module Validation.
Import Py.
Local Open Scope Z_scope.

(** [len(s)] on [str]: the number of code points, that is of bytes of the
    UTF-8 text that are not continuation bytes (128 to 191). *)
Definition str_len (s : string) : Z :=
  len (List.filter (fun c => let n := nat_of_ascii c in
                             negb ((128 <=? n) && (n <=? 191)))%nat
         (list_ascii_of_string s)).

(** The class [[a-zA-Z0-9]]. *)
Definition is_alnum (c : ascii) : bool :=
  let n := nat_of_ascii c in
  ((48 <=? n) && (n <=? 57) || (65 <=? n) && (n <=? 90)
   || (97 <=? n) && (n <=? 122))%nat.

(** [n] characters of the class and nothing else. *)
Definition alnum_run (n : nat) (cs : list ascii) : bool :=
  (length cs =? n)%nat && forallb is_alnum cs.

(** [re.match(r'^[a-zA-Z0-9]{22}$', s)]: 22 characters of the class, up to
    the end of the text or up to a line feed that ends it. *)
Definition match_id (s : string) : bool :=
  let cs := list_ascii_of_string s in
  alnum_run 22 cs
  || match rev cs with
     | c :: before => (nat_of_ascii c =? 10)%nat && alnum_run 22 (rev before)
     | [] => false
     end.

(** [validate_spotify_id], for an id that is a [str]; the exception it
    raises is a [ValidationError], whose text is the message. *)
Definition validate_spotify_id (spotify_id id_type : string) : outcome bool :=
  if String.eqb spotify_id "" then
    Raise ("ID do " +:+ id_type +:+ " não pode ser vazio")
  else if negb (str_len spotify_id =? 22) then
    Raise ("ID do " +:+ id_type +:+ " deve ter exatamente 22 caracteres")
  else if negb (match_id spotify_id) then
    Raise ("ID do " +:+ id_type +:+ " contém caracteres inválidos")
  else Ok true.

(** An id made of 22 letters and digits of ASCII. *)
Definition well_formed_id (s : string) : bool :=
  alnum_run 22 (list_ascii_of_string s).

End Validation.

(** ** The routes that add and remove a favourite ([app.py]) *)

Module AppWrites.
Import Py Run FavoritesManager FavoritesWrites Validation.
Local Open Scope Z_scope.
Local Open Scope run_scope.

(** [({'success': success, 'message': message}, status)] *)
Record answer : Type := {
  success : bool;
  message : option string;
  status : Z
}.

(** A value of the JSON body of a request, as [request.get_json()] hands
    it over: [None], a bool, an int, a float (of which the route only
    tests whether it is zero), a string, a list, or a dict, given as the
    list of its items, whose keys are pairwise distinct. *)
#[warnings="-register-all"]
Inductive json : Type :=
| JNull
| JBool (b : bool)
| JInt (z : Z)
| JFloat (nonzero : bool)
| JStr (s : string)
| JList (l : list json)
| JDict (d : list (string * json)).

(** [bool(v)] *)
Definition truthy (v : json) : bool :=
  match v with
  | JNull => false
  | JBool b => b
  | JInt z => negb (z =? 0)
  | JFloat nonzero => nonzero
  | JStr s => negb (String.eqb s "")
  | JList l => negb (Nat.eqb (length l) 0)
  | JDict d => negb (Nat.eqb (length d) 0)
  end.

(** The exceptions that leave [favoritar], which has no [try]: an
    exception of werkzeug with its status code, raised by
    [request.get_json()] (415 for a request that does not announce JSON,
    400 for a body that is not JSON), or one of Python. *)
Inductive exception : Type :=
| HTTPException (code : Z)
| TypeError
| KeyError
| AttributeError.

(** What a call returns or raises. *)
Inductive result (A : Type) : Type :=
| Returned (a : A)
| Raised (e : exception).
Arguments Returned {A} a.
Arguments Raised {A} e.

(** The status of the answer to the request: that of the answer the view
    returns; the code of an exception of werkzeug; and for any other
    exception the 500 of the handler [internal_error]. *)
Definition http_status (r : result answer) : Z :=
  match r with
  | Returned a => status a
  | Raised (HTTPException code) => code
  | Raised _ => 500
  end.

(** [needle in hay] on [str] *)
Fixpoint contains (needle hay : string) : bool :=
  String.prefix needle hay
  || match hay with
     | String _ hay' => contains needle hay'
     | EmptyString => false
     end.

(** [d.get(key)] on the items of a dict *)
Definition dict_get (key : string) (d : list (string * json))
  : option json :=
  option_map snd (List.find (fun item => String.eqb (fst item) key) d).

(** ['track_id' in data]: a key of a dict, an element of a list, a part
    of a string; other values are not containers. *)
Definition has_track_id (data : json) : result bool :=
  match data with
  | JDict d =>
      Returned (existsb (fun item => String.eqb (fst item) "track_id") d)
  | JList l =>
      Returned (existsb (fun v => match v with
                                  | JStr s => String.eqb s "track_id"
                                  | _ => false
                                  end) l)
  | JStr s => Returned (contains "track_id" s)
  | _ => Raised TypeError
  end.

(** [data['track_id']]: a list and a string take no string as index. *)
Definition get_track_id (data : json) : result json :=
  match data with
  | JDict d =>
      match dict_get "track_id" d with
      | Some v => Returned v
      | None => Raised KeyError
      end
  | _ => Raised TypeError
  end.

Section Routes.
Context {World : Type} (sp : Spotify World) (spw : SpotifyWrites World).
Context (strip : string -> string).

Definition add_favorite (track_id : string) : M World event answer :=
  match validate_spotify_id track_id "track" with
  | Raise e =>
      ret {| success := false;
             message := Some ("ID de música inválido: " +:+ e);
             status := 400 |}
  | Ok _ =>
      do (ok, error) <- save_track sp spw strip track_id;
      if ok then
        ret {| success := true;
               message := Some "Música adicionada aos favoritos!";
               status := 200 |}
      else ret {| success := false; message := error; status := 400 |}
  end.

Definition remove_favorite (track_id : string) : M World event answer :=
  match validate_spotify_id track_id "track" with
  | Raise e =>
      ret {| success := false;
             message := Some ("ID de música inválido: " +:+ e);
             status := 400 |}
  | Ok _ =>
      do (ok, error) <- remove_saved_track sp spw strip track_id;
      if ok then
        ret {| success := true;
               message := Some "Música removida dos favoritos!";
               status := 200 |}
      else ret {| success := false; message := error; status := 400 |}
  end.

(** [FavoritesManager.save_track(track_id)] for the value that
    [favoritar] takes out of the body: a falsy value is refused by
    [not track_id]; on a truthy value that is not a string
    [track_id.strip()] raises an [AttributeError], outside of any [try]. *)
Definition save_track_value (track_id : json)
  : M World event (result (bool * option string)) :=
  if negb (truthy track_id)
  then ret (Returned (false, Some "ID da música inválido."))
  else
    match track_id with
    | JStr s =>
        do r <- save_track sp spw strip s;
        ret (Returned r)
    | _ => ret (Raised AttributeError)
    end.

(** [favoritar]; [get_json] is what [request.get_json()] returns or
    raises. *)
Definition favoritar (get_json : result json)
  : M World event (result answer) :=
  match get_json with
  | Raised e => ret (Raised e)
  | Returned data =>
      let missing :=
        if negb (truthy data) then Returned true
        else
          match has_track_id data with
          | Returned found => Returned (negb found)
          | Raised e => Raised e
          end in
      match missing with
      | Raised e => ret (Raised e)
      | Returned true =>
          ret (Returned {| success := false;
                           message := Some "ID da música não fornecido";
                           status := 400 |})
      | Returned false =>
          match get_track_id data with
          | Raised e => ret (Raised e)
          | Returned track_id =>
              do r <- save_track_value track_id;
              match r with
              | Raised e => ret (Raised e)
              | Returned (ok, error) =>
                  if ok then
                    ret (Returned
                           {| success := true;
                              message :=
                                Some "Música adicionada aos favoritos!";
                              status := 200 |})
                  else
                    ret (Returned {| success := false; message := error;
                                     status := 400 |})
              end
          end
      end
  end.

(** What a run [run] of [add_favorite] or [remove_favorite] from the world
    [w] has to be, [op] being the call of the client behind it and [ev]
    the record of that call: an id that is not well formed is answered
    with status 400 without reaching the adapter; a well-formed id is sent
    to the client as it is, once, when the user is authenticated; the
    status is 200 on success and 400 otherwise, success meaning that the
    call was made and did not raise; and the answer always carries a
    message. *)
Definition write_route_contract (track_id : string) (w : World)
    (run : answer * World * list event)
    (op : list string -> World -> outcome unit * World)
    (ev : list string -> outcome unit -> event) : Prop :=
  let w1 := world (_validate_authentication sp w) in
  let sent := well_formed_id track_id && authenticated sp w in
  let out := fst (op [track_id] w1) in
  trace run = (if sent then [ev [track_id] out] else [])
  /\ world run = (if sent then snd (op [track_id] w1)
                  else if well_formed_id track_id then w1 else w)
  /\ success (value run) = sent && negb (raised out)
  /\ status (value run) = (if success (value run) then 200 else 400)
  /\ exists m, message (value run) = Some m /\ str_truthy (Some m) = true.
End Routes.

End AppWrites.

(** ** Invalidation ([src/cache_manager.py]) and the route that clears
    the cache ([app.py]) *)

Module CacheAdmin.
Import Py Run CacheManager.
Local Open Scope Z_scope.
Local Open Scope run_scope.

(** The calls recorded by the runs that invalidate: those of the cache
    layer above, and the commands [KEYS], [DEL] and [FLUSHDB]. *)
Inductive event : Type :=
| Cache (e : CacheManager.event)
| Redis_keys (pattern : string) (r : outcome (list string))
| Redis_delete (keys : list string) (r : outcome Z)
| Redis_flushdb (r : outcome unit).

(** A run of the cache layer above, inside a run that records [event]s. *)
Definition caching {World A : Type} (m : M World CacheManager.event A)
  : M World event A :=
  fun w => let '(a, w', t) := m w in (a, w', map Cache t).

Record RedisAdmin (World : Type) : Type := {
  redis_keys : string -> World -> outcome (list string) * World;
  (** [redis.delete( *keys)]: the number of keys removed *)
  redis_delete : list string -> World -> outcome Z * World;
  redis_flushdb : World -> outcome unit * World
}.
Arguments redis_keys {World}.
Arguments redis_delete {World}.
Arguments redis_flushdb {World}.

(** A command of Redis, as opposed to a [PING] or to an invocation of the
    wrapped operation. *)
Definition is_command (e : event) : bool :=
  match e with
  | Cache (Redis_ping _) | Cache (Invoked _ _ _) => false
  | _ => true
  end.

(** The commands of a run, in order. *)
Definition commands (t : list event) : list event :=
  List.filter is_command t.

(** An invocation of the wrapped operation. *)
Definition is_invocation (e : event) : bool :=
  match e with
  | Cache (Invoked _ _ _) => true
  | _ => false
  end.

(** What [delete_pattern] leaves in Redis and returns, by the commands
    [cmds] it sent and the number [n] it returned: nothing sent; a [KEYS]
    that raised or found nothing; or a [KEYS] followed by the [DEL] of
    exactly the keys found, whose count is returned. *)
Definition pattern_deleted (pattern : string) (cmds : list event) (n : Z)
  : Prop :=
  (cmds = [] /\ n = 0)
  \/ (exists r, cmds = [Redis_keys pattern r] /\ n = 0
               /\ (r = Ok [] \/ exists e, r = Raise e))
  \/ (exists keys d, keys <> []
        /\ cmds = [Redis_keys pattern (Ok keys); Redis_delete keys d]
        /\ n = match d with Ok count => count | Raise _ => 0 end).

Section Admin.
Context {World : Type} (redis : Redis World) (admin : RedisAdmin World).

Abbreviation M := (M World event).

Definition delete_pattern (self : t) (pattern : string) : M Z :=
  do en <- caching (enabled redis self);
  if negb en then ret 0
  else
    do keys <- call (redis_keys admin pattern) (Redis_keys pattern);
    match keys with
    | Raise _ => ret 0
    | Ok [] => ret 0
    | Ok keys =>
        do deleted <- call (redis_delete admin keys) (Redis_delete keys);
        match deleted with
        | Ok n => ret n
        | Raise _ => ret 0
        end
    end.

Definition clear_all (self : t) : M bool :=
  do en <- caching (enabled redis self);
  if negb en then ret false
  else
    do r <- call (redis_flushdb admin) Redis_flushdb;
    match r with
    | Ok _ => ret true
    | Raise _ => ret false
    end.

(** The [wrapper] that [invalidate_cache(pattern)] puts around [f].  The
    wrapper has no [try]: what [f] raises leaves it at once. *)
Definition invalidate_cache (pattern : string)
    (f : list arg -> kwargs -> World -> outcome pyvalue * World)
    (cache_manager : option t) (args : list arg) (kw : kwargs)
  : M (outcome pyvalue) :=
  do result <- call (f args kw) (fun r => Cache (Invoked args kw r));
  match result with
  | Raise e => ret (Raise e)
  | Ok v =>
      match cache_manager with
      | None => ret (Ok v)
      | Some cm =>
          do en <- caching (enabled redis cm);
          if en then
            do _ <- delete_pattern cm pattern;
            ret (Ok v)
          else ret (Ok v)
      end
  end.

(** The body of the [try] of [cache_clear], for a request whose JSON holds
    [pattern] (['rhythmbox:*'] when the key is missing):
    [(success, message)] of the answer, whose status is 200. *)
Definition cache_clear (self : t) (pattern : string) : M (bool * string) :=
  if String.eqb pattern "*" then
    do ok <- clear_all self;
    ret (ok, "Todo o cache foi limpo")
  else
    do deleted <- delete_pattern self pattern;
    ret (deleted >? 0,
         NilZero.string_of_int (Z.to_int deleted) +:+ " chaves removidas").
End Admin.

End CacheAdmin.

(** ** What the JSON route shows ([app.py]) *)

Module Pages.
Import App.

(** The tracks of an answer of the JSON route, none for a failure. *)
Definition shown (r : option api_response) : list track_dict :=
  match r with
  | Some (Success body) => js_tracks body
  | _ => []
  end.

End Pages.

(** ** Search queries ([src/validation_utils.py]) *)

Module Sanitize.
Local Open Scope Z_scope.

(** Here a [str] is the sequence of its code points: the regular
    expression, the slice and [split] of [sanitize_search_query] all work
    character by character. *)
Definition text := list Z.

(** The class [[\x00-\x1f\x7f-\x9f]] of the regular expression. *)
Definition is_control (c : Z) : bool :=
  (0 <=? c) && (c <=? 31) || (127 <=? c) && (c <=? 159).

(** White space for [str.split()] and [str.strip()]: the characters for
    which [str.isspace] holds, that is U+0009 to U+000D, U+001C to U+0020,
    U+0085, U+00A0, U+1680, U+2000 to U+200A, U+2028, U+2029, U+202F,
    U+205F and U+3000. *)
Definition is_space (c : Z) : bool :=
  (9 <=? c) && (c <=? 13) || (28 <=? c) && (c <=? 32)
  || (c =? 133) || (c =? 160) || (c =? 5760)
  || (8192 <=? c) && (c <=? 8202)
  || (c =? 8232) || (c =? 8233) || (c =? 8239) || (c =? 8287)
  || (c =? 12288).

(** [re.sub(r'[\x00-\x1f\x7f-\x9f]', '', s)] *)
Definition remove_controls (s : text) : text :=
  List.filter (fun c => negb (is_control c)) s.

(** [s.split()], scanning [s] from the left with the [word] read so far:
    white space ends a word, and runs of white space, also at the two
    ends, give no empty word. *)
Fixpoint split_scan (word : text) (s : text) : list text :=
  match s with
  | [] =>
      match word with
      | [] => []
      | _ => [word]
      end
  | c :: s' =>
      if is_space c then
        match word with
        | [] => split_scan [] s'
        | _ => word :: split_scan [] s'
        end
      else split_scan (word ++ [c]) s'
  end.

Definition split (s : text) : list text := split_scan [] s.

(** [sep.join(parts)] *)
Fixpoint join (sep : text) (parts : list text) : text :=
  match parts with
  | [] => []
  | [p] => p
  | p :: rest => p ++ sep ++ join sep rest
  end.

(** [s.lstrip()] and [s.strip()] *)
Fixpoint lstrip (s : text) : text :=
  match s with
  | c :: s' => if is_space c then lstrip s' else s
  | [] => []
  end.

Definition strip (s : text) : text := rev (lstrip (rev (lstrip s))).

(** The space between two words. *)
Definition space : text := [32].

Definition sanitize_search_query (query : text) (max_length : Z) : text :=
  match query with
  | [] => []
  | _ =>
      let query := remove_controls query in
      let query := Py.slice query 0 max_length in
      let query := join space (split query) in
      strip query
  end.

(** A word of a sanitised query: not empty, and free of white space and
    of control characters. *)
Definition clean_word (w : text) : Prop :=
  w <> []
  /\ Forall (fun c => is_space c = false /\ is_control c = false) w.

End Sanitize.

(** * Properties *)

(** ** Runs *)

Section RunFacts.
Import Run.
Context {World Ev : Type}.

Lemma bind_run {A B} (m : M World Ev A) (k : A -> M World Ev B) (w : World) :
  bind m k w =
  (value (k (value (m w)) (world (m w))),
   world (k (value (m w)) (world (m w))),
   trace (m w) ++ trace (k (value (m w)) (world (m w)))).
Proof.
  unfold bind, value, world, trace.
  destruct (m w) as [[a w1] t1]. simpl.
  destruct (k a w1) as [[b w2] t2]. reflexivity.
Qed.

Lemma run_eta {A} (r : A * World * list Ev) :
  r = (value r, world r, trace r).
Proof. destruct r as [[a w] t]. reflexivity. Qed.

End RunFacts.

(** ** The favourites adapter *)

Section AdapterFacts.
Import Py Models Run FavoritesManager.
Context {World : Type} (sp : Spotify World).
Local Open Scope Z_scope.

Lemma authenticated_inv (w : World) :
  authenticated sp w = true ->
  exists w', _validate_authentication sp w = ((true, None), w', []).
Proof.
  unfold authenticated, _validate_authentication, bind, quiet, ret, value.
  destruct (get_spotify_token sp w) as [[[|]|e] w1]; simpl;
    try discriminate.
  destruct (get_spotify_instance sp w1) as [[[|]|e] w2]; simpl;
    try discriminate.
  intros _. eauto.
Qed.

Lemma validate_trace (w : World) :
  trace (_validate_authentication sp w) = [].
Proof.
  unfold _validate_authentication, bind, quiet, ret, trace.
  destruct (get_spotify_token sp w) as [[[|]|e] w1]; simpl; try reflexivity.
  destruct (get_spotify_instance sp w1) as [[[|]|e] w2]; reflexivity.
Qed.

End AdapterFacts.

(** C10.  [get_saved_tracks] clamps its parameters instead of rejecting
    them: the effective limit is [max(1, min(50, limit))], within [1..50],
    the effective offset is [max(0, offset)]; the one call made to the
    client (made exactly when the user is authenticated) carries these two
    values; and what the method returns for any [limit] and [offset] is
    what it returns for the clamped, in-range values, so that no error
    comes from the parameters. *)
Theorem get_saved_tracks_clamps {World : Type}
    (sp : FavoritesManager.Spotify World) (limit offset : Z) (w : World) :
  let eff_limit := Z.max 1 (Z.min 50 limit) in
  let eff_offset := Z.max 0 offset in
  let run := FavoritesManager.get_saved_tracks sp limit offset w in
  let run' := FavoritesManager.get_saved_tracks sp eff_limit eff_offset w in
  (1 <= eff_limit <= 50)%Z /\ (0 <= eff_offset)%Z /\
  Run.value run = Run.value run' /\ Run.world run = Run.world run' /\
  exists r,
    let calls :=
      if FavoritesManager.authenticated sp w
      then [FavoritesManager.Api_saved_tracks eff_limit eff_offset r]
      else [] in
    Run.trace run
    = FavoritesManager.Called_get_saved_tracks limit offset :: calls
    /\ Run.trace run'
       = FavoritesManager.Called_get_saved_tracks eff_limit eff_offset
           :: calls.
Proof.
  intros eff_limit eff_offset run run'.
  assert (Hl : Z.max 1 (Z.min 50 eff_limit) = eff_limit)
    by (subst eff_limit; lia).
  assert (Ho : Z.max 0 eff_offset = eff_offset) by (subst eff_offset; lia).
  split; [subst eff_limit; lia|]. split; [subst eff_offset; lia|].
  subst run run'.
  unfold FavoritesManager.get_saved_tracks,
    FavoritesManager.MAX_TRACKS_PER_REQUEST.
  rewrite Hl, Ho. fold eff_limit eff_offset.
  unfold FavoritesManager.authenticated.
  unfold Run.bind at 1 3 5 7 9 11, Run.emit.
  unfold Run.bind, Run.ret, Run.call, Run.value, Run.world, Run.trace.
  destruct (FavoritesManager._validate_authentication sp w)
    as [[[ok error] w1] t1] eqn:Hv.
  pose proof (validate_trace sp w) as Ht. rewrite Hv in Ht.
  simpl in Ht. subst t1. simpl.
  destruct (Py.str_truthy error || negb ok) eqn:Hg; simpl.
  - split; [reflexivity|]. split; [reflexivity|].
    exists (Py.Ok None). split; reflexivity.
  - destruct (FavoritesManager.current_user_saved_tracks sp eff_limit
                eff_offset w1) as [r w2].
    destruct r as [[r|]|e]; simpl;
      (split; [reflexivity|]; split; [reflexivity|];
       eexists; split; reflexivity).
Qed.

Section FetchAll.
Import Py Models Run FavoritesManager.
Context {World : Type} (sp : Spotify World).
Local Open Scope Z_scope.

Lemma page_calls_cons limit offset r rs :
  page_calls limit offset (r :: rs)
  = Api_saved_tracks limit offset r :: page_calls limit (offset + limit) rs.
Proof.
  unfold page_calls. rewrite imap_cons. f_equal.
  - f_equal. lia.
  - apply imap_ext. intros k x _. simpl. f_equal. lia.
Qed.

Lemma get_all_loop_spec :
  forall (fuel : nat) (offset page : Z) (acc : list Track) (w : World),
    1 <= page <= 1000 -> 1001 - page <= Z.of_nat fuel ->
    exists rs w',
      get_all_loop sp fuel 50 offset page acc w
      = (Some (loop_result acc rs), w', page_calls 50 offset rs)
      /\ (1 <= length rs)%nat /\ Z.of_nat (length rs) <= 1001 - page
      /\ (forall k r, rs !! k = Some r -> (S k < length rs)%nat ->
                      full_page 50 r = true)
      /\ (Z.of_nat (length rs) < 1001 - page ->
          forall r, last rs = Some r -> full_page 50 r = false)
      /\ page_answers sp (length rs) 50 offset w = (rs, w').
Proof.
  induction fuel as [|fuel IH]; intros offset page acc w Hpage Hfuel.
  { simpl in Hfuel. lia. }
  assert (Hone : forall (r : outcome (option response)) (w1 : World) out,
    current_user_saved_tracks sp 50 offset w = (r, w1) ->
    loop_result acc [r] = out -> full_page 50 r = false \/ page = 1000 ->
    exists rs w',
      (Some out, w1, [Api_saved_tracks 50 offset r] ++ [])
      = (Some (loop_result acc rs), w', page_calls 50 offset rs)
      /\ (1 <= length rs)%nat /\ Z.of_nat (length rs) <= 1001 - page
      /\ (forall k r, rs !! k = Some r -> (S k < length rs)%nat ->
                      full_page 50 r = true)
      /\ (Z.of_nat (length rs) < 1001 - page ->
          forall r, last rs = Some r -> full_page 50 r = false)
      /\ page_answers sp (length rs) 50 offset w = (rs, w')).
  { intros r w1 out Hc <- Hstop. exists [r], w1.
    split; [rewrite page_calls_cons; reflexivity|].
    split; [simpl; lia|]. split; [simpl; lia|].
    split; [intros k r' _ Hk; simpl in Hk; lia|].
    split; [|simpl; now rewrite Hc].
    intros Hlt r' Hlast. simpl in Hlt, Hlast. inversion Hlast; subst.
    destruct Hstop; [assumption | lia]. }
  cbn [get_all_loop]. unfold bind at 1. unfold call at 1.
  destruct (current_user_saved_tracks sp 50 offset w) as [r w1] eqn:Hcall.
  destruct r as [[[items total]|]|e].
  2: { apply Hone; [reflexivity
                   |unfold loop_result; simpl; now rewrite app_nil_r
                   |now left]. }
  2: { apply Hone; [reflexivity|reflexivity|now left]. }
  destruct items as [| |items]; cbn [resp_items].
  1, 2: apply Hone; [reflexivity
                    |unfold loop_result; simpl; now rewrite app_nil_r
                    |now left].
  destruct items as [|it items].
  { apply Hone; [reflexivity
                |unfold loop_result; simpl; now rewrite app_nil_r
                |now left]. }
  set (l := it :: items) in *.
  destruct (len l <? 50) eqn:Hshort.
  { apply Hone; [reflexivity| |].
    - unfold loop_result. simpl. now rewrite app_nil_r.
    - left. simpl. apply Z.leb_gt. apply Z.ltb_lt in Hshort. exact Hshort. }
  destruct (page + 1 >? 1000) eqn:Hcap.
  { apply Hone; [reflexivity| |].
    - unfold loop_result. simpl. now rewrite app_nil_r.
    - right. apply Z.gtb_lt in Hcap. lia. }
  assert (Hfull : full_page 50 (Ok (Some {| resp_items := ItemsList l;
                                            resp_total := total |})) = true).
  { simpl. apply Z.leb_le. apply Z.ltb_ge in Hshort. exact Hshort. }
  assert (Hp : page + 1 <= 1000).
  { destruct (Z.gtb_spec (page + 1) 1000); [discriminate | lia]. }
  destruct (IH (offset + 50) (page + 1)
              (acc ++ _parse_tracks_from_response l) w1)
    as (rs & w' & Hrun & Hlen1 & Hlen2 & Hfulls & Hlast & Hans);
    [lia | lia |].
  rewrite Hrun.
  exists (Ok (Some {| resp_items := ItemsList l; resp_total := total |}) :: rs),
    w'.
  split.
  { rewrite page_calls_cons. f_equal. f_equal. f_equal.
    unfold loop_result. destruct rs as [|r0 rs0]; [simpl in Hlen1; lia|].
    change (last (_ :: r0 :: rs0)) with (last (r0 :: rs0)).
    destruct (last (r0 :: rs0)) as [[x|e]|]; try reflexivity;
      cbn [flat_map tracks_of resp_items]; now rewrite <- app_assoc. }
  split; [simpl; lia|]. split; [simpl length; lia|]. split; [|split].
  - intros [|k] r Hk Hlt.
    + simpl in Hk. inversion Hk; subst. exact Hfull.
    + simpl in Hk, Hlt. apply (Hfulls k r Hk). lia.
  - intros Hlt r Hr. destruct rs as [|r0 rs0]; [simpl in Hlen1; lia|].
    change (last (_ :: r0 :: rs0)) with (last (r0 :: rs0)) in Hr.
    apply Hlast; [simpl length in *; lia | exact Hr].
  - cbn [length page_answers]. rewrite Hcall, Hans. reflexivity.
Qed.

End FetchAll.

Section FetchAllFuel.
Import Py Models Run FavoritesManager.
Context {World : Type} (sp : Spotify World).
Local Open Scope Z_scope.

(** The loop leaves through one of its [break]s, not for want of fuel:
    any two amounts of fuel that cover the pages left give the same run. *)
Lemma get_all_loop_fuel :
  forall (fuel1 fuel2 : nat) (offset page : Z) (acc : list Track) (w : World),
    1 <= page <= 1000 ->
    1001 - page <= Z.of_nat fuel1 -> 1001 - page <= Z.of_nat fuel2 ->
    get_all_loop sp fuel1 50 offset page acc w
    = get_all_loop sp fuel2 50 offset page acc w.
Proof.
  induction fuel1 as [|fuel1 IH]; intros fuel2 offset page acc w Hp H1 H2.
  { simpl in H1. lia. }
  destruct fuel2 as [|fuel2]; [simpl in H2; lia|].
  cbn [get_all_loop]. unfold bind, call.
  destruct (current_user_saved_tracks sp 50 offset w) as [r w1].
  destruct r as [[[items total]|]|e]; try reflexivity.
  destruct items as [| |[|it items]]; cbn [resp_items]; try reflexivity.
  destruct (len (it :: items) <? 50); [reflexivity|].
  destruct (Z.gtb_spec (page + 1) 1000) as [Hgt|Hle]; [reflexivity|].
  rewrite (IH fuel2); [reflexivity | lia | lia | lia].
Qed.

Lemma get_all_saved_tracks_auth (fuel : nat) (w w0 : World) :
  _validate_authentication sp w = ((true, None), w0, []) ->
  get_all_saved_tracks sp fuel w
  = let '(r, w', t) := get_all_loop sp fuel 50 0 1 [] w0 in
    (match r with
     | None => None
     | Some (Ok all_tracks) => Some (all_tracks, None)
     | Some (Raise e) =>
         Some ([], Some ("Erro ao obter todos os favoritos: " +:+ e))
     end, w', Called_get_all_saved_tracks :: t).
Proof.
  intros Hv. unfold get_all_saved_tracks, MAX_TRACKS_PER_REQUEST.
  unfold bind, emit. rewrite Hv. cbn [str_truthy negb orb].
  destruct (get_all_loop sp fuel 50 0 1 [] w0) as [[r w'] t].
  destruct r as [[tr|e]|]; unfold ret; simpl; now rewrite ?app_nil_r.
Qed.

End FetchAllFuel.

(** C7.  Fetch-all asks for pages of 50 and terminates.  For a logged-in
    user and any fuel of at least 1000 iterations the run ends (and is the
    same run whatever the fuel): it makes between 1 and 1000 calls, each
    for 50 items, at offsets 0, 50, 100, ...; the answers [rs] are those
    that the client gives to these calls, one after the other from the
    world left by the authentication, and the run ends in the world that
    the last call leaves; every answer but the last is a full page, so the
    loop stops at the first answer that is not one; when fewer than 1000
    calls were made the last answer is not a full page; and unless the
    last call raised, the tracks gathered from all answers are returned
    with no error, which covers the case where the cap of 1000 pages is
    hit. *)
Theorem get_all_saved_tracks_stops {World : Type}
    (sp : FavoritesManager.Spotify World) (fuel : nat) (w : World) :
  (1000 <= fuel)%nat ->
  FavoritesManager.authenticated sp w = true ->
  FavoritesManager.get_all_saved_tracks sp fuel w
  = FavoritesManager.get_all_saved_tracks sp 1000 w
  /\ exists rs w',
      FavoritesManager.get_all_saved_tracks sp fuel w
      = (Some
           match last rs with
           | Some (Py.Raise e) =>
               ([], Some ("Erro ao obter todos os favoritos: " +:+ e))
           | _ => (flat_map FavoritesManager.tracks_of rs, None)
           end,
         w',
         FavoritesManager.Called_get_all_saved_tracks
           :: FavoritesManager.page_calls 50 0 rs)
      /\ (1 <= length rs <= 1000)%nat
      /\ (forall k r, rs !! k = Some r -> (S k < length rs)%nat ->
                      FavoritesManager.full_page 50 r = true)
      /\ ((length rs < 1000)%nat ->
          forall r, last rs = Some r ->
                    FavoritesManager.full_page 50 r = false)
      /\ FavoritesManager.page_answers sp (length rs) 50 0
           (Run.world (FavoritesManager._validate_authentication sp w))
         = (rs, w').
Proof.
  intros Hfuel Hauth.
  destruct (authenticated_inv sp w Hauth) as [w0 Hv].
  rewrite !(get_all_saved_tracks_auth sp _ w w0 Hv).
  split.
  { rewrite (get_all_loop_fuel sp fuel 1000 0 1 [] w0); [reflexivity|lia..]. }
  destruct (get_all_loop_spec sp fuel 0 1 [] w0)
    as (rs & w' & Hrun & Hlen1 & Hlen2 & Hfull & Hlast & Hans);
    [lia | lia |].
  exists rs, w'. rewrite Hrun.
  split.
  { unfold FavoritesManager.loop_result.
    destruct (last rs) as [[x|e]|]; reflexivity. }
  split; [lia|]. split; [exact Hfull|]. split.
  - intros Hlt. apply Hlast. lia.
  - rewrite Hv. exact Hans.
Qed.

(** A run that ends at a short page: two full pages, then 7 items. *)
Lemma get_all_saved_tracks_stops_witness :
  let w := Replay.logged_in
             [Py.Ok (Some (Replay.page_of 50 None));
              Py.Ok (Some (Replay.page_of 50 None));
              Py.Ok (Some (Replay.page_of 7 None));
              Py.Ok (Some (Replay.page_of 50 None))] [] in
  FavoritesManager.get_all_saved_tracks Replay.client 1000 w
  = FavoritesManager.get_all_saved_tracks Replay.client 1000 w
  /\ exists rs w',
      FavoritesManager.get_all_saved_tracks Replay.client 1000 w
      = (Some
           match last rs with
           | Some (Py.Raise e) =>
               ([], Some ("Erro ao obter todos os favoritos: " +:+ e))
           | _ => (flat_map FavoritesManager.tracks_of rs, None)
           end,
         w',
         FavoritesManager.Called_get_all_saved_tracks
           :: FavoritesManager.page_calls 50 0 rs)
      /\ (1 <= length rs <= 1000)%nat
      /\ (forall k r, rs !! k = Some r -> (S k < length rs)%nat ->
                      FavoritesManager.full_page 50 r = true)
      /\ ((length rs < 1000)%nat ->
          forall r, last rs = Some r ->
                    FavoritesManager.full_page 50 r = false)
      /\ FavoritesManager.page_answers Replay.client (length rs) 50 0
           (Run.world
              (FavoritesManager._validate_authentication Replay.client w))
         = (rs, w').
Proof.
  intros w.
  apply (get_all_saved_tracks_stops Replay.client 1000 w);
    [lia | reflexivity].
Defined.

(** The same run, evaluated: three calls, 107 tracks, no error. *)
Example get_all_saved_tracks_short_page :
  let run := FavoritesManager.get_all_saved_tracks Replay.client 1000
               (Replay.logged_in
                  [Py.Ok (Some (Replay.page_of 50 None));
                   Py.Ok (Some (Replay.page_of 50 None));
                   Py.Ok (Some (Replay.page_of 7 None));
                   Py.Ok (Some (Replay.page_of 50 None))] []) in
  option_map (fun r => (Py.len (fst r), snd r)) (Run.value run)
  = Some (107%Z, None)
  /\ map (fun e => match e with
                   | FavoritesManager.Api_saved_tracks l o _ => Some (l, o)
                   | _ => None
                   end) (Run.trace run)
     = [None; Some (50, 0); Some (50, 50); Some (50, 100)]%Z.
Proof. vm_compute. split; reflexivity. Qed.

(** A client that never runs out of full pages: the loop stops after 1000
    calls and returns the 50000 tracks gathered, with no error. *)
Example get_all_saved_tracks_cap :
  let run := FavoritesManager.get_all_saved_tracks Replay.client 1000
               (Replay.logged_in
                  (repeat (Py.Ok (Some (Replay.page_of 50 None))) 1200) []) in
  option_map (fun r => (Py.len (fst r), snd r)) (Run.value run)
  = Some (50000%Z, None)
  /\ Py.len (Run.trace run) = 1001%Z
  /\ last (Run.trace run)
     = Some (FavoritesManager.Api_saved_tracks 50 49950
               (Py.Ok (Some (Replay.page_of 50 None)))).
Proof. vm_compute. repeat split; reflexivity. Qed.

(** ** Slices and chunks *)

Section SliceFacts.
Import Py.
Context {A : Type}.
Local Open Scope Z_scope.

Lemma slice_nonneg (l : list A) (start stop : Z) :
  0 <= start <= stop ->
  slice l start stop
  = take (Z.to_nat (stop - start)) (drop (Z.to_nat start) l).
Proof.
  intros H. unfold slice, slice_bound, len.
  destruct (Z.ltb_spec start 0) as [?|_]; [lia|].
  destruct (Z.ltb_spec stop 0) as [?|_]; [lia|].
  set (n := Z.of_nat (length l)).
  destruct (Z.le_gt_cases n start) as [Hge|Hlt].
  - rewrite (drop_ge l (Z.to_nat start)) by lia.
    rewrite skipn_all2 by lia. now rewrite !take_nil.
  - replace (Z.min start n) with start by lia.
    destruct (Z.le_gt_cases stop n) as [Hs|Hs].
    + now replace (Z.min stop n) with stop by lia.
    + replace (Z.min stop n) with n by lia.
      rewrite !take_ge; [reflexivity | |];
        rewrite length_drop; subst n; lia.
Qed.

Lemma range_from_chunks (l : list A) (step : Z) :
  0 < step ->
  forall (count : nat) (i : Z),
    0 <= i -> len l - i <= Z.of_nat count ->
    concat (map (fun i => slice l i (i + step))
              (range_from count i (len l) step))
    = drop (Z.to_nat i) l.
Proof.
  intros Hstep. induction count as [|count IH]; intros i Hi Hc.
  - simpl. rewrite drop_ge; [reflexivity | unfold len in Hc; lia].
  - cbn [range_from]. destruct (Z.ltb_spec i (len l)) as [Hlt|Hge].
    + cbn [map concat]. rewrite IH by lia.
      rewrite slice_nonneg by lia.
      replace (Z.to_nat (i + step))
        with (Z.to_nat i + Z.to_nat (i + step - i))%nat by lia.
      rewrite <- drop_drop. apply take_drop.
    + simpl. rewrite drop_ge; [reflexivity | unfold len in Hge; lia].
Qed.

Lemma range_from_bounds (stop step : Z) :
  0 < step ->
  forall (count : nat) (i : Z),
    0 <= i ->
    Forall (fun j => 0 <= j < stop) (range_from count i stop step).
Proof.
  intros Hstep. induction count as [|count IH]; intros i Hi; simpl.
  - constructor.
  - destruct (Z.ltb_spec i stop); constructor; [lia | apply IH; lia].
Qed.

End SliceFacts.

Section ChunkFacts.
Import Py FavoritesManager.
Local Open Scope Z_scope.

(** The chunks are consecutive pieces of the list of ids. *)
Lemma id_chunks_concat (track_ids : list string) :
  concat (id_chunks track_ids) = track_ids.
Proof.
  unfold id_chunks, range0, MAX_IDS_CHECK.
  rewrite (range_from_chunks track_ids 50); [reflexivity | lia | lia |].
  unfold len. lia.
Qed.

(** Each chunk holds between 1 and 50 ids. *)
Lemma id_chunks_size (track_ids : list string) :
  Forall (fun chunk => (1 <= length chunk <= 50)%nat) (id_chunks track_ids).
Proof.
  unfold id_chunks, range0, MAX_IDS_CHECK. apply Forall_map.
  eapply Forall_impl;
    [apply (range_from_bounds (len track_ids) 50); lia|].
  intros i Hi. simpl in Hi. rewrite slice_nonneg by lia.
  rewrite length_take, length_drop. unfold len in Hi. lia.
Qed.

End ChunkFacts.

Section CheckSaved.
Import Py Models Run FavoritesManager.
Context {World : Type} (sp : Spotify World).
Local Open Scope Z_scope.

Lemma check_loop_spec (track_ids : list string) :
  forall (starts : list Z) (acc : list bool) (w : World),
    let chunks :=
      map (fun i => slice track_ids i (i + MAX_IDS_CHECK)) starts in
    exists rs w',
      check_loop sp starts track_ids acc w
      = (check_result acc chunks rs, w',
         zip_with Api_saved_tracks_contains chunks rs)
      /\ (length rs <= length chunks)%nat
      /\ (forall k r, rs !! k = Some r -> (S k < length rs)%nat ->
                      raised r = false)
      /\ (match last rs with
          | Some (Raise _) => True
          | _ => length rs = length chunks
          end)
      /\ chunk_answers sp (take (length rs) chunks) w = (rs, w').
Proof.
  induction starts as [|i starts IH]; intros acc w chunks.
  { exists [], w. subst chunks. unfold check_result. simpl.
    rewrite app_nil_r.
    repeat split; [lia | intros k r Hk; discriminate]. }
  subst chunks. cbn [check_loop map]. unfold bind, call.
  set (chunk := slice track_ids i (i + MAX_IDS_CHECK)).
  destruct (current_user_saved_tracks_contains sp chunk w) as [res w1]
    eqn:Hcall.
  destruct res as [res|e].
  - set (acc' := acc ++ contribution chunk (Ok res)).
    destruct (IH acc' w1) as (rs & w' & Hrun & Hlen & Hok & Hall & Hans).
    assert (Hstep : (match res with
                     | Some bs => check_loop sp starts track_ids (acc ++ bs)
                     | None => check_loop sp starts track_ids
                                 (acc ++ repeat_list false (len chunk))
                     end) w1 = check_loop sp starts track_ids acc' w1)
      by (subst acc'; destruct res; reflexivity).
    rewrite Hstep, Hrun. exists (Ok res :: rs), w'.
    split.
    { unfold check_result. destruct rs as [|r0 rs0].
      - subst acc'. cbn [zip_with last]. rewrite !zip_with_nil_r.
        simpl. now rewrite !app_nil_r.
      - change (last (_ :: r0 :: rs0)) with (last (r0 :: rs0)).
        destruct (last (r0 :: rs0)) as [[x|e]|]; try reflexivity;
          subst acc'; cbn [zip_with concat]; now rewrite <- app_assoc. }
    split; [simpl; lia|]. split; [|split].
    + intros [|k] r Hk Hlt; simpl in Hk.
      * now inversion Hk.
      * apply (Hok k r Hk). simpl in Hlt. lia.
    + destruct rs as [|r0 rs0]; [simpl in *; lia|].
      change (last (_ :: r0 :: rs0)) with (last (r0 :: rs0)).
      destruct (last (r0 :: rs0)) as [[x|e]|]; simpl in *; lia || exact I.
    + cbn [length take chunk_answers]. fold chunk.
      rewrite Hcall, Hans. reflexivity.
  - exists [Raise e], w1. unfold check_result, ret.
    split; [simpl; now rewrite zip_with_nil_r|].
    split; [simpl; lia|].
    split; [intros k r Hk Hlt; simpl in Hlt; lia|].
    split; [exact I|].
    cbn [length take chunk_answers]. fold chunk.
    rewrite take_0. cbn [chunk_answers]. now rewrite Hcall.
Qed.

End CheckSaved.

(** C8, as the code has it.  [check_saved_tracks] drops the blank ids and
    strips the others, then cuts the remaining ids into consecutive chunks
    of 1 to 50 ids and calls the client once per chunk, in order.  While no
    call raises, every chunk is sent and the result is the concatenation,
    in input order, of what each chunk contributes: the answer itself, or
    one [False] per id of the chunk when the answer is [None] or not a
    list.  A call that raises ends the loop: no later chunk is sent and the
    method returns the empty list with an error message.  The answers
    [rs] are those that the client gives to the chunks sent, one after the
    other from the world left by the authentication, and the run ends in
    the world that the last call leaves. *)
Theorem check_saved_tracks_chunks {World : Type}
    (sp : FavoritesManager.Spotify World) (strip : string -> string)
    (track_ids : list string) (w : World) :
  FavoritesManager.clean_ids strip track_ids <> [] ->
  FavoritesManager.authenticated sp w = true ->
  let cleaned := FavoritesManager.clean_ids strip track_ids in
  let chunks := FavoritesManager.id_chunks cleaned in
  concat chunks = cleaned
  /\ Forall (fun chunk => (1 <= length chunk <= 50)%nat) chunks
  /\ exists rs w',
      FavoritesManager.check_saved_tracks sp strip track_ids w
      = (match last rs with
         | Some (Py.Raise e) =>
             ([], Some ("Erro ao verificar favoritos: " +:+ e))
         | _ => (concat (zip_with FavoritesManager.contribution chunks rs),
                 None)
         end,
         w',
         FavoritesManager.Called_check_saved_tracks track_ids
           :: zip_with FavoritesManager.Api_saved_tracks_contains chunks rs)
      /\ (length rs <= length chunks)%nat
      /\ (forall k r, rs !! k = Some r -> (S k < length rs)%nat ->
                      FavoritesManager.raised r = false)
      /\ (match last rs with
          | Some (Py.Raise _) => True
          | _ => length rs = length chunks
          end)
      /\ FavoritesManager.chunk_answers sp (take (length rs) chunks)
           (Run.world (FavoritesManager._validate_authentication sp w))
         = (rs, w').
Proof.
  intros Hclean Hauth cleaned chunks.
  split; [apply id_chunks_concat|]. split; [apply id_chunks_size|].
  destruct (authenticated_inv sp w Hauth) as [w0 Hv].
  destruct (check_loop_spec sp cleaned
              (Py.range0 (Py.len cleaned) FavoritesManager.MAX_IDS_CHECK)
              [] w0) as (rs & w' & Hrun & Hlen & Hok & Hall & Hans).
  exists rs, w'.
  split; [|split; [exact Hlen|split; [exact Hok|split; [exact Hall|]]]].
  2: { rewrite Hv. exact Hans. }
  unfold FavoritesManager.check_saved_tracks.
  destruct track_ids as [|tid track_ids]; [now destruct Hclean|].
  fold cleaned. destruct cleaned as [|c cleaned'] eqn:Ec;
    [now destruct Hclean|].
  unfold Run.bind at 1. unfold Run.emit.
  unfold Run.bind at 1. rewrite Hv. cbn [Py.str_truthy negb orb].
  unfold Run.bind. rewrite Hrun.
  unfold FavoritesManager.check_result, Run.ret.
  fold (FavoritesManager.id_chunks (c :: cleaned')). fold chunks.
  destruct (last rs) as [[x|e]|]; simpl; now rewrite ?app_nil_r.
Qed.

(** 120 ids, the call for the second chunk answering [None]. *)
Lemma check_saved_tracks_chunks_witness :
  let w := Replay.logged_in []
             [Py.Ok (Some (repeat true 50)); Py.Ok None;
              Py.Ok (Some (repeat true 20))] in
  let track_ids := Replay.ids 120 in
  let cleaned := FavoritesManager.clean_ids Py.strip_ascii track_ids in
  let chunks := FavoritesManager.id_chunks cleaned in
  concat chunks = cleaned
  /\ Forall (fun chunk => (1 <= length chunk <= 50)%nat) chunks
  /\ exists rs w',
      FavoritesManager.check_saved_tracks Replay.client Py.strip_ascii
        track_ids w
      = (match last rs with
         | Some (Py.Raise e) =>
             ([], Some ("Erro ao verificar favoritos: " +:+ e))
         | _ => (concat (zip_with FavoritesManager.contribution chunks rs),
                 None)
         end,
         w',
         FavoritesManager.Called_check_saved_tracks track_ids
           :: zip_with FavoritesManager.Api_saved_tracks_contains chunks rs)
      /\ (length rs <= length chunks)%nat
      /\ (forall k r, rs !! k = Some r -> (S k < length rs)%nat ->
                      FavoritesManager.raised r = false)
      /\ (match last rs with
          | Some (Py.Raise _) => True
          | _ => length rs = length chunks
          end)
      /\ FavoritesManager.chunk_answers Replay.client
           (take (length rs) chunks)
           (Run.world
              (FavoritesManager._validate_authentication Replay.client w))
         = (rs, w').
Proof.
  intros w track_ids.
  apply (check_saved_tracks_chunks Replay.client Py.strip_ascii track_ids w).
  - vm_compute. discriminate.
  - reflexivity.
Defined.

(** The same run, evaluated: three calls, for 50, 50 and 20 ids, and the
    120 booleans in order, the second chunk degraded to [False]. *)
Example check_saved_tracks_none_chunk :
  let w := Replay.logged_in []
             [Py.Ok (Some (repeat true 50)); Py.Ok None;
              Py.Ok (Some (repeat true 20))] in
  let run := FavoritesManager.check_saved_tracks Replay.client
               Py.strip_ascii (Replay.ids 120) w in
  Run.value run
  = (repeat true 50 ++ repeat false 50 ++ repeat true 20, None)
  /\ map (fun e => match e with
                   | FavoritesManager.Api_saved_tracks_contains chunk _ =>
                       Some (length chunk)
                   | _ => None
                   end) (Run.trace run)
     = [None; Some 50%nat; Some 50%nat; Some 20%nat].
Proof. vm_compute. split; reflexivity. Qed.

(** C8, counterexample.  120 ids, the call for the second chunk raising:
    the claim promises the answers of the first and third chunks with
    [False] for the second; the method returns the empty list and an error,
    and never sends the third chunk. *)
Lemma check_saved_tracks_raise_aborts :
  let w := Replay.logged_in []
             [Py.Ok (Some (repeat true 50)); Py.Raise "timeout";
              Py.Ok (Some (repeat true 20))] in
  let run := FavoritesManager.check_saved_tracks Replay.client
               Py.strip_ascii (Replay.ids 120) w in
  Run.value run <> (repeat true 50 ++ repeat false 50 ++ repeat true 20, None)
  /\ Run.value run = ([], Some "Erro ao verificar favoritos: timeout")
  /\ map (fun e => match e with
                   | FavoritesManager.Api_saved_tracks_contains chunk _ =>
                       Some (length chunk)
                   | _ => None
                   end) (Run.trace run)
     = [None; Some 50%nat; Some 50%nat].
Proof. vm_compute. split; [discriminate | split; reflexivity]. Qed.

(** ** The methods a run enters *)

Section AdapterCalls.
Import Py Models Run FavoritesManager.
Context {World : Type} (sp : Spotify World).
Local Open Scope Z_scope.

Lemma adapter_calls_app (t1 t2 : list event) :
  adapter_calls (t1 ++ t2) = adapter_calls t1 ++ adapter_calls t2.
Proof. apply List.filter_app. Qed.

Lemma adapter_calls_cons_called (e : event) (t : list event) :
  is_adapter_call e = true -> adapter_calls t = [] ->
  adapter_calls (e :: t) = [e].
Proof. intros He Ht. unfold adapter_calls in *. simpl. now rewrite He, Ht. Qed.

Lemma get_all_loop_calls :
  forall (fuel : nat) (limit offset page : Z) (acc : list Track) (w : World),
    adapter_calls (trace (get_all_loop sp fuel limit offset page acc w)) = [].
Proof.
  induction fuel as [|fuel IH]; intros limit offset page acc w;
    [reflexivity|].
  cbn [get_all_loop]. unfold bind, call.
  destruct (current_user_saved_tracks sp limit offset w) as [r w1].
  destruct r as [[[items total]|]|e]; try reflexivity.
  destruct items as [| |[|it items]]; cbn [resp_items]; try reflexivity.
  destruct (len (it :: items) <? limit); [reflexivity|].
  destruct (page + 1 >? 1000); [reflexivity|].
  specialize (IH limit (offset + limit) (page + 1)
                (acc ++ _parse_tracks_from_response (it :: items)) w1).
  destruct (get_all_loop sp fuel limit (offset + limit) (page + 1) _ w1)
    as [[r w2] t2].
  exact IH.
Qed.

(** Unfolds a method up to the outcome of the authentication. *)
Ltac enter_method w :=
  unfold bind at 1; unfold emit at 1; unfold bind at 1;
  let Ht := fresh "Ht" in
  pose proof (validate_trace sp w) as Ht;
  let ok := fresh "ok" in
  let error := fresh "error" in
  let w1 := fresh "w" in
  let t1 := fresh "t" in
  destruct (_validate_authentication sp w) as [[[ok error] w1] t1];
  cbn [trace snd] in Ht; subst t1;
  destruct (str_truthy error || negb ok); [reflexivity|].

Lemma get_all_saved_tracks_calls (fuel : nat) (w : World) :
  adapter_calls (trace (get_all_saved_tracks sp fuel w))
  = [Called_get_all_saved_tracks].
Proof.
  unfold get_all_saved_tracks. enter_method w. unfold bind.
  pose proof (get_all_loop_calls fuel MAX_TRACKS_PER_REQUEST 0 1 [] w0) as Hl.
  destruct (get_all_loop sp fuel MAX_TRACKS_PER_REQUEST 0 1 [] w0)
    as [[r w2] t2].
  cbn [trace snd] in Hl.
  destruct r as [[tr|e]|]; cbn [ret trace snd app];
    rewrite ?app_nil_r; now apply adapter_calls_cons_called.
Qed.

Lemma get_saved_tracks_calls (limit offset : Z) (w : World) :
  adapter_calls (trace (get_saved_tracks sp limit offset w))
  = [Called_get_saved_tracks limit offset].
Proof.
  unfold get_saved_tracks. enter_method w. unfold bind, call.
  destruct (current_user_saved_tracks sp _ _ w0) as [[[r|]|e] w2];
    reflexivity.
Qed.

Lemma get_total_saved_tracks_calls (w : World) :
  adapter_calls (trace (get_total_saved_tracks sp w))
  = [Called_get_total_saved_tracks].
Proof.
  unfold get_total_saved_tracks. enter_method w. unfold bind, call.
  destruct (current_user_saved_tracks sp _ _ w0)
    as [[[[items [total|]]|]|e] w2]; reflexivity.
Qed.

End AdapterCalls.

(** ** The routes *)

Section RouteFacts.
Import Py Models Run FavoritesManager App.
Context {World : Type} (sp : Spotify World) (casefold : string -> string).
Local Open Scope Z_scope.

Lemma fetch_all_spec (limit : Z) (sort : string) :
  fetch_all limit sort = true <-> (limit > 1000 \/ sort <> "default").
Proof.
  unfold fetch_all. rewrite orb_true_iff, negb_true_iff.
  rewrite Z.gtb_gt, String.eqb_neq. reflexivity.
Qed.

Lemma favoritos_calls (fuel : nat) (page limit : Z) (sort : string)
    (w : World) :
  let l := Z.min (Z.max 20 limit) 100 in
  let o := (Z.max 1 page - 1) * l in
  adapter_calls (trace (favoritos sp casefold fuel page limit sort w))
  = if fetch_all limit sort then [Called_get_all_saved_tracks]
    else [Called_get_saved_tracks l o; Called_get_total_saved_tracks].
Proof.
  intros l o. unfold favoritos. destruct (fetch_all limit sort).
  - rewrite bind_run. cbn [trace snd].
    rewrite adapter_calls_app.
    fold (trace (get_all_saved_tracks sp fuel w)).
    rewrite get_all_saved_tracks_calls.
    destruct (value (get_all_saved_tracks sp fuel w)) as [[tracks error]|];
      [|reflexivity].
    destruct (str_truthy error); [reflexivity|].
    destruct (limit >? 1000); reflexivity.
  - fold l o. rewrite bind_run. cbn [trace snd].
    rewrite adapter_calls_app.
    fold (trace (get_saved_tracks sp l o w)).
    rewrite get_saved_tracks_calls.
    destruct (value (get_saved_tracks sp l o w)) as [tracks error].
    rewrite bind_run. cbn [trace snd]. rewrite adapter_calls_app.
    fold (trace (get_total_saved_tracks sp (world (get_saved_tracks sp l o w)))).
    rewrite get_total_saved_tracks_calls.
    destruct (value (get_total_saved_tracks sp _)) as [total total_error].
    destruct (str_truthy error); reflexivity.
Qed.

Lemma api_favoritos_calls (fuel : nat) (page limit : Z) (sort : string)
    (w : World) :
  let l := Z.min (Z.max 20 limit) 100 in
  let o := (Z.max 1 page - 1) * l in
  adapter_calls (trace (api_favoritos sp casefold fuel page limit sort w))
  = if fetch_all limit sort then [Called_get_all_saved_tracks]
    else Called_get_saved_tracks l o
         :: if str_truthy (snd (value (get_saved_tracks sp l o w)))
            then [] else [Called_get_total_saved_tracks].
Proof.
  intros l o. unfold api_favoritos. fold (fetch_all limit sort).
  destruct (fetch_all limit sort).
  - rewrite bind_run. cbn [trace snd].
    rewrite adapter_calls_app.
    fold (trace (get_all_saved_tracks sp fuel w)).
    rewrite get_all_saved_tracks_calls.
    destruct (value (get_all_saved_tracks sp fuel w)) as [[tracks error]|];
      [|reflexivity].
    destruct (str_truthy error); [reflexivity|].
    destruct (limit >? 1000); reflexivity.
  - fold l o. rewrite bind_run. cbn [trace snd].
    rewrite adapter_calls_app.
    fold (trace (get_saved_tracks sp l o w)).
    rewrite get_saved_tracks_calls.
    destruct (value (get_saved_tracks sp l o w)) as [tracks error].
    cbn [snd].
    destruct (str_truthy error); [reflexivity|].
    rewrite bind_run. cbn [trace snd]. rewrite adapter_calls_app.
    fold (trace (get_total_saved_tracks sp (world (get_saved_tracks sp l o w)))).
    rewrite get_total_saved_tracks_calls.
    destruct (value (get_total_saved_tracks sp _)) as [total total_error].
    reflexivity.
Qed.

End RouteFacts.

(** ** The order of strings *)

Section StringOrder.
Import Py.

Lemma ascii_compare_refl (a : ascii) : Ascii.compare a a = Eq.
Proof. unfold Ascii.compare. apply N.compare_refl. Qed.

Lemma ascii_compare_lt_trans (a b c : ascii) :
  Ascii.compare a b = Lt -> Ascii.compare b c = Lt -> Ascii.compare a c = Lt.
Proof.
  unfold Ascii.compare. rewrite !N.compare_lt_iff. apply N.lt_trans.
Qed.

Lemma string_compare_refl (s : string) : String.compare s s = Eq.
Proof.
  induction s as [|a s IH]; [reflexivity|].
  simpl. now rewrite ascii_compare_refl.
Qed.

Lemma string_compare_lt_trans :
  forall s1 s2 s3 : string,
    String.compare s1 s2 = Lt -> String.compare s2 s3 = Lt ->
    String.compare s1 s3 = Lt.
Proof.
  induction s1 as [|a s1 IH]; intros [|b s2] [|c s3]; simpl;
    try discriminate; try reflexivity.
  destruct (Ascii.compare a b) eqn:Eab; try discriminate;
    destruct (Ascii.compare b c) eqn:Ebc; try discriminate; intros H1 H2.
  - apply Ascii.compare_eq_iff in Eab, Ebc. subst.
    rewrite ascii_compare_refl. eauto.
  - apply Ascii.compare_eq_iff in Eab. subst. now rewrite Ebc.
  - apply Ascii.compare_eq_iff in Ebc. subst. now rewrite Eab.
  - now rewrite (ascii_compare_lt_trans a b c).
Qed.

Lemma str_lt_irrefl (a : string) : str_lt a a = false.
Proof. unfold str_lt, String.ltb. now rewrite string_compare_refl. Qed.

Lemma str_lt_asym (a b : string) : str_lt a b = true -> str_lt b a = false.
Proof.
  unfold str_lt, String.ltb. rewrite (String.compare_antisym b a).
  destruct (String.compare a b); simpl; congruence.
Qed.

Lemma str_lt_trans (a b c : string) :
  str_lt a b = true -> str_lt b c = true -> str_lt a c = true.
Proof.
  unfold str_lt, String.ltb.
  destruct (String.compare a b) eqn:Eab; try discriminate.
  destruct (String.compare b c) eqn:Ebc; try discriminate.
  now rewrite (string_compare_lt_trans a b c).
Qed.

(** Two strings are equal or one is below the other. *)
Lemma str_lt_total (a b : string) :
  str_lt a b = false -> str_lt b a = false -> a = b.
Proof.
  unfold str_lt, String.ltb. rewrite (String.compare_antisym b a).
  destruct (String.compare a b) eqn:E; simpl; try discriminate.
  intros _ _. now apply String.compare_eq_iff.
Qed.

(** [a <= b], as [not (b < a)], is transitive. *)
Lemma str_le_trans (a b c : string) :
  str_lt b a = false -> str_lt c b = false -> str_lt c a = false.
Proof.
  intros Hab Hbc. destruct (str_lt c a) eqn:Hca; [|reflexivity].
  destruct (str_lt a b) eqn:Hab'.
  - rewrite (str_lt_trans c a b Hca Hab') in Hbc. discriminate.
  - rewrite <- (str_lt_total a b Hab' Hab) in Hbc. congruence.
Qed.

End StringOrder.

(** ** The stable sort *)

Section SortFacts.
Import Py.
Context {A K : Type} `{EqDecision K} (lt : K -> K -> bool) (key : A -> K).
Context (lt_irrefl : forall a, lt a a = false).
Context (lt_asym : forall a b, lt a b = true -> lt b a = false).
Context (le_trans :
  forall a b c, lt b a = false -> lt c b = false -> lt c a = false).

Lemma sort_insert_perm (reverse : bool) (x : A) (l : list A) :
  sort_insert lt key reverse x l ≡ₚ x :: l.
Proof.
  induction l as [|y l IH]; simpl; [reflexivity|].
  destruct (comes_first lt reverse (key y) (key x)); [|reflexivity].
  rewrite IH. apply Permutation_swap.
Qed.

Lemma sort_perm (reverse : bool) (l : list A) :
  sort lt key reverse l ≡ₚ l.
Proof.
  induction l as [|x l IH]; simpl; [reflexivity|].
  fold (sort lt key reverse l). rewrite sort_insert_perm. now rewrite IH.
Qed.

Lemma sort_length (reverse : bool) (l : list A) :
  length (sort lt key reverse l) = length l.
Proof. apply Permutation_length, sort_perm. Qed.

Lemma comes_first_asym (reverse : bool) (a b : K) :
  comes_first lt reverse a b = true -> comes_first lt reverse b a = false.
Proof. destruct reverse; simpl; apply lt_asym. Qed.

Lemma comes_first_irrefl (reverse : bool) (a : K) :
  comes_first lt reverse a a = false.
Proof. destruct reverse; simpl; apply lt_irrefl. Qed.

Lemma in_order_trans (reverse : bool) :
  Transitive (in_order lt key reverse).
Proof.
  intros a b c. unfold in_order. destruct reverse; simpl; intros Hab Hbc.
  - exact (le_trans _ _ _ Hbc Hab).
  - exact (le_trans _ _ _ Hab Hbc).
Qed.

Lemma sort_insert_sorted (reverse : bool) (x : A) (l : list A) :
  Sorted (in_order lt key reverse) l ->
  Sorted (in_order lt key reverse) (sort_insert lt key reverse x l).
Proof.
  induction l as [|y l IH]; intros Hs; simpl.
  - repeat constructor.
  - destruct (comes_first lt reverse (key y) (key x)) eqn:E.
    + inversion Hs as [|? ? Hs' Hhd]; subst.
      constructor; [now apply IH|].
      destruct l as [|z l]; simpl.
      * constructor. now apply comes_first_asym.
      * destruct (comes_first lt reverse (key z) (key x));
          constructor; [now inversion Hhd | now apply comes_first_asym].
    + constructor; [exact Hs | constructor; exact E].
Qed.

Lemma sort_sorted (reverse : bool) (l : list A) :
  StronglySorted (in_order lt key reverse) (sort lt key reverse l).
Proof.
  apply Sorted_StronglySorted; [apply in_order_trans|].
  induction l as [|x l IH]; simpl; [constructor|].
  now apply sort_insert_sorted.
Qed.

(** Stability: the elements with a given key keep their order. *)
Lemma sort_insert_stable (reverse : bool) (k : K) (x : A) (l : list A) :
  filter (fun y => key y = k) (sort_insert lt key reverse x l)
  = filter (fun y => key y = k) (x :: l).
Proof.
  induction l as [|y l IH]; simpl; [reflexivity|].
  destruct (comes_first lt reverse (key y) (key x)) eqn:E; [|reflexivity].
  rewrite filter_cons, IH, !filter_cons.
  destruct (decide (key y = k)) as [Hy|Hy];
    destruct (decide (key x = k)) as [Hx|Hx]; try reflexivity.
  rewrite Hx, Hy, comes_first_irrefl in E. discriminate.
Qed.

Lemma sort_stable (reverse : bool) (k : K) (l : list A) :
  filter (fun y => key y = k) (sort lt key reverse l)
  = filter (fun y => key y = k) l.
Proof.
  induction l as [|x l IH]; simpl; [reflexivity|].
  fold (sort lt key reverse l).
  rewrite sort_insert_stable, !filter_cons, IH. reflexivity.
Qed.

End SortFacts.

Lemma strongly_sorted_weaken {A : Type} (R1 R2 : A -> A -> Prop)
    (l : list A) :
  (forall a b, R1 a b -> R2 a b) ->
  StronglySorted R1 l -> StronglySorted R2 l.
Proof.
  intros HR. induction 1 as [|x l Hs IH Hall]; constructor; [exact IH|].
  eapply Forall_impl; [exact Hall | intros b; apply HR].
Qed.

Section SortTracks.
Import Py Models App.
Context (casefold : string -> string).

Lemma sort_by_field (field : Track -> option string) (reverse : bool)
    (tracks : list Track) :
  stably_sorted_by casefold field reverse tracks
    (Py.sort str_lt (fun t => casefold (str_or (field t) "")) reverse tracks).
Proof.
  unfold stably_sorted_by. split; [apply sort_perm|]. split.
  - eapply strongly_sorted_weaken;
      [|apply (sort_sorted str_lt _ str_lt_asym str_le_trans)].
    intros a b. unfold in_order, comes_first. now destruct reverse.
  - intros k. apply (sort_stable str_lt _ str_lt_irrefl).
Qed.

Lemma sort_tracks_perm (sort : string) (tracks : list Track) :
  sort_tracks casefold sort tracks ≡ₚ tracks.
Proof.
  unfold sort_tracks.
  repeat match goal with
         | |- context [if ?b then _ else _] => destruct b
         end; try reflexivity; apply sort_perm.
Qed.

Lemma sort_tracks_len (sort : string) (tracks : list Track) :
  len (sort_tracks casefold sort tracks) = len tracks.
Proof.
  unfold len. f_equal. apply Permutation_length, sort_tracks_perm.
Qed.

End SortTracks.

(** C4.  For each of the four sort modes the favourites sort orders the
    tracks by the case-folded named field, [None] counting as the empty
    string, and is stable; with the case folding of ASCII text, the names
    b, A, a2 sorted name-asc come out as A, a2, b. *)
Theorem favorites_sort_stable (casefold : string -> string)
    (tracks : list Models.Track) :
  App.stably_sorted_by casefold Models.name false tracks
    (App.sort_tracks casefold "name-asc" tracks)
  /\ App.stably_sorted_by casefold Models.name true tracks
       (App.sort_tracks casefold "name-desc" tracks)
  /\ App.stably_sorted_by casefold Models.artist false tracks
       (App.sort_tracks casefold "artist-asc" tracks)
  /\ App.stably_sorted_by casefold Models.artist true tracks
       (App.sort_tracks casefold "artist-desc" tracks)
  /\ map Models.name
       (App.sort_tracks Py.casefold_ascii "name-asc"
          [Replay.named "b"; Replay.named "A"; Replay.named "a2"])
     = [Some "A"; Some "a2"; Some "b"].
Proof.
  split; [exact (sort_by_field casefold Models.name false tracks)|].
  split; [exact (sort_by_field casefold Models.name true tracks)|].
  split; [exact (sort_by_field casefold Models.artist false tracks)|].
  split; [exact (sort_by_field casefold Models.artist true tracks)|].
  vm_compute. reflexivity.
Qed.



(** The three requests of the specification. *)
Example favorites_branch_examples :
  let calls page limit sort :=
    FavoritesManager.adapter_calls
      (Run.trace (App.api_favoritos Replay.client Py.casefold_ascii 1000
                    page limit sort
                    (Replay.logged_in (Replay.library_pages 37) []))) in
  calls 1%Z 20%Z "default"
  = [FavoritesManager.Called_get_saved_tracks 20 0;
     FavoritesManager.Called_get_total_saved_tracks]
  /\ calls 1%Z 5000%Z "default"
     = [FavoritesManager.Called_get_all_saved_tracks]
  /\ calls 1%Z 20%Z "name-asc"
     = [FavoritesManager.Called_get_all_saved_tracks].
Proof. vm_compute. repeat split. Qed.

Section TotalCount.
Import Py Models Run FavoritesManager App.
Context {World : Type} (sp : Spotify World).
Local Open Scope Z_scope.

Lemma str_or_truthy (x : option string) (d : string) :
  d <> "" -> str_truthy (Some (str_or x d)) = true.
Proof.
  intros Hd. unfold str_or, str_truthy.
  destruct x as [s|]; [destruct (String.eqb_spec s "") as [->|Hs]|];
    apply negb_true_iff, String.eqb_neq; assumption.
Qed.

(** An error returned by [get_total_saved_tracks] is a truthy string. *)
Lemma get_total_saved_tracks_error (w : World) (n : Z) (e : string) :
  value (get_total_saved_tracks sp w) = (n, Some e) ->
  str_truthy (Some e) = true.
Proof.
  unfold get_total_saved_tracks.
  unfold bind at 1; unfold emit at 1; unfold bind at 1.
  destruct (_validate_authentication sp w) as [[[ok error] w1] t1].
  destruct (str_truthy error || negb ok).
  - unfold ret, value. simpl. intros [= _ <-].
    now apply str_or_truthy.
  - unfold bind, call, ret, value.
    destruct (current_user_saved_tracks sp _ _ w1)
      as [[[[items [total|]]|]|e'] w2]; simpl; intros [= _ <-] || intros [=];
      reflexivity.
Qed.

End TotalCount.

(** C9.  In the paged branch, when the page fetch succeeds and the total
    count returns an error, both routes answer without error and report as
    total the number of tracks of the fetched page. *)
Theorem total_count_fallback {World : Type}
    (sp : FavoritesManager.Spotify World) (casefold : string -> string)
    (fuel : nat) (page limit : Z) (w w1 w2 : World)
    (tracks : list Models.Track) (n : Z) (e : string)
    (t1 t2 : list FavoritesManager.event) :
  let l := Z.min (Z.max 20 limit) 100 in
  let o := ((Z.max 1 page - 1) * l)%Z in
  (limit <= 1000)%Z ->
  FavoritesManager.get_saved_tracks sp l o w = ((tracks, None), w1, t1) ->
  FavoritesManager.get_total_saved_tracks sp w1 = ((n, Some e), w2, t2) ->
  App.favoritos sp casefold fuel page limit "default" w
  = (Some {| App.tpl_tracks := tracks; App.tpl_error := None;
             App.tpl_total := Py.len tracks; App.tpl_page := Z.max 1 page;
             App.tpl_limit := l; App.tpl_sort := "default" |},
     w2, t1 ++ t2)
  /\ App.api_favoritos sp casefold fuel page limit "default" w
     = (Some (App.Success
                {| App.js_tracks := map App.to_dict tracks;
                   App.js_total := Py.len tracks;
                   App.js_page := Z.max 1 page; App.js_limit := l;
                   App.js_total_pages := ((Py.len tracks + l - 1) / l)%Z |}),
        w2, t1 ++ t2).
Proof.
  intros l o Hlimit Hpage Htotal.
  assert (He : Py.str_truthy (Some e) = true).
  { apply (get_total_saved_tracks_error sp w1 n e). now rewrite Htotal. }
  assert (Hb : (limit >? 1000)%Z = false)
    by (rewrite Z.gtb_ltb; apply Z.ltb_ge; lia).
  unfold App.favoritos, App.api_favoritos, App.fetch_all.
  rewrite Hb. cbn [String.eqb Ascii.eqb Bool.eqb negb orb andb]. cbv zeta.
  fold l o. unfold Run.bind. rewrite Hpage. cbn [Py.str_truthy].
  cbv beta iota. rewrite Htotal. cbv beta iota. rewrite He.
  unfold Run.ret. now rewrite !app_nil_r.
Qed.

(** A page of 15 tracks, then an answer without ['total']. *)
Lemma total_count_fallback_witness :
  let w := Replay.logged_in
             [Py.Ok (Some (Replay.page_of 15 None));
              Py.Ok (Some (Replay.page_of 0 None))] [] in
  exists w2 t,
    App.favoritos Replay.client Py.casefold_ascii 1000 1 20 "default" w
    = (Some {| App.tpl_tracks := repeat (Replay.named "t") 15;
               App.tpl_error := None; App.tpl_total := 15;
               App.tpl_page := 1; App.tpl_limit := 20;
               App.tpl_sort := "default" |}, w2, t)
    /\ App.api_favoritos Replay.client Py.casefold_ascii 1000 1 20 "default" w
       = (Some (App.Success
                  {| App.js_tracks :=
                       map App.to_dict (repeat (Replay.named "t") 15);
                     App.js_total := 15; App.js_page := 1;
                     App.js_limit := 20; App.js_total_pages := 1 |}),
          w2, t).
Proof.
  intros w. eexists _, _.
  refine (total_count_fallback Replay.client Py.casefold_ascii 1000 1 20
            w _ _ (repeat (Replay.named "t") 15) 0
            "Resposta inválida da API" _ _ _ _ _).
  - lia.
  - vm_compute. reflexivity.
  - vm_compute. reflexivity.
Defined.

Section FetchAllBranch.
Import Py Models Run FavoritesManager App.
Context {World : Type} (sp : Spotify World) (casefold : string -> string).
Local Open Scope Z_scope.

(** Integer ceiling: [(total + limit - 1) // limit] is the least number
    of pages of [limit] tracks that hold [total] tracks. *)
Lemma total_pages_ceiling (total limit : Z) :
  0 < limit ->
  let pages := (total + limit - 1) / limit in
  (pages - 1) * limit < total <= pages * limit.
Proof.
  intros Hl pages.
  pose proof (Z.div_mod (total + limit - 1) limit) as Hd.
  pose proof (Z.mod_pos_bound (total + limit - 1) limit Hl) as Hm.
  fold pages in Hd. nia.
Qed.

End FetchAllBranch.

(** C2, as the code has it.  With [limit > 1000] and a fetch that
    succeeds, both routes return every fetched track, in the order of the
    requested sort and without slicing, as page 1, with the number of
    fetched tracks as total.  The JSON route reports that number as the
    limit and one page in all; the page route passes the limit 9999 to its
    template, and no page count. *)
Theorem fetch_all_sentinel {World : Type}
    (sp : FavoritesManager.Spotify World) (casefold : string -> string)
    (fuel : nat) (page limit : Z) (sort : string) (w w' : World)
    (tracks : list Models.Track) (t : list FavoritesManager.event) :
  (limit > 1000)%Z ->
  FavoritesManager.get_all_saved_tracks sp fuel w
  = (Some (tracks, None), w', t) ->
  let sorted := App.sort_tracks casefold sort tracks in
  sorted ≡ₚ tracks
  /\ App.api_favoritos sp casefold fuel page limit sort w
     = (Some (App.Success
                {| App.js_tracks := map App.to_dict sorted;
                   App.js_total := Py.len tracks; App.js_page := 1;
                   App.js_limit := Py.len tracks;
                   App.js_total_pages := 1 |}), w', t)
  /\ App.favoritos sp casefold fuel page limit sort w
     = (Some {| App.tpl_tracks := sorted; App.tpl_error := None;
                App.tpl_total := Py.len tracks; App.tpl_page := 1;
                App.tpl_limit := 9999; App.tpl_sort := sort |}, w', t).
Proof.
  intros Hlimit Hfetch sorted.
  assert (Hb : (limit >? 1000)%Z = true) by (apply Z.gtb_lt; lia).
  split; [apply sort_tracks_perm|].
  unfold App.api_favoritos, App.favoritos, App.fetch_all.
  rewrite Hb. cbn [orb]. unfold Run.bind. rewrite Hfetch.
  cbn [Py.str_truthy]. cbv beta iota zeta.
  fold sorted. unfold Run.ret. rewrite app_nil_r.
  subst sorted. rewrite sort_tracks_len. split; reflexivity.
Qed.

(** A library of 37 tracks and [limit=5000]. *)
Lemma fetch_all_sentinel_witness :
  let w := Replay.logged_in (Replay.library_pages 37) [] in
  let tracks := map Replay.track (seq 0 37) in
  exists w' t,
    App.api_favoritos Replay.client Py.casefold_ascii 1000 1 5000
      "default" w
    = (Some (App.Success
               {| App.js_tracks := map App.to_dict tracks;
                  App.js_total := 37; App.js_page := 1;
                  App.js_limit := 37; App.js_total_pages := 1 |}), w', t)
    /\ App.favoritos Replay.client Py.casefold_ascii 1000 1 5000
         "default" w
       = (Some {| App.tpl_tracks := tracks; App.tpl_error := None;
                  App.tpl_total := 37; App.tpl_page := 1;
                  App.tpl_limit := 9999; App.tpl_sort := "default" |},
          w', t).
Proof.
  intros w tracks. eexists _, _.
  refine (proj2 (fetch_all_sentinel Replay.client Py.casefold_ascii 1000 1
                   5000 "default" w _ tracks _ _ _)).
  - lia.
  - vm_compute. reflexivity.
Defined.

(** C2, counterexample.  For the same request the page route reports the
    limit 9999, not the 37 tracks of the library. *)
Lemma favoritos_sentinel_limit :
  let run := App.favoritos Replay.client Py.casefold_ascii 1000 1 5000
               "default" (Replay.logged_in (Replay.library_pages 37) []) in
  option_map App.tpl_total (Run.value run) = Some 37%Z
  /\ option_map App.tpl_limit (Run.value run) = Some 9999%Z
  /\ option_map App.tpl_limit (Run.value run)
     <> option_map App.tpl_total (Run.value run).
Proof. vm_compute. repeat split; discriminate. Qed.

(** C3.  With a sort other than ['default'], [limit <= 1000] and a fetch
    that succeeds, the JSON route clamps the limit to [20..100], returns
    the slice [(page-1)*limit : (page-1)*limit+limit] of the sorted
    sequence, which is the [limit] tracks that follow the first
    [(page-1)*limit], and reports [(total + limit - 1) // limit] pages, the
    integer ceiling of [total / limit]; [page] is the requested page,
    raised to 1 when below it. *)
Theorem sorted_page_slice {World : Type}
    (sp : FavoritesManager.Spotify World) (casefold : string -> string)
    (fuel : nat) (page limit : Z) (sort : string) (w w' : World)
    (tracks : list Models.Track) (t : list FavoritesManager.event) :
  sort <> "default" -> (limit <= 1000)%Z ->
  FavoritesManager.get_all_saved_tracks sp fuel w
  = (Some (tracks, None), w', t) ->
  let l := Z.min (Z.max 20 limit) 100 in
  let p := Z.max 1 page in
  let start := ((p - 1) * l)%Z in
  let sorted := App.sort_tracks casefold sort tracks in
  let total := Py.len tracks in
  let pages := ((total + l - 1) / l)%Z in
  (20 <= l <= 100)%Z
  /\ ((1 <= page)%Z -> p = page)
  /\ sorted ≡ₚ tracks
  /\ App.api_favoritos sp casefold fuel page limit sort w
     = (Some (App.Success
                {| App.js_tracks :=
                     map App.to_dict (Py.slice sorted start (start + l));
                   App.js_total := total; App.js_page := p;
                   App.js_limit := l; App.js_total_pages := pages |}),
        w', t)
  /\ Py.slice sorted start (start + l)
     = take (Z.to_nat l) (drop (Z.to_nat start) sorted)
  /\ ((pages - 1) * l < total <= pages * l)%Z.
Proof.
  intros Hsort Hlimit Hfetch l p start sorted total pages.
  assert (Hl : (20 <= l <= 100)%Z) by (subst l; lia).
  assert (Hb : (limit >? 1000)%Z = false)
    by (rewrite Z.gtb_ltb; apply Z.ltb_ge; lia).
  assert (Hs : String.eqb sort "default" = false)
    by (now apply String.eqb_neq).
  split; [exact Hl|]. split; [subst p; lia|].
  split; [apply sort_tracks_perm|]. split; [|split].
  - unfold App.api_favoritos. rewrite Hb, Hs. cbn [orb negb].
    unfold Run.bind. rewrite Hfetch. cbn [Py.str_truthy].
    cbv beta iota zeta. fold sorted.
    replace (Z.max 1 (Z.max 1 page)) with p by (subst p; lia).
    fold l p. fold start. unfold Run.ret. rewrite app_nil_r.
    subst total pages. unfold sorted at 2 3.
    rewrite sort_tracks_len. reflexivity.
  - rewrite slice_nonneg by (subst start p; nia).
    f_equal. f_equal. lia.
  - apply total_pages_ceiling. lia.
Qed.

(** 57 tracks, [sort=artist-asc], [limit=20], [page=2]: the tracks of
    index 20 to 39 of the sorted sequence, and 3 pages. *)
Lemma sorted_page_slice_witness :
  let w := Replay.logged_in (Replay.library_pages 57) [] in
  let tracks := map Replay.track (seq 0 57) in
  let sorted := App.sort_tracks Py.casefold_ascii "artist-asc" tracks in
  exists w' t,
    App.api_favoritos Replay.client Py.casefold_ascii 1000 2 20
      "artist-asc" w
    = (Some (App.Success
               {| App.js_tracks := map App.to_dict (Py.slice sorted 20 40);
                  App.js_total := 57; App.js_page := 2;
                  App.js_limit := 20; App.js_total_pages := 3 |}), w', t)
    /\ Py.slice sorted 20 40 = take 20 (drop 20 sorted).
Proof.
  intros w tracks sorted. eexists _, _.
  destruct (sorted_page_slice Replay.client Py.casefold_ascii 1000 2 20
              "artist-asc" w
              (Run.world (FavoritesManager.get_all_saved_tracks
                            Replay.client 1000 w))
              tracks
              (Run.trace (FavoritesManager.get_all_saved_tracks
                            Replay.client 1000 w)))
    as (_ & _ & _ & Hrun & Hslice & _).
  - discriminate.
  - lia.
  - vm_compute. reflexivity.
  - split; [exact Hrun | exact Hslice].
Defined.

(** ** Cache keys *)

Section Strings.
Import Py.

Lemma append_cons (c : ascii) (s t : string) :
  String c s +:+ t = String c (s +:+ t).
Proof. reflexivity. Qed.

Lemma append_cancel_l (s x y : string) : s +:+ x = s +:+ y -> x = y.
Proof.
  induction s as [|c s IH]; [trivial|].
  rewrite !append_cons. intros [= H]. auto.
Qed.

Lemma string_of_list_length (cs : list ascii) :
  String.length (string_of_list_ascii cs) = length cs.
Proof. induction cs as [|c cs IH]; simpl; congruence. Qed.

(** Two strings without separator that are followed by a separator in the
    same text are equal. *)
Lemma sep_delimits (a b x y : string) :
  CacheManager.no_sep a = true -> CacheManager.no_sep b = true ->
  a +:+ "|" +:+ x = b +:+ "|" +:+ y -> a = b.
Proof.
  revert b. induction a as [|c a IH]; intros [|d b] Ha Hb; trivial;
    rewrite ?append_cons; simpl in Ha, Hb.
  - intros [= <- _]. discriminate.
  - intros [= -> _]. discriminate.
  - apply andb_true_iff in Ha as [_ Ha], Hb as [_ Hb].
    intros [= -> H]. f_equal. now apply IH.
Qed.

Lemma join_cons (sep p : string) (rest : list string) :
  rest <> [] -> join sep (p :: rest) = p +:+ sep +:+ join sep rest.
Proof. destruct rest; [congruence | reflexivity]. Qed.

Lemma join_prefix (sep : string) (pre xs ys : list string) :
  xs <> [] -> ys <> [] ->
  join sep (pre ++ xs) = join sep (pre ++ ys) -> join sep xs = join sep ys.
Proof.
  intros Hx Hy. induction pre as [|p pre IH]; [trivial|].
  rewrite <- !app_comm_cons, !join_cons
    by (destruct pre; [assumption | discriminate]).
  intros H. apply IH. now apply append_cancel_l in H; apply append_cancel_l in H.
Qed.

End Strings.

Section KeyFacts.
Import Py CacheManager.

(** Items of a dict with the same key are the same item. *)
Lemma item_of_key (kw : kwargs) (x y : string * arg) :
  NoDup (map fst kw) -> x ∈ kw -> y ∈ kw -> fst x = fst y -> x = y.
Proof.
  induction kw as [|z kw IH]; intros Hnd Hx Hy Hk; [inversion Hx|].
  simpl in Hnd. apply NoDup_cons in Hnd as [Hz Hnd].
  apply elem_of_cons in Hx as [->|Hx], Hy as [->|Hy]; auto.
  - destruct Hz. rewrite Hk. now apply list_elem_of_fmap_2.
  - destruct Hz. rewrite <- Hk. now apply list_elem_of_fmap_2.
Qed.

(** [sorted(kwargs.items())] does not depend on the order in which the
    keyword arguments were given. *)
Lemma sorted_items_perm (kw kw' : kwargs) :
  NoDup (map fst kw) -> kw ≡ₚ kw' -> sorted_items kw = sorted_items kw'.
Proof.
  intros Hnd Hp. unfold sorted_items.
  eapply (StronglySorted_unique_strong
            (in_order str_lt (fun item : string * arg => fst item) false)).
  - intros x1 x2 H1 H2 H12 H21. unfold in_order in *. simpl in *.
    rewrite sort_perm in H1, H2.
    apply (item_of_key kw); trivial.
    + now rewrite Hp.
    + now apply str_lt_total.
  - apply (sort_sorted str_lt _ str_lt_asym str_le_trans).
  - apply (sort_sorted str_lt _ str_lt_asym str_le_trans).
  - now rewrite !sort_perm.
Qed.

Lemma hex_digit_is_hex (d : Z) : MD5.is_hex (MD5.hex_digit d) = true.
Proof.
  unfold MD5.hex_digit. destruct (Z.to_nat (d mod 16)) as [|n]; [reflexivity|].
  do 15 (destruct n as [|n]; [reflexivity|]). reflexivity.
Qed.

Lemma hex_bytes_chars (bs : list Z) :
  length (flat_map MD5.hex_byte bs) = (2 * length bs)%nat
  /\ Forall (fun c => MD5.is_hex c = true) (flat_map MD5.hex_byte bs).
Proof.
  induction bs as [|b bs [IHl IHf]]; [split; [reflexivity | constructor]|].
  split; [simpl; lia|].
  simpl. repeat constructor; auto using hex_digit_is_hex.
Qed.

(** The digest is made of 32 hexadecimal digits. *)
Lemma hexdigest_chars (data : string) :
  exists cs, MD5.hexdigest data = string_of_list_ascii cs
             /\ length cs = 32%nat
             /\ Forall (fun c => MD5.is_hex c = true) cs.
Proof.
  unfold MD5.hexdigest. eexists. split; [reflexivity|].
  destruct (hex_bytes_chars
              (MD5.le_bytes 4 (MD5.sa (MD5.digest_state (MD5.bytes_of_string data)))
               ++ MD5.le_bytes 4 (MD5.sb (MD5.digest_state (MD5.bytes_of_string data)))
               ++ MD5.le_bytes 4 (MD5.sc (MD5.digest_state (MD5.bytes_of_string data)))
               ++ MD5.le_bytes 4 (MD5.sd (MD5.digest_state (MD5.bytes_of_string data)))))
    as [Hl Hf].
  split; [|exact Hf]. rewrite Hl.
  unfold MD5.le_bytes. rewrite !length_app, !length_map, !length_seq.
  reflexivity.
Qed.

Lemma key_hash_shape (data : string) :
  let key_hash := str_slice (MD5.hexdigest data) 0 16 in
  String.length key_hash = 16%nat
  /\ Forall (fun c => MD5.is_hex c = true) (list_ascii_of_string key_hash).
Proof.
  destruct (hexdigest_chars data) as (cs & -> & Hl & Hf).
  unfold str_slice. rewrite list_ascii_of_string_of_list_ascii.
  rewrite slice_nonneg by lia. simpl Z.to_nat. rewrite drop_0.
  rewrite string_of_list_length, list_ascii_of_string_of_list_ascii.
  split.
  - rewrite length_take. lia.
  - now apply Forall_take.
Qed.

(** Swapping two positional arguments whose texts differ and hold no
    separator changes the string that is hashed. *)
Lemma key_string_swap (pre mid post : list arg) (a b : arg) (kw : kwargs) :
  no_sep (str a) = true -> no_sep (str b) = true -> str a <> str b ->
  key_string (pre ++ a :: mid ++ b :: post) kw
  <> key_string (pre ++ b :: mid ++ a :: post) kw.
Proof.
  intros Ha Hb Hab. unfold key_string.
  rewrite !map_app, !map_cons, !map_app, !map_cons, <- !app_assoc.
  rewrite <- !app_comm_cons, <- !app_assoc, <- !app_comm_cons.
  intros H. apply join_prefix in H; [|discriminate..].
  rewrite !join_cons in H
    by (destruct (map str mid); discriminate).
  now apply sep_delimits in H.
Qed.

End KeyFacts.

(** C6, as the code has it.  The key is a function of the prefix, of the
    positional arguments in order and of the keyword arguments whatever
    their order; it is [rhythmbox:<prefix>:] followed by 16 hexadecimal
    digits.  The positional arguments enter it through their texts joined
    with [|]: swapping two of them whose texts differ and hold no [|]
    changes the joined text, so the keys differ unless the two digests
    agree on their first 16 digits; for ("abc", "def") and ("def", "abc")
    the keys differ, as they do for [limit=20] and [limit=21]. *)
Theorem cache_key_properties (prefix : string)
    (args : list CacheManager.arg) (kw kw' : CacheManager.kwargs) :
  NoDup (map fst kw) -> kw ≡ₚ kw' ->
  CacheManager._generate_key prefix args kw
  = CacheManager._generate_key prefix args kw'
  /\ (exists digest,
         CacheManager._generate_key prefix args kw
         = "rhythmbox:" +:+ prefix +:+ ":" +:+ digest
         /\ String.length digest = 16%nat
         /\ Forall (fun c => MD5.is_hex c = true)
              (list_ascii_of_string digest))
  /\ (forall pre mid post a b,
         args = pre ++ a :: mid ++ b :: post ->
         CacheManager.no_sep (CacheManager.str a) = true ->
         CacheManager.no_sep (CacheManager.str b) = true ->
         CacheManager.str a <> CacheManager.str b ->
         CacheManager.key_string args kw
         <> CacheManager.key_string (pre ++ b :: mid ++ a :: post) kw)
  /\ CacheManager._generate_key "search"
       [CacheManager.AStr "abc"; CacheManager.AStr "def"] []
     <> CacheManager._generate_key "search"
          [CacheManager.AStr "def"; CacheManager.AStr "abc"] []
  /\ CacheManager._generate_key "search_tracks" [CacheManager.AStr "hello"]
       [("limit", CacheManager.AInt 20)]
     <> CacheManager._generate_key "search_tracks"
          [CacheManager.AStr "hello"] [("limit", CacheManager.AInt 21)].
Proof.
  intros Hnd Hp. split; [|split; [|split; [|split]]].
  - unfold CacheManager._generate_key, CacheManager.key_string.
    now rewrite (sorted_items_perm kw kw' Hnd Hp).
  - eexists. split; [reflexivity|]. apply key_hash_shape.
  - intros pre mid post a b -> Ha Hb Hab. now apply key_string_swap.
  - vm_compute. discriminate.
  - vm_compute. discriminate.
Qed.

(** [key_for("search", "abc", limit=5, market="BR")] with the keyword
    arguments in either order. *)
Lemma cache_key_properties_witness :
  CacheManager._generate_key "search" [CacheManager.AStr "abc"]
    [("limit", CacheManager.AInt 5); ("market", CacheManager.AStr "BR")]
  = CacheManager._generate_key "search" [CacheManager.AStr "abc"]
      [("market", CacheManager.AStr "BR"); ("limit", CacheManager.AInt 5)].
Proof.
  refine (proj1 (cache_key_properties "search" [CacheManager.AStr "abc"]
                   [("limit", CacheManager.AInt 5);
                    ("market", CacheManager.AStr "BR")]
                   [("market", CacheManager.AStr "BR");
                    ("limit", CacheManager.AInt 5)] _ _)).
  - apply (bool_decide_unpack _). vm_compute. exact I.
  - apply Permutation_swap.
Defined.

(** C6, counterexample.  The positional arguments "a|a" and "a" are
    distinct, and give the same key in either order: both orders are joined
    into the text "a|a|a". *)
Lemma cache_key_swap_collision :
  CacheManager.AStr "a|a" <> CacheManager.AStr "a"
  /\ CacheManager._generate_key "search"
       [CacheManager.AStr "a|a"; CacheManager.AStr "a"] []
     = CacheManager._generate_key "search"
         [CacheManager.AStr "a"; CacheManager.AStr "a|a"] [].
Proof. split; [discriminate | reflexivity]. Qed.

(** The keys of the examples, as Python prints them. *)
Example cache_key_values :
  CacheManager._generate_key "search"
    [CacheManager.AStr "abc"; CacheManager.AStr "def"] []
  = "rhythmbox:search:3584771072cb165f"
  /\ CacheManager._generate_key "search_tracks" [CacheManager.AStr "hello"]
       [("limit", CacheManager.AInt 20)]
     = "rhythmbox:search_tracks:8738c98157698507".
Proof. vm_compute. split; reflexivity. Qed.

(** ** The memoising wrapper *)

Section Memoize.
Import Py Run CacheManager.
Context {World : Type} (redis : Redis World).
Context (prefix : string) (ttl : Z)
  (key_func : option (list arg -> kwargs -> outcome string))
  (f : list arg -> kwargs -> World -> outcome pyvalue * World).

Lemma invocations_app (t1 t2 : list event) :
  invocations (t1 ++ t2) = (invocations t1 + invocations t2)%nat.
Proof. unfold invocations. now rewrite List.filter_app, length_app. Qed.

Lemma enabled_invocations (cm : t) (w : World) :
  invocations (trace (enabled redis cm w)) = 0%nat.
Proof.
  unfold enabled. destruct (_enabled cm); [|reflexivity].
  unfold bind, call. simpl. destruct (ping redis w) as [[u|e] w1]; reflexivity.
Qed.

Lemma get_invocations (cm : t) (key : string) (w : World) :
  invocations (trace (get redis cm key w)) = 0%nat.
Proof.
  unfold get. rewrite bind_run. cbn [trace snd].
  rewrite invocations_app. fold (trace (enabled redis cm w)).
  rewrite enabled_invocations.
  destruct (value (enabled redis cm w)); [|reflexivity].
  cbn [negb]. unfold bind, call.
  destruct (redis_get redis key _) as [[[payload|]|e] w1]; try reflexivity.
  destruct (String.eqb payload ""); [reflexivity|].
  destruct (json_loads redis payload); reflexivity.
Qed.

Lemma set_invocations (cm : t) (key : string) (v : pyvalue)
    (seconds : option Z) (w : World) :
  invocations (trace (set redis cm key v seconds w)) = 0%nat.
Proof.
  unfold set. rewrite bind_run. cbn [trace snd].
  rewrite invocations_app. fold (trace (enabled redis cm w)).
  rewrite enabled_invocations.
  destruct (value (enabled redis cm w)); [|reflexivity].
  cbn [negb]. destruct (json_dumps redis v) as [payload|e]; [|reflexivity].
  unfold bind, call.
  destruct seconds as [s|]; [destruct (Z.eqb s 0)|];
    match goal with
    | |- context [redis_set redis ?k ?p ?w] =>
        destruct (redis_set redis k p w) as [[u|e] w1]
    | |- context [redis_setex redis ?k ?s ?p ?w] =>
        destruct (redis_setex redis k s p w) as [[u|e] w1]
    end; reflexivity.
Qed.

(** The run of the wrapper when the cache is not available. *)
Lemma cache_result_disabled (cm : option t) (args : list arg) (kw : kwargs)
    (w : World) :
  let check := available redis cm w in
  let call_f := f args kw (world check) in
  value check = false ->
  cache_result redis prefix ttl key_func f cm args kw w
  = (fst call_f, snd call_f, trace check ++ [Invoked args kw (fst call_f)]).
Proof.
  intros check call_f Hc. subst call_f check. unfold cache_result.
  unfold bind at 1. unfold available in *.
  destruct (match cm with
            | Some cm0 => enabled redis cm0
            | None => ret false
            end w) as [[en w0] t0].
  cbn [value world trace fst snd] in *. subst en.
  destruct cm as [c|]; unfold call;
    destruct (f args kw w0) as [r w1]; reflexivity.
Qed.

(** The run of the wrapper when the cache is available. *)
Lemma cache_result_enabled (cm : t) (args : list arg) (kw : kwargs)
    (key : string) (w : World) :
  let check := enabled redis cm w in
  let lookup := get redis cm key (world check) in
  let call_f := f args kw (world lookup) in
  let store :=
    set redis cm key (result_value (fst call_f)) (Some ttl) (snd call_f) in
  cache_key prefix key_func args kw = Ok key ->
  value check = true ->
  cache_result redis prefix ttl key_func f (Some cm) args kw w
  = if negb (is_none (value lookup))
    then (Ok (value lookup), world lookup, trace check ++ trace lookup)
    else if storable (fst call_f)
    then (fst call_f, world store,
          trace check ++ trace lookup
          ++ [Invoked args kw (fst call_f)] ++ trace store)
    else (fst call_f, snd call_f,
          trace check ++ trace lookup ++ [Invoked args kw (fst call_f)]).
Proof.
  intros check lookup call_f store Hkey Hc.
  subst store call_f lookup check. unfold cache_result.
  unfold cache_key in Hkey. rewrite Hkey. unfold bind at 1.
  destruct (enabled redis cm w) as [[en w0] t0].
  cbn [value world trace fst snd] in *. subst en.
  unfold bind at 1.
  destruct (get redis cm key w0) as [[cached w1] t1].
  cbn [value world trace fst snd].
  destruct (negb (is_none cached)).
  { unfold ret. now rewrite app_nil_r. }
  unfold bind at 1. unfold call at 1.
  destruct (f args kw w1) as [r w2]. cbn [fst snd].
  destruct r as [v|e]; cbn [storable result_value]; [|reflexivity].
  destruct (negb (is_none v)); [|reflexivity].
  unfold bind, ret.
  destruct (set redis cm key v (Some ttl) w2) as [[b w3] t3].
  cbn [world trace fst snd]. now rewrite app_nil_r.
Qed.

(** The operation is invoked once, unless the call is served from the
    cache. *)
Lemma cache_result_invocations (cm : option t) (args : list arg)
    (kw : kwargs) (key : string) (w : World) :
  cache_key prefix key_func args kw = Ok key ->
  invocations (trace (cache_result redis prefix ttl key_func f cm args kw w))
  = if hits redis cm key w then 0%nat else 1%nat.
Proof.
  intros Hkey.
  destruct (value (available redis cm w)) eqn:Hc.
  - destruct cm as [c|]; [|discriminate]. simpl in Hc.
    rewrite (cache_result_enabled c args kw key w Hkey Hc).
    unfold hits. rewrite Hc. cbn [andb].
    destruct (negb (is_none (value (get redis c key _)))).
    + cbn [trace snd]. rewrite invocations_app.
      now rewrite enabled_invocations, get_invocations.
    + destruct (storable _); cbn [trace snd];
        rewrite !invocations_app, ?enabled_invocations, ?get_invocations,
          ?set_invocations; reflexivity.
  - rewrite (cache_result_disabled cm args kw w Hc). cbn [trace snd].
    rewrite invocations_app.
    assert (Hh : hits redis cm key w = false).
    { destruct cm as [c|]; [|reflexivity]. unfold hits.
      simpl in Hc. now rewrite Hc. }
    rewrite Hh. destruct cm as [c|]; simpl available.
    + now rewrite enabled_invocations.
    + reflexivity.
Qed.

(** The wrapper raises what the computation of the key raises, before
    the cache is read and before the operation is invoked. *)
Lemma cache_result_key_error (cm : t) (args : list arg) (kw : kwargs)
    (e : string) (w : World) :
  let check := enabled redis cm w in
  cache_key prefix key_func args kw = Raise e ->
  value check = true ->
  cache_result redis prefix ttl key_func f (Some cm) args kw w
  = (Raise e, world check, trace check).
Proof.
  intros check Hkey Hc. subst check. unfold cache_result.
  unfold cache_key in Hkey. rewrite Hkey. unfold bind at 1.
  destruct (enabled redis cm w) as [[en w0] t0].
  cbn [value world trace fst snd] in *. subst en.
  unfold ret. now rewrite app_nil_r.
Qed.

Lemma enabled_flag (cm : t) (w : World) :
  value (enabled redis cm w) = true -> _enabled cm = true.
Proof.
  unfold enabled. destruct (_enabled cm); [reflexivity|discriminate].
Qed.

Section Working.
Context (up : World -> bool) (contents : World -> string -> option string).
Context (Hworking : working redis up contents).

Lemma enabled_up (cm : t) (w : World) :
  up w = true -> _enabled cm = true ->
  value (enabled redis cm w) = true
  /\ up (world (enabled redis cm w)) = true
  /\ forall k, contents (world (enabled redis cm w)) k = contents w k.
Proof.
  intros Hup Hen. destruct Hworking as (Hping & _).
  specialize (Hping w Hup). unfold enabled. rewrite Hen. cbn [negb].
  unfold bind, call. destruct (ping redis w) as [r w1].
  cbn [fst snd] in Hping. destruct Hping as (-> & Hup1 & Hc).
  cbn [value world fst snd ret]. auto.
Qed.

Lemma get_up (cm : t) (key : string) (w : World) :
  up w = true -> _enabled cm = true ->
  negb (is_none (value (get redis cm key w))) = held redis (contents w key)
  /\ up (world (get redis cm key w)) = true
  /\ forall k, contents (world (get redis cm key w)) k = contents w k.
Proof.
  intros Hup Hen.
  destruct (enabled_up cm w Hup Hen) as (Hv & Hup1 & Hc1).
  unfold get. rewrite bind_run. cbn [value world fst snd].
  rewrite Hv. cbn [negb].
  destruct Hworking as (_ & Hget & _).
  specialize (Hget key _ Hup1). unfold bind, call.
  destruct (redis_get redis key (world (enabled redis cm w))) as [r w2].
  cbn [fst snd] in Hget. destruct Hget as (-> & Hup2 & Hc2).
  rewrite Hc1.
  assert (Hk : forall k, contents w2 k = contents w k)
    by (intros k; now rewrite Hc2, Hc1).
  destruct (contents w key) as [payload|]; cbn [held].
  2: { cbn [value world fst snd ret is_none negb]. auto. }
  unfold readable. destruct (String.eqb payload "").
  { cbn [value world fst snd ret is_none negb andb]. auto. }
  destruct (json_loads redis payload) as [v|e];
    cbn [value world fst snd ret is_none negb andb]; auto.
Qed.

Lemma hits_up (cm : t) (key : string) (w : World) :
  up w = true -> _enabled cm = true ->
  hits redis (Some cm) key w = held redis (contents w key).
Proof.
  intros Hup Hen.
  destruct (enabled_up cm w Hup Hen) as (Hv & Hup1 & Hc1).
  destruct (get_up cm key _ Hup1 Hen) as (Hg & _ & _).
  unfold hits. cbv zeta. rewrite Hv, Hg, Hc1. reflexivity.
Qed.

Lemma set_up (cm : t) (key payload : string) (v : pyvalue) (w : World) :
  up w = true -> _enabled cm = true -> (0 <= ttl)%Z ->
  json_dumps redis v = Ok payload ->
  up (world (set redis cm key v (Some ttl) w)) = true
  /\ contents (world (set redis cm key v (Some ttl) w)) key = Some payload.
Proof.
  intros Hup Hen Httl Hd.
  destruct (enabled_up cm w Hup Hen) as (Hv & Hup1 & Hc1).
  unfold set. rewrite bind_run. cbn [value world fst snd].
  rewrite Hv, Hd. cbn [negb].
  destruct Hworking as (_ & _ & Hset & Hsetex).
  destruct (Z.eqb_spec ttl 0) as [H0|H0].
  - specialize (Hset key payload _ Hup1). unfold bind, call.
    destruct (redis_set redis key payload _) as [r w2].
    cbn [fst snd] in Hset. destruct Hset as (-> & Hup2 & Hc2).
    cbn [value world fst snd ret]. auto.
  - specialize (Hsetex key ttl payload _ Hup1 ltac:(lia)). unfold bind, call.
    destruct (redis_setex redis key ttl payload _) as [r w2].
    cbn [fst snd] in Hsetex. destruct Hsetex as (-> & Hup2 & Hc2).
    cbn [value world fst snd ret]. auto.
Qed.

(** Two calls in a row on a cache that works: the second is served from
    the cache, and the operation is invoked once, by the first call, or
    not at all when the first call was served from the cache too. *)
Lemma cache_result_twice (cm : option t) (args : list arg) (kw : kwargs)
    (key : string) (w : World) :
  let run := cache_result redis prefix ttl key_func f cm args kw in
  cache_key prefix key_func args kw = Ok key ->
  (forall w0, up w0 = true -> up (snd (f args kw w0)) = true) ->
  up w = true -> value (available redis cm w) = true -> (0 <= ttl)%Z ->
  hits redis cm key w = true
  \/ (exists v, value (run w) = Ok v /\ cacheable redis v = true) ->
  hits redis cm key (world (run w)) = true
  /\ (invocations (trace (run w))
      + invocations (trace (run (world (run w)))))%nat
     = (if hits redis cm key w then 0 else 1)%nat.
Proof.
  intros run Hkey Hf Hup Hc Httl Hres. subst run.
  assert (Hsecond :
    hits redis cm key
      (world (cache_result redis prefix ttl key_func f cm args kw w))
    = true).
  { destruct cm as [c|]; [|discriminate]. simpl in Hc.
    pose proof (enabled_flag c w Hc) as Hen.
    destruct (enabled_up c w Hup Hen) as (_ & Hup1 & Hc1).
    destruct (get_up c key _ Hup1 Hen) as (Hg & Hup2 & Hc2).
    pose proof (hits_up c key w Hup Hen) as Hh.
    rewrite (cache_result_enabled c args kw key w Hkey Hc) in *.
    rewrite Hc1 in Hg.
    destruct (negb (is_none (value (get redis c key _)))) eqn:Hhit.
    - cbn [world fst snd]. rewrite (hits_up c key _ Hup2 Hen).
      now rewrite Hc2, Hc1, <- Hg.
    - destruct Hres as [Hres|(v & Hv & Hcv)]; [congruence|].
      pose proof (Hf _ Hup2) as Hup3.
      destruct (f args kw (world (get redis c key _))) as [r w3].
      cbn [fst snd] in *.
      destruct (storable r) eqn:Hst; cbn [value fst] in Hv; subst r.
      + cbn [world fst snd result_value].
        unfold cacheable in Hcv. apply andb_prop in Hcv as [_ Hcv].
        destruct (json_dumps redis v) as [payload|e] eqn:Hd;
          [|discriminate].
        destruct (set_up c key payload v w3 Hup3 Hen Httl Hd) as (Hup4 & Hc4).
        rewrite (hits_up c key _ Hup4 Hen), Hc4. exact Hcv.
      + unfold cacheable in Hcv. apply andb_prop in Hcv as [Hn _].
        simpl in Hst. congruence. }
  split; [exact Hsecond|].
  rewrite !(cache_result_invocations cm args kw key) by exact Hkey.
  rewrite Hsecond. lia.
Qed.

End Working.

End Memoize.


(** The server held in memory works. *)
Lemma memory_working :
  CacheManager.working Memory.redis Memory.up Memory.contents.
Proof.
  unfold CacheManager.working, Memory.contents. simpl.
  unfold Memory.command, Memory.store.
  split; [|split; [|split]].
  - intros w Hup. rewrite Hup. simpl. auto.
  - intros key w Hup. rewrite Hup. simpl. auto.
  - intros key payload w Hup. rewrite Hup. simpl.
    split; [reflexivity|]. split; [reflexivity|]. apply lookup_insert_eq.
  - intros key ttl payload w Hup Httl.
    destruct (Z.leb_spec ttl 0) as [?|_]; [lia|]. rewrite Hup. simpl.
    split; [reflexivity|]. split; [reflexivity|]. apply lookup_insert_eq.
Qed.


(** A keyword named [prefix] with the default key and the cache
    available: the wrapper raises, and the operation is not invoked. *)
Example memoize_keyword_prefix :
  let run :=
    CacheManager.cache_result Memory.redis "search" 300 None
      (Memory.constant (CacheManager.PStr "x")) Memory.manager
      [] [("prefix", CacheManager.AStr "a")] Memory.fresh in
  Run.value run
  = Py.Raise
      "CacheManager._generate_key() got multiple values for argument 'prefix'"
  /\ CacheManager.invocations (Run.trace run) = 0%nat.
Proof. vm_compute. split; reflexivity. Qed.


(** An operation that returns [None] is invoked by each of two calls, and
    with the server down so is any operation. *)
Example memoize_twice_invoked :
  let twice v w :=
    let run :=
      CacheManager.cache_result Memory.redis "artist_details" 1800 None
        (Memory.constant v) Memory.manager [CacheManager.AStr "4Z8W4fKeB5YxbusRsdQVPb"]
        [] in
    (CacheManager.invocations (Run.trace (run w))
     + CacheManager.invocations (Run.trace (run (Run.world (run w)))))%nat in
  twice CacheManager.PNone Memory.fresh = 2%nat
  /\ twice (CacheManager.PStr "x")
       {| Memory.up := false; Memory.data := ∅ |} = 2%nat
  /\ twice (CacheManager.PStr "x") Memory.fresh = 1%nat.
Proof. vm_compute. repeat split. Qed.

(** With a negative TTL, [SETEX] is refused and nothing is stored: each
    of two calls invokes the operation. *)
Example memoize_negative_ttl :
  let run :=
    CacheManager.cache_result Memory.redis "artist_details" (-1) None
      (Memory.constant (CacheManager.PStr "x")) Memory.manager
      [CacheManager.AStr "4Z8W4fKeB5YxbusRsdQVPb"] [] in
  (CacheManager.invocations (Run.trace (run Memory.fresh))
   + CacheManager.invocations
       (Run.trace (run (Run.world (run Memory.fresh)))))%nat
  = 2%nat.
Proof. vm_compute. reflexivity. Qed.

(** * Further properties *)

(** ** What the adapter reports *)

Section AdapterErrors.
Import Py Models Run FavoritesManager.
Context {World : Type} (sp : Spotify World).
Local Open Scope Z_scope.

Lemma prefixed_truthy (c : ascii) (s e : string) :
  str_truthy (Some (String c s +:+ e)) = true.
Proof. reflexivity. Qed.

(** The message after a failed authentication is a truthy string. *)
Lemma auth_error_truthy (error : option string) :
  str_truthy (Some (str_or error "Erro na autenticação")) = true.
Proof. now apply str_or_truthy. Qed.

Lemma get_saved_tracks_error (limit offset : Z) (w : World)
    (tracks : list Track) (e : string) :
  value (get_saved_tracks sp limit offset w) = (tracks, Some e) ->
  str_truthy (Some e) = true /\ tracks = [].
Proof.
  unfold get_saved_tracks.
  unfold bind at 1; unfold emit at 1; unfold bind at 1.
  destruct (_validate_authentication sp w) as [[[ok error] w1] t1].
  destruct (str_truthy error || negb ok).
  - unfold ret, value. simpl. intros [= <- <-].
    split; [apply auth_error_truthy | reflexivity].
  - unfold bind, call, ret, value.
    destruct (current_user_saved_tracks sp _ _ w1) as [[[r|]|e'] w2];
      simpl; intros [= <- <-] || intros [=]; split; reflexivity.
Qed.

Lemma get_all_saved_tracks_error (fuel : nat) (w : World)
    (tracks : list Track) (e : string) :
  value (get_all_saved_tracks sp fuel w) = Some (tracks, Some e) ->
  str_truthy (Some e) = true /\ tracks = [].
Proof.
  unfold get_all_saved_tracks.
  unfold bind at 1; unfold emit at 1; unfold bind at 1.
  destruct (_validate_authentication sp w) as [[[ok error] w1] t1].
  destruct (str_truthy error || negb ok).
  - unfold ret, value. simpl. intros [= <- <-].
    split; [apply auth_error_truthy | reflexivity].
  - unfold bind, ret, value.
    destruct (get_all_loop sp fuel MAX_TRACKS_PER_REQUEST 0 1 [] w1)
      as [[[[tr|e']|] w2] t2]; simpl; intros [= <- <-] || intros [=];
      split; reflexivity.
Qed.

Lemma get_total_saved_tracks_zero (w : World) (n : Z) (e : string) :
  value (get_total_saved_tracks sp w) = (n, Some e) -> n = 0.
Proof.
  unfold get_total_saved_tracks.
  unfold bind at 1; unfold emit at 1; unfold bind at 1.
  destruct (_validate_authentication sp w) as [[[ok error] w1] t1].
  destruct (str_truthy error || negb ok).
  - unfold ret, value. simpl. now intros [= <- _].
  - unfold bind, call, ret, value.
    destruct (current_user_saved_tracks sp _ _ w1)
      as [[[[items [total|]]|]|e'] w2]; simpl;
      now intros [= <- _] || intros [=].
Qed.

Lemma check_saved_tracks_error (strip : string -> string)
    (track_ids : list string) (w : World) (bs : list bool) (e : string) :
  value (check_saved_tracks sp strip track_ids w) = (bs, Some e) ->
  str_truthy (Some e) = true /\ bs = [].
Proof.
  unfold check_saved_tracks. unfold bind at 1; unfold emit at 1.
  destruct track_ids as [|tid track_ids]; [intros [=]|].
  destruct (clean_ids strip (tid :: track_ids)) as [|c cleaned].
  { unfold ret, value. simpl. intros [= <- <-]. split; reflexivity. }
  unfold bind at 1.
  destruct (_validate_authentication sp w) as [[[ok error] w1] t1].
  destruct (str_truthy error || negb ok).
  - unfold ret, value. simpl. intros [= <- <-].
    split; [apply auth_error_truthy | reflexivity].
  - unfold bind, ret, value.
    destruct (check_loop sp _ (c :: cleaned) [] w1) as [[[bs'|e'] w2] t2];
      simpl; intros [= <- <-] || intros [=]; split; reflexivity.
Qed.

End AdapterErrors.

(** X1.  An error returned by a reading method of the adapter is a truthy
    string and comes with an empty result: no tracks from
    [get_saved_tracks] and [get_all_saved_tracks], the count 0 from
    [get_total_saved_tracks], no booleans from [check_saved_tracks].  So
    the test [if error] of a caller misses no error, and no partial result
    accompanies one. *)
Theorem adapter_errors_explicit {World : Type}
    (sp : FavoritesManager.Spotify World) (strip : string -> string)
    (fuel : nat) (limit offset : Z) (track_ids : list string) (w : World) :
  (forall tracks e,
      Run.value (FavoritesManager.get_saved_tracks sp limit offset w)
      = (tracks, Some e) ->
      Py.str_truthy (Some e) = true /\ tracks = [])
  /\ (forall tracks e,
         Run.value (FavoritesManager.get_all_saved_tracks sp fuel w)
         = Some (tracks, Some e) ->
         Py.str_truthy (Some e) = true /\ tracks = [])
  /\ (forall n e,
         Run.value (FavoritesManager.get_total_saved_tracks sp w)
         = (n, Some e) ->
         Py.str_truthy (Some e) = true /\ n = 0%Z)
  /\ (forall bs e,
         Run.value (FavoritesManager.check_saved_tracks sp strip track_ids w)
         = (bs, Some e) ->
         Py.str_truthy (Some e) = true /\ bs = []).
Proof.
  split; [apply get_saved_tracks_error|].
  split; [apply get_all_saved_tracks_error|].
  split; [|apply check_saved_tracks_error].
  intros n e He. split.
  - now apply (get_total_saved_tracks_error sp w n e).
  - now apply (get_total_saved_tracks_zero sp w n e).
Qed.

(** A user who is not logged in asks for the first page. *)
Lemma adapter_errors_explicit_witness :
  Py.str_truthy (Some "Usuário não autenticado no Spotify.") = true
  /\ @nil Models.Track = [].
Proof.
  apply (proj1 (adapter_errors_explicit Replay.client Py.strip_ascii 1000
                  20 0 []
                  {| Replay.token := Py.Ok false;
                     Replay.instance := Py.Ok true;
                     Replay.pages := []; Replay.checks := [] |})).
  reflexivity.
Defined.

(** ** Adding and removing a favourite *)

Section WriteFacts.
Import Py Models Run FavoritesManager FavoritesWrites.
Context {World : Type} (sp : Spotify World) (spw : SpotifyWrites World).
Context (strip : string -> string).

(** The shape of a run of [save_track] or [remove_saved_track]: a blank id
    or a failed authentication ends it without a call and without a change
    of the world beyond the authentication; otherwise one call is made,
    with the stripped id. *)
Lemma write_run
    (op : list string -> World -> outcome unit * World)
    (ev : list string -> outcome unit -> event) (failure : string)
    (track_id : string) (w : World) :
  let run :=
    (if blank strip track_id
     then ret (false, Some "ID da música inválido.")
     else
       do (ok, error) <- reading (_validate_authentication sp);
       if str_truthy error || negb ok
       then ret (false, Some (str_or error "Erro na autenticação"))
       else
         do r <- call (op [strip track_id]) (ev [strip track_id]);
         match r with
         | Ok _ => ret (true, None)
         | Raise e => ret (false, Some (failure +:+ e))
         end)%run w in
  (blank strip track_id = true /\
   run = ((false, Some "ID da música inválido."), w, []))
  \/ (blank strip track_id = false /\ authenticated sp w = false /\
      exists e, str_truthy (Some e) = true /\
                run = ((false, Some e),
                       world (_validate_authentication sp w), []))
  \/ (blank strip track_id = false /\ authenticated sp w = true /\
      let w1 := world (_validate_authentication sp w) in
      let out := fst (op [strip track_id] w1) in
      run = (write_result failure out, snd (op [strip track_id] w1),
             [ev [strip track_id] out])).
Proof.
  intros run. subst run.
  destruct (blank strip track_id); [left; split; reflexivity|].
  right. unfold bind, reading, call, ret, authenticated. cbv beta.
  pose proof (validate_trace sp w) as Ht.
  destruct (_validate_authentication sp w) as [[[ok error] w1] t1].
  cbn [trace snd] in Ht. subst t1. cbn [value world fst snd map].
  destruct (str_truthy error || negb ok).
  - left. split; [reflexivity|]. split; [reflexivity|].
    exists (str_or error "Erro na autenticação").
    split; [apply auth_error_truthy | reflexivity].
  - right. split; [reflexivity|]. split; [reflexivity|].
    destruct (op [strip track_id] w1) as [[u|e] w2]; reflexivity.
Qed.

End WriteFacts.

(** X2.  [save_track] and [remove_saved_track] make at most one call to
    the client, for the stripped id alone, and only for an id that is not
    blank and a user who is authenticated.  They report success exactly
    when that call was made and did not raise; then the error is [None],
    and otherwise it is a truthy string.  A blank id leaves the world
    untouched. *)
Theorem write_once {World : Type} (sp : FavoritesManager.Spotify World)
    (spw : FavoritesWrites.SpotifyWrites World) (strip : string -> string)
    (track_id : string) (w : World) :
  FavoritesWrites.write_contract sp strip track_id w
    (FavoritesWrites.save_track sp spw strip track_id w)
    (FavoritesWrites.current_user_saved_tracks_add spw)
    FavoritesWrites.Api_saved_tracks_add
  /\ FavoritesWrites.write_contract sp strip track_id w
       (FavoritesWrites.remove_saved_track sp spw strip track_id w)
       (FavoritesWrites.current_user_saved_tracks_delete spw)
       FavoritesWrites.Api_saved_tracks_delete.
Proof.
  assert (H : forall op ev c s,
             let failure := String c s in
             forall run,
             ((FavoritesWrites.blank strip track_id = true /\
               run = ((false, Some "ID da música inválido."), w, []))
              \/ (FavoritesWrites.blank strip track_id = false /\
                  FavoritesManager.authenticated sp w = false /\
                  exists e, Py.str_truthy (Some e) = true /\
                    run = ((false, Some e),
                           Run.world
                             (FavoritesManager._validate_authentication sp w),
                           []))
              \/ (FavoritesWrites.blank strip track_id = false /\
                  FavoritesManager.authenticated sp w = true /\
                  let w1 := Run.world
                              (FavoritesManager._validate_authentication sp w) in
                  let out := fst (op [strip track_id] w1) in
                  run = (FavoritesWrites.write_result failure out,
                         snd (op [strip track_id] w1),
                         [ev [strip track_id] out]))) ->
             FavoritesWrites.write_contract sp strip track_id w run op ev).
  { intros op ev c s failure run Hrun.
    unfold FavoritesWrites.write_contract.
    destruct Hrun as [[Hb ->]|[(Hb & Ha & e & He & ->)|(Hb & Ha & ->)]];
      rewrite Hb; cbn [Run.value Run.world Run.trace fst snd negb andb].
    - split; [reflexivity|]. split; [reflexivity|]. split; [reflexivity|].
      split; [split; discriminate|]. now intros e [= <-].
    - rewrite Ha. split; [reflexivity|]. split; [reflexivity|].
      split; [reflexivity|]. split; [split; discriminate|].
      now intros e' [= <-].
    - rewrite Ha. split; [reflexivity|]. split; [reflexivity|].
      destruct (fst (op [strip track_id] _)) as [u|e];
        cbn [FavoritesWrites.write_result FavoritesManager.raised fst snd negb].
      + split; [reflexivity|]. split; [split; reflexivity|]. intros e [=].
      + split; [reflexivity|]. split; [split; discriminate|].
        now intros e' [= <-]. }
  split.
  - apply (H _ _ "E"%char "rro ao adicionar aos favoritos: ").
    apply (write_run sp strip).
  - apply (H _ _ "E"%char "rro ao remover dos favoritos: ").
    apply (write_run sp strip).
Qed.

Section SingleCheck.
Import Py Models Run FavoritesManager FavoritesWrites.
Context {World : Type} (sp : Spotify World) (strip : string -> string).

Lemma clean_ids_single (s : string) :
  clean_ids strip [s] = [] \/ clean_ids strip [s] = [strip s].
Proof.
  unfold clean_ids. rewrite filter_cons.
  destruct (decide _); [right | left]; reflexivity.
Qed.

(** The runs of [is_track_saved]: [None] for a run that stops before the
    call to the client, at [stage] 0 for a blank id, or after entering
    [check_saved_tracks]; [Some out] for a run that makes the call and
    gets [out]. *)
Lemma is_track_saved_run (track_id : string) (w : World) :
  let run := is_track_saved sp strip track_id w in
  let entered := Called_check_saved_tracks [strip track_id] in
  (exists e w', str_truthy (Some e) = true
                /\ (run = ((false, Some e), w', [])
                    \/ run = ((false, Some e), w', [entered])))
  \/ (exists out w',
         trace run
         = [entered;
            Api_saved_tracks_contains [strip (strip track_id)] out]
         /\ world run = w'
         /\ (value run
             = match out with
               | Ok (Some (saved :: _)) => (saved, None)
               | Ok (Some []) => (false, Some "Nenhum resultado retornado")
               | Ok None => (false, None)
               | Raise e =>
                   (false, Some ("Erro ao verificar favoritos: " +:+ e))
               end)).
Proof.
  intros run entered. subst run. unfold is_track_saved.
  destruct (blank strip track_id).
  { left. exists "ID da música inválido", w. split; [reflexivity|].
    left. reflexivity. }
  unfold check_saved_tracks.
  destruct (clean_ids_single (strip track_id)) as [Ec|Ec]; rewrite Ec.
  { left. exists "Nenhum ID válido fornecido.", w. split; [reflexivity|].
    right. reflexivity. }
  change (range0 (len [strip (strip track_id)]) MAX_IDS_CHECK) with [0%Z].
  cbn [check_loop].
  change (slice [strip (strip track_id)] 0 (0 + MAX_IDS_CHECK))
    with [strip (strip track_id)].
  unfold bind, emit, call, ret. cbv beta.
  pose proof (validate_trace sp w) as Ht.
  destruct (_validate_authentication sp w) as [[[ok error] w1] t1].
  cbn [trace snd] in Ht. subst t1.
  destruct (str_truthy error || negb ok).
  { left. exists (str_or error "Erro na autenticação"), w1.
    split; [apply auth_error_truthy|]. right.
    rewrite auth_error_truthy. reflexivity. }
  right.
  destruct (current_user_saved_tracks_contains sp _ w1) as [out w2].
  exists out, w2.
  destruct out as [[[|saved bs]|]|e]; repeat split; reflexivity.
Qed.

End SingleCheck.

(** X3.  [is_track_saved] calls the client at most once, for the one id,
    stripped (twice).  It answers [True] exactly when that call was made
    and returned a list that starts with [True]; an error it returns is a
    truthy string and comes with [False]. *)
Theorem is_track_saved_contract {World : Type}
    (sp : FavoritesManager.Spotify World) (strip : string -> string)
    (track_id : string) (w : World) :
  let run := FavoritesWrites.is_track_saved sp strip track_id w in
  let entered := FavoritesManager.Called_check_saved_tracks [strip track_id] in
  let asked := FavoritesManager.Api_saved_tracks_contains
                 [strip (strip track_id)] in
  (Run.trace run = [] \/ Run.trace run = [entered]
   \/ exists out, Run.trace run = [entered; asked out])
  /\ (fst (Run.value run) = true
      <-> exists bs,
          Run.trace run = [entered; asked (Py.Ok (Some (true :: bs)))])
  /\ (forall e, snd (Run.value run) = Some e ->
                Py.str_truthy (Some e) = true /\ fst (Run.value run) = false).
Proof.
  intros run entered asked.
  destruct (is_track_saved_run sp strip track_id w)
    as [(e & w' & He & [Hr|Hr])|(out & w' & Ht & _ & Hv)];
    fold run in Hr || fold run in Ht, Hv.
  - rewrite Hr. cbn [Run.trace Run.value fst snd].
    split; [now left|]. split.
    + split; [discriminate | intros [bs [=]]].
    + now intros e' [= <-].
  - rewrite Hr. cbn [Run.trace Run.value fst snd].
    split; [right; now left|]. split.
    + split; [discriminate | intros [bs [=]]].
    + now intros e' [= <-].
  - rewrite Ht, Hv. split; [right; right; now exists out|].
    destruct out as [[[|saved bs]|]|e]; cbn [fst snd]; split;
      try (split; [discriminate | intros [bs' [=]]]);
      try (now intros e' [= <-]); try (intros e' [=]).
    split.
    + intros ->. now exists bs.
    + now intros [bs' [= -> _]].
Qed.

(** ** Identifiers *)

Section Identifiers.
Import Py Validation.
Local Open Scope Z_scope.

Lemma alnum_not_continuation (c : ascii) :
  is_alnum c = true ->
  (let n := nat_of_ascii c in negb ((128 <=? n) && (n <=? 191)))%nat = true.
Proof.
  destruct c as [[] [] [] [] [] [] [] []]; vm_compute; congruence.
Qed.

Lemma alnum_not_space (c : ascii) : is_alnum c = true -> is_space c = false.
Proof.
  destruct c as [[] [] [] [] [] [] [] []]; vm_compute; congruence.
Qed.

Lemma filter_all {A} (p : A -> bool) (l : list A) :
  forallb p l = true -> List.filter p l = l.
Proof.
  induction l as [|x l IH]; simpl; [reflexivity|].
  intros H. apply andb_true_iff in H as [Hx Hl]. now rewrite Hx, IH.
Qed.

Lemma forallb_impl {A} (p q : A -> bool) (l : list A) :
  (forall x, p x = true -> q x = true) ->
  forallb p l = true -> forallb q l = true.
Proof.
  intros H. induction l as [|x l IH]; simpl; [reflexivity|].
  intros Hl. apply andb_true_iff in Hl as [Hx Hl].
  now rewrite (H x Hx), IH.
Qed.

(** On a text of letters and digits [len] counts the bytes. *)
Lemma str_len_alnum (cs : list ascii) :
  forallb is_alnum cs = true ->
  len (List.filter (fun c => let n := nat_of_ascii c in
                             negb ((128 <=? n) && (n <=? 191)))%nat cs)
  = Z.of_nat (length cs).
Proof.
  intros H. rewrite filter_all; [reflexivity|].
  revert H. apply forallb_impl, alnum_not_continuation.
Qed.

Lemma str_len_bytes (s : string) :
  forallb is_alnum (list_ascii_of_string s) = true ->
  str_len s = Z.of_nat (length (list_ascii_of_string s)).
Proof. exact (str_len_alnum (list_ascii_of_string s)). Qed.

Lemma string_length_chars (s : string) :
  String.length s = length (list_ascii_of_string s).
Proof. induction s as [|c s IH]; simpl; congruence. Qed.

(** The pattern accepts the well-formed ids, and those followed by a line
    feed, which have 23 characters. *)
Lemma match_id_cases (s : string) :
  match_id s = true ->
  well_formed_id s = true \/ str_len s = 23.
Proof.
  unfold match_id, well_formed_id. intros H.
  apply orb_true_iff in H as [H|H]; [now left|]. right.
  destruct (rev (list_ascii_of_string s)) as [|c before] eqn:Er;
    [discriminate|].
  apply andb_true_iff in H as [Hc H]. unfold alnum_run in H.
  apply andb_true_iff in H as [Hl Ha]. apply Nat.eqb_eq in Hl, Hc.
  assert (Hs : list_ascii_of_string s = rev before ++ [c]).
  { rewrite <- (rev_involutive (list_ascii_of_string s)), Er. reflexivity. }
  unfold str_len. rewrite Hs, List.filter_app. unfold len.
  rewrite length_app.
  pose proof (str_len_alnum (rev before) Ha) as Hb. unfold len in Hb.
  apply Nat2Z.inj in Hb. rewrite Hb, Hl. simpl. rewrite Hc. reflexivity.
Qed.

Lemma well_formed_length (s : string) :
  well_formed_id s = true ->
  length (list_ascii_of_string s) = 22%nat
  /\ forallb is_alnum (list_ascii_of_string s) = true.
Proof.
  unfold well_formed_id, alnum_run. intros H.
  apply andb_true_iff in H as [Hl Ha]. now apply Nat.eqb_eq in Hl.
Qed.

Lemma lstrip_chars_id (cs : list ascii) :
  forallb is_alnum cs = true -> lstrip_chars cs = cs.
Proof.
  destruct cs as [|c cs]; [reflexivity|]. simpl. intros H.
  apply andb_true_iff in H as [Hc _]. now rewrite (alnum_not_space c Hc).
Qed.

(** [strip] leaves a text of letters and digits as it is. *)
Lemma strip_ascii_alnum (s : string) :
  forallb is_alnum (list_ascii_of_string s) = true -> strip_ascii s = s.
Proof.
  intros H. unfold strip_ascii. rewrite (lstrip_chars_id _ H).
  rewrite lstrip_chars_id.
  - rewrite rev_involutive. apply string_of_list_ascii_of_string.
  - rewrite forallb_forall in *. intros c Hc. apply H.
    now apply in_rev.
Qed.

End Identifiers.

Section IdentifierChecks.
Import Py Validation.
Local Open Scope Z_scope.

Lemma validate_spotify_id_iff (spotify_id id_type : string) :
  validate_spotify_id spotify_id id_type = Ok true
  <-> well_formed_id spotify_id = true.
Proof.
  unfold validate_spotify_id. split.
  - destruct (String.eqb spotify_id ""); [discriminate|].
    destruct (Z.eqb_spec (str_len spotify_id) 22) as [Hl|Hl];
      [|discriminate]. cbn [negb].
    destruct (match_id spotify_id) eqn:Hm; [|discriminate].
    intros _. destruct (match_id_cases spotify_id Hm) as [H|H];
      [exact H | lia].
  - intros H. pose proof (well_formed_length spotify_id H) as [Hl Ha].
    destruct (String.eqb_spec spotify_id "") as [->|_]; [discriminate|].
    rewrite (str_len_bytes _ Ha), Hl.
    change (negb (Z.of_nat 22 =? 22)%Z) with false. cbv iota.
    unfold match_id. fold (well_formed_id spotify_id).
    now rewrite H.
Qed.

Lemma validate_spotify_id_raises (spotify_id id_type : string) :
  well_formed_id spotify_id = false ->
  exists message, validate_spotify_id spotify_id id_type = Raise message.
Proof.
  intros H.
  destruct (validate_spotify_id spotify_id id_type) as [[|]|message] eqn:Ev.
  - apply validate_spotify_id_iff in Ev. congruence.
  - unfold validate_spotify_id in Ev.
    repeat match type of Ev with
           | (if ?b then _ else _) = _ => destruct b
           end; discriminate.
  - now exists message.
Qed.

Lemma well_formed_not_blank (track_id : string) :
  well_formed_id track_id = true ->
  strip_ascii track_id = track_id
  /\ FavoritesWrites.blank strip_ascii track_id = false.
Proof.
  intros H. pose proof (well_formed_length track_id H) as [Hl Ha].
  assert (Hs : strip_ascii track_id = track_id)
    by now apply strip_ascii_alnum.
  split; [exact Hs|]. unfold FavoritesWrites.blank. rewrite Hs.
  destruct (String.eqb_spec track_id "") as [->|_]; [discriminate|].
  reflexivity.
Qed.

End IdentifierChecks.

(** X4.  [validate_spotify_id] returns [True] for exactly the ids made of
    22 ASCII letters and digits, and raises for every other text; the
    line feed that [$] lets through after 22 such characters is stopped by
    the check of the length.  An accepted id is not empty and [strip]
    leaves it unchanged. *)
Theorem validate_spotify_id_accepts (spotify_id id_type : string) :
  (Validation.validate_spotify_id spotify_id id_type = Py.Ok true
   <-> Validation.well_formed_id spotify_id = true)
  /\ (Validation.well_formed_id spotify_id = false ->
      exists message,
        Validation.validate_spotify_id spotify_id id_type = Py.Raise message)
  /\ (Validation.well_formed_id spotify_id = true ->
      String.length spotify_id = 22%nat
      /\ Py.strip_ascii spotify_id = spotify_id).
Proof.
  split; [apply validate_spotify_id_iff|].
  split; [apply validate_spotify_id_raises|].
  intros H. pose proof (well_formed_length spotify_id H) as [Hl Ha].
  split; [now rewrite string_length_chars|].
  now apply strip_ascii_alnum.
Qed.

(** An id of 22 characters, one of them a hyphen, and a track id. *)
Lemma validate_spotify_id_accepts_witness :
  (exists message,
      Validation.validate_spotify_id "4Z8W4fKeB5-xbusRsdQVPb" "track"
      = Py.Raise message)
  /\ String.length "4Z8W4fKeB5YxbusRsdQVPb" = 22%nat
  /\ Py.strip_ascii "4Z8W4fKeB5YxbusRsdQVPb" = "4Z8W4fKeB5YxbusRsdQVPb".
Proof.
  split.
  - apply (proj1 (proj2 (validate_spotify_id_accepts
                           "4Z8W4fKeB5-xbusRsdQVPb" "track"))).
    reflexivity.
  - apply (proj2 (proj2 (validate_spotify_id_accepts
                           "4Z8W4fKeB5YxbusRsdQVPb" "track"))).
    reflexivity.
Defined.

Section WriteRoutes.
Import Py Run FavoritesManager FavoritesWrites Validation AppWrites.
Context {World : Type} (sp : Spotify World) (spw : SpotifyWrites World).
Local Open Scope Z_scope.

Lemma write_route_run
    (op : list string -> World -> outcome unit * World)
    (ev : list string -> outcome unit -> event) (c : ascii) (s : string)
    (done : string) (track_id : string) (w : World)
    (method : M World event (bool * option string)) :
  method
  = (if blank strip_ascii track_id
     then ret (false, Some "ID da música inválido.")
     else
       do (ok, error) <- reading (_validate_authentication sp);
       if str_truthy error || negb ok
       then ret (false, Some (str_or error "Erro na autenticação"))
       else
         do r <- call (op [strip_ascii track_id])
                      (ev [strip_ascii track_id]);
         match r with
         | Ok _ => ret (true, None)
         | Raise e => ret (false, Some (String c s +:+ e))
         end)%run ->
  str_truthy (Some done) = true ->
  write_route_contract sp track_id w
    (match validate_spotify_id track_id "track" with
     | Raise e =>
         ret {| success := false;
                message := Some ("ID de música inválido: " +:+ e);
                status := 400 |}
     | Ok _ =>
         (do (ok, error) <- method;
          if ok then
            ret {| success := true; message := Some done; status := 200 |}
          else ret {| success := false; message := error; status := 400 |})%run
     end w) op ev.
Proof.
  intros Hm Hdone. unfold write_route_contract.
  destruct (well_formed_id track_id) eqn:Hwf.
  - assert (Hv : validate_spotify_id track_id "track" = Ok true)
      by now apply validate_spotify_id_iff.
    rewrite Hv. destruct (well_formed_not_blank track_id Hwf) as [Hs Hb].
    pose proof (write_run sp strip_ascii op ev (String c s) track_id w)
      as Hrun.
    cbv zeta in Hrun. rewrite <- Hm, Hs, Hb in Hrun.
    unfold bind.
    destruct Hrun as [[[=] _]|[(_ & Ha & e & He & ->)|(_ & Ha & ->)]];
      rewrite Ha; cbn [andb].
    + unfold ret. cbn [value world trace fst snd success status message].
      repeat split; eauto.
    + destruct (fst (op [track_id] _)) as [u|e];
        cbn [write_result raised negb]; unfold ret;
        cbn [value world trace fst snd success status message app];
        repeat split; eauto.
  - destruct (validate_spotify_id_raises track_id "track" Hwf) as [m ->].
    unfold ret. cbn [value world trace fst snd success status message andb].
    repeat split; eauto.
Qed.

End WriteRoutes.

(** X5.  [add_favorite] and [remove_favorite] never reach the adapter with
    an id that is not 22 ASCII letters and digits: they answer 400 and the
    world is untouched.  A well-formed id is sent to the client as it is,
    once, when the user is authenticated.  The status is 200 exactly on
    success, that is when the call was made and did not raise, and 400
    otherwise; and the answer always carries a truthy message. *)
Theorem write_routes_validated {World : Type}
    (sp : FavoritesManager.Spotify World)
    (spw : FavoritesWrites.SpotifyWrites World)
    (track_id : string) (w : World) :
  AppWrites.write_route_contract sp track_id w
    (AppWrites.add_favorite sp spw Py.strip_ascii track_id w)
    (FavoritesWrites.current_user_saved_tracks_add spw)
    FavoritesWrites.Api_saved_tracks_add
  /\ AppWrites.write_route_contract sp track_id w
       (AppWrites.remove_favorite sp spw Py.strip_ascii track_id w)
       (FavoritesWrites.current_user_saved_tracks_delete spw)
       FavoritesWrites.Api_saved_tracks_delete.
Proof.
  split.
  - apply (write_route_run sp _ _ "E"%char "rro ao adicionar aos favoritos: ");
      reflexivity.
  - apply (write_route_run sp _ _ "E"%char "rro ao remover dos favoritos: ");
      reflexivity.
Qed.

(** ** The two favourites routes, side by side *)

(** X6.  For the same request in the same world the page route and the
    JSON route show the same thing.  Either both report the error of the
    adapter, a truthy string, the page route with no tracks, total 0 and
    page 1; or neither reports an error and they carry the same tracks,
    total and page, and the same limit unless [limit > 1000], where the
    page route says 9999 and the JSON route the total. *)
Theorem routes_agree {World : Type} (sp : FavoritesManager.Spotify World)
    (casefold : string -> string) (fuel : nat) (page limit : Z)
    (sort : string) (w : World) :
  match Run.value (App.api_favoritos sp casefold fuel page limit sort w),
        Run.value (App.favoritos sp casefold fuel page limit sort w) with
  | Some (App.Failure error), Some tpl =>
      App.tpl_error tpl = error /\ Py.str_truthy error = true
      /\ App.tpl_tracks tpl = [] /\ App.tpl_total tpl = 0%Z
      /\ App.tpl_page tpl = 1%Z
  | Some (App.Success body), Some tpl =>
      App.tpl_error tpl = None
      /\ App.js_tracks body = map App.to_dict (App.tpl_tracks tpl)
      /\ App.js_total body = App.tpl_total tpl
      /\ App.js_page body = App.tpl_page tpl
      /\ App.tpl_sort tpl = sort
      /\ App.js_limit body
         = (if (limit >? 1000)%Z then App.js_total body else App.tpl_limit tpl)
      /\ App.tpl_limit tpl
         = (if (limit >? 1000)%Z then 9999%Z
            else Z.min (Z.max 20 limit) 100)
  | None, None => True
  | _, _ => False
  end.
Proof.
  unfold App.api_favoritos, App.favoritos.
  fold (App.fetch_all limit sort).
  destruct (App.fetch_all limit sort) eqn:Hf.
  - unfold Run.bind.
    destruct (FavoritesManager.get_all_saved_tracks sp fuel w)
      as [[[[tracks error]|] w1] t1]; [|exact I].
    destruct (Py.str_truthy error) eqn:He; [now repeat split|].
    destruct (limit >? 1000)%Z eqn:Hl; cbn; rewrite ?Hl; now repeat split.
  - assert (Hl : (limit >? 1000)%Z = false).
    { unfold App.fetch_all in Hf. now apply orb_false_iff in Hf as [Hf _]. }
    cbv zeta. unfold Run.bind.
    destruct (FavoritesManager.get_saved_tracks sp _ _ w)
      as [[[tracks error] w1] t1].
    destruct (Py.str_truthy error) eqn:He; cbv beta iota;
      destruct (FavoritesManager.get_total_saved_tracks sp w1)
        as [[[total total_error] w2] t2];
      cbn; rewrite ?He, ?Hl; now repeat split.
Qed.

Section PagedRequest.
Import Py Models Run FavoritesManager App.
Context {World : Type} (sp : Spotify World) (casefold : string -> string).
Local Open Scope Z_scope.

Lemma get_saved_tracks_auth (limit offset : Z) (w : World) :
  authenticated sp w = true ->
  exists r,
    trace (get_saved_tracks sp limit offset w)
    = [Called_get_saved_tracks limit offset;
       Api_saved_tracks (Z.max 1 (Z.min 50 limit)) (Z.max 0 offset) r].
Proof.
  intros Ha. destruct (authenticated_inv sp w Ha) as [w0 Hv].
  unfold get_saved_tracks, MAX_TRACKS_PER_REQUEST.
  unfold bind, emit, call, ret. rewrite Hv. cbn [str_truthy negb orb].
  destruct (current_user_saved_tracks sp _ _ w0) as [[[r|]|e] w1];
    eexists; reflexivity.
Qed.

Lemma paged_trace {B} (k : list Track * option string -> M World event B)
    (limit offset : Z) (w : World) :
  authenticated sp w = true ->
  exists r rest,
    trace (bind (get_saved_tracks sp limit offset) k w)
    = Called_get_saved_tracks limit offset
      :: Api_saved_tracks (Z.max 1 (Z.min 50 limit)) (Z.max 0 offset) r
      :: rest.
Proof.
  intros Ha. destruct (get_saved_tracks_auth limit offset w Ha) as [r Hr].
  rewrite bind_run. cbn [trace snd].
  fold (trace (get_saved_tracks sp limit offset w)). rewrite Hr.
  exists r. eexists. reflexivity.
Qed.

End PagedRequest.

(** X7.  In the paged branch, for a logged-in user, the first thing both
    routes do is ask the client for [min(50, limit)] tracks at the offset
    [(page - 1) * limit], [limit] being the requested limit clamped to
    [20..100] and [page] the page raised to 1: the adapter caps what the
    route asks for at 50, while the offsets of two pages in a row stay
    [limit] apart. *)
Theorem paged_branch_request {World : Type}
    (sp : FavoritesManager.Spotify World) (casefold : string -> string)
    (fuel : nat) (page limit : Z) (sort : string) (w : World) :
  App.fetch_all limit sort = false ->
  FavoritesManager.authenticated sp w = true ->
  let l := Z.min (Z.max 20 limit) 100 in
  let offset p := ((Z.max 1 p - 1) * l)%Z in
  (exists r rest,
      Run.trace (App.api_favoritos sp casefold fuel page limit sort w)
      = FavoritesManager.Called_get_saved_tracks l (offset page)
        :: FavoritesManager.Api_saved_tracks (Z.min 50 l) (offset page) r
        :: rest)
  /\ (exists r rest,
         Run.trace (App.favoritos sp casefold fuel page limit sort w)
         = FavoritesManager.Called_get_saved_tracks l (offset page)
           :: FavoritesManager.Api_saved_tracks (Z.min 50 l) (offset page) r
           :: rest)
  /\ (20 <= Z.min 50 l <= 50)%Z
  /\ offset (Z.max 1 page + 1)%Z = (offset page + l)%Z.
Proof.
  intros Hf Ha l offset.
  assert (Hl : Z.max 1 (Z.min 50 l) = Z.min 50 l) by (subst l; lia).
  assert (Ho : Z.max 0 (offset page) = offset page)
    by (subst offset l; cbv beta; nia).
  split; [|split; [|split]].
  - unfold App.api_favoritos. fold (App.fetch_all limit sort).
    rewrite Hf. cbv zeta. fold l. fold (offset page).
    match goal with
    | |- context [Run.bind (FavoritesManager.get_saved_tracks sp ?a ?b) ?k w] =>
        destruct (paged_trace sp k a b w Ha) as (r & rest & Ht)
    end.
    rewrite Hl, Ho in Ht. exists r, rest. exact Ht.
  - unfold App.favoritos. rewrite Hf. cbv zeta. fold l. fold (offset page).
    match goal with
    | |- context [Run.bind (FavoritesManager.get_saved_tracks sp ?a ?b) ?k w] =>
        destruct (paged_trace sp k a b w Ha) as (r & rest & Ht)
    end.
    rewrite Hl, Ho in Ht. exists r, rest. exact Ht.
  - subst l. lia.
  - subst offset l. cbv beta. nia.
Qed.

(** Page 2 of 100 for a logged-in user: 50 tracks are asked at offset
    100. *)
Lemma paged_branch_request_witness :
  let w := Replay.logged_in (Replay.library_pages 90) [] in
  exists r rest,
    Run.trace (App.api_favoritos Replay.client Py.casefold_ascii 1000 2 100
                 "default" w)
    = FavoritesManager.Called_get_saved_tracks 100 100
      :: FavoritesManager.Api_saved_tracks 50 100 r :: rest.
Proof.
  intros w.
  apply (proj1 (paged_branch_request Replay.client Py.casefold_ascii 1000 2
                  100 "default" w eq_refl eq_refl)).
Defined.

Section SortedPages.
Import Py Models Run FavoritesManager App Pages.
Context {World : Type} (sp : Spotify World) (casefold : string -> string).
Local Open Scope Z_scope.

Lemma api_sorted_page (fuel : nat) (page limit : Z) (sort : string)
    (w w' : World) (tracks : list Track) (t : list event) :
  sort <> "default" -> limit <= 1000 ->
  get_all_saved_tracks sp fuel w = (Some (tracks, None), w', t) ->
  let l := Z.min (Z.max 20 limit) 100 in
  let start := (Z.max 1 page - 1) * l in
  shown (value (api_favoritos sp casefold fuel page limit sort w))
  = map to_dict
      (take (Z.to_nat l)
         (drop (Z.to_nat start) (sort_tracks casefold sort tracks))).
Proof.
  intros Hsort Hlimit Hfetch l start.
  assert (Hb : (limit >? 1000) = false)
    by (rewrite Z.gtb_ltb; apply Z.ltb_ge; lia).
  assert (Hs : String.eqb sort "default" = false)
    by (now apply String.eqb_neq).
  unfold api_favoritos. rewrite Hb, Hs. cbn [orb negb].
  unfold bind. rewrite Hfetch. cbn [str_truthy]. cbv beta iota zeta.
  unfold ret. cbn [value fst shown js_tracks].
  replace (Z.max 1 (Z.max 1 page)) with (Z.max 1 page) by lia.
  fold l. fold start. rewrite slice_nonneg by (subst start l; nia).
  do 2 f_equal. lia.
Qed.

Lemma pages_take {A} (xs : list A) (size : nat) (n : nat) :
  flat_map (fun k => take size (drop (k * size) xs)) (seq 0 n)
  = take (n * size) xs.
Proof.
  induction n as [|n IH]; [reflexivity|].
  rewrite seq_S, flat_map_app, IH. simpl. rewrite app_nil_r.
  rewrite take_take_drop. f_equal. lia.
Qed.

End SortedPages.

(** X8.  With a sort other than ['default'] and [limit <= 1000], the pages
    1 to [total_pages] of the JSON route, asked of the same library, hold
    every track of the sorted sequence once and in order; a page after the
    last is empty, and no page holds more than [limit] tracks. *)
Theorem sorted_pages_cover {World : Type}
    (sp : FavoritesManager.Spotify World) (casefold : string -> string)
    (fuel : nat) (limit : Z) (sort : string) (w w' : World)
    (tracks : list Models.Track) (t : list FavoritesManager.event) :
  sort <> "default" -> (limit <= 1000)%Z ->
  FavoritesManager.get_all_saved_tracks sp fuel w
  = (Some (tracks, None), w', t) ->
  let l := Z.min (Z.max 20 limit) 100 in
  let pages := ((Py.len tracks + l - 1) / l)%Z in
  let page p :=
    Pages.shown
      (Run.value (App.api_favoritos sp casefold fuel p limit sort w)) in
  flat_map page (map (fun k => (Z.of_nat k + 1)%Z) (seq 0 (Z.to_nat pages)))
  = map App.to_dict (App.sort_tracks casefold sort tracks)
  /\ (forall p, (pages < p)%Z -> page p = [])
  /\ (forall p, (length (page p) <= Z.to_nat l)%nat).
Proof.
  intros Hsort Hlimit Hfetch l pages page.
  assert (Hl : (20 <= l <= 100)%Z) by (subst l; lia).
  pose proof (total_pages_ceiling (Py.len tracks) l ltac:(lia)) as Hc.
  cbv zeta in Hc. fold pages in Hc.
  pose proof (sort_tracks_len casefold sort tracks) as Hlen.
  unfold Py.len in Hlen, Hc. apply Nat2Z.inj in Hlen.
  assert (Hpage : forall p,
             page p
             = map App.to_dict
                 (take (Z.to_nat l)
                    (drop (Z.to_nat ((Z.max 1 p - 1) * l))
                       (App.sort_tracks casefold sort tracks)))).
  { intros p. subst page. cbv beta.
    now rewrite (api_sorted_page sp casefold fuel p limit sort w w' tracks t). }
  split; [|split].
  - rewrite flat_map_concat_map, map_map, <- flat_map_concat_map.
    erewrite flat_map_ext.
    2: { intros k. rewrite Hpage.
         replace (Z.to_nat ((Z.max 1 (Z.of_nat k + 1) - 1) * l))
           with (k * Z.to_nat l)%nat by nia.
         reflexivity. }
    transitivity
      (map App.to_dict
         (take (Z.to_nat pages * Z.to_nat l)
            (App.sort_tracks casefold sort tracks))).
    + rewrite <- pages_take.
      induction (seq 0 (Z.to_nat pages)) as [|k ks IH]; [reflexivity|].
      simpl. now rewrite map_app, IH.
    + rewrite take_ge; [reflexivity|]. rewrite Hlen. nia.
  - intros p Hp. rewrite Hpage.
    rewrite drop_ge; [now rewrite take_nil|]. rewrite Hlen. nia.
  - intros p. rewrite Hpage, length_map, length_take. lia.
Qed.

(** The three pages of 20 of a library of 57 tracks sorted by artist. *)
Lemma sorted_pages_cover_witness :
  let w := Replay.logged_in (Replay.library_pages 57) [] in
  let page p :=
    Pages.shown
      (Run.value (App.api_favoritos Replay.client Py.casefold_ascii 1000
                    p 20 "artist-asc" w)) in
  flat_map page [1; 2; 3]%Z
  = map App.to_dict
      (App.sort_tracks Py.casefold_ascii "artist-asc"
         (map Replay.track (seq 0 57))).
Proof.
  intros w page.
  refine (proj1 (sorted_pages_cover Replay.client Py.casefold_ascii 1000 20
                   "artist-asc" w
                   (Run.world (FavoritesManager.get_all_saved_tracks
                                 Replay.client 1000 w))
                   (map Replay.track (seq 0 57))
                   (Run.trace (FavoritesManager.get_all_saved_tracks
                                 Replay.client 1000 w)) _ _ _)).
  - discriminate.
  - lia.
  - vm_compute. reflexivity.
Defined.

(** ** Invalidation *)

Section Invalidation.
Import Py Run CacheManager CacheAdmin.
Context {World : Type} (redis : Redis World) (admin : RedisAdmin World).
Local Open Scope Z_scope.

Lemma commands_app (t1 t2 : list event) :
  commands (t1 ++ t2) = commands t1 ++ commands t2.
Proof. apply List.filter_app. Qed.

(** The liveness check sends no command. *)
Lemma enabled_commands (self : t) (w : World) :
  commands (map Cache (trace (enabled redis self w))) = [].
Proof.
  unfold enabled. destruct (_enabled self); [|reflexivity].
  unfold bind, call. simpl.
  destruct (ping redis w) as [[u|e] w1]; reflexivity.
Qed.

Lemma call_run {A} (op : World -> A * World) (ev : A -> event) (w : World) :
  call op ev w = (fst (op w), snd (op w), [ev (fst (op w))]).
Proof. unfold call. destruct (op w) as [a w1]. reflexivity. Qed.

Lemma caching_run {A} (m : Run.M World CacheManager.event A) (w : World) :
  caching m w = (value (m w), world (m w), map Cache (trace (m w))).
Proof. unfold caching. destruct (m w) as [[a w1] t1]. reflexivity. Qed.

Lemma delete_pattern_run (self : t) (pattern : string) (w : World) :
  let run := delete_pattern redis admin self pattern w in
  pattern_deleted pattern (commands (trace run)) (value run).
Proof.
  intros run. subst run. unfold delete_pattern.
  rewrite bind_run, caching_run. cbn [value world trace fst snd].
  rewrite commands_app, enabled_commands. cbn [app].
  destruct (value (enabled redis self w)); cbn [negb].
  2: { left. split; reflexivity. }
  unfold bind, call.
  destruct (redis_keys admin pattern _) as [[[|k keys]|e] w1].
  - right. left. exists (Ok []). repeat split. now left.
  - destruct (redis_delete admin (k :: keys) w1) as [[n|e] w2];
      right; right; eexists (k :: keys), _; repeat split; discriminate.
  - right. left. exists (Raise e). repeat split. right. now exists e.
Qed.

End Invalidation.

(** X9.  The route that clears the cache sends [FLUSHDB], which empties
    the whole database, for the pattern ['*'] alone, and then nothing
    else; for any other pattern it sends at most a [KEYS] for that pattern
    and a [DEL] of exactly the keys that [KEYS] returned, and reports
    success when the count returned by [DEL] is positive.  With Redis down
    no command is sent and the answer is a failure. *)
Theorem cache_clear_commands {World : Type}
    (redis : CacheManager.Redis World) (admin : CacheAdmin.RedisAdmin World)
    (self : CacheManager.t) (pattern : string) (w : World) :
  let run := CacheAdmin.cache_clear redis admin self pattern w in
  let cmds := CacheAdmin.commands (Run.trace run) in
  (if String.eqb pattern "*"
   then (cmds = [] /\ fst (Run.value run) = false)
        \/ exists r, cmds = [CacheAdmin.Redis_flushdb r]
                     /\ fst (Run.value run) = negb (FavoritesManager.raised r)
   else exists n, CacheAdmin.pattern_deleted pattern cmds n
                  /\ fst (Run.value run) = (n >? 0)%Z)
  /\ (Run.value (CacheManager.enabled redis self w) = false ->
      cmds = [] /\ fst (Run.value run) = false).
Proof.
  intros run cmds. subst cmds run. unfold CacheAdmin.cache_clear. split.
  - destruct (String.eqb pattern "*").
    + unfold CacheAdmin.clear_all.
      rewrite !bind_run, caching_run.
      cbn [Run.value Run.world Run.trace fst snd].
      rewrite !commands_app, enabled_commands. cbn [app].
      destruct (Run.value (CacheManager.enabled redis self w)); cbn [negb].
      2: { left. split; reflexivity. }
      right. unfold Run.bind, Run.call.
      destruct (CacheAdmin.redis_flushdb admin _) as [[u|e] w1];
        eexists; split; reflexivity.
    + rewrite bind_run. cbn [Run.value Run.trace fst snd Run.ret].
      rewrite app_nil_r.
      exists (Run.value (CacheAdmin.delete_pattern redis admin self pattern w)).
      split; [apply delete_pattern_run | reflexivity].
  - intros Hd. destruct (String.eqb pattern "*").
    + unfold CacheAdmin.clear_all.
      rewrite !bind_run, caching_run.
      cbn [Run.value Run.world Run.trace fst snd].
      rewrite !commands_app, enabled_commands, Hd. split; reflexivity.
    + unfold CacheAdmin.delete_pattern.
      rewrite !bind_run, caching_run.
      cbn [Run.value Run.world Run.trace fst snd].
      rewrite !commands_app, enabled_commands, Hd. split; reflexivity.
Qed.

Section Wrapper.
Import Py Run CacheManager CacheAdmin.
Context {World : Type} (redis : Redis World) (admin : RedisAdmin World).
Local Open Scope Z_scope.

Lemma enabled_no_invocation (self : t) (w : World) :
  List.filter is_invocation (map Cache (trace (enabled redis self w))) = [].
Proof.
  unfold enabled. destruct (_enabled self); [|reflexivity].
  unfold bind, call. simpl.
  destruct (ping redis w) as [[u|e] w1]; reflexivity.
Qed.

Lemma delete_pattern_no_invocation (self : t) (pattern : string) (w : World) :
  List.filter is_invocation (trace (delete_pattern redis admin self pattern w))
  = [].
Proof.
  unfold delete_pattern.
  rewrite bind_run, caching_run. cbn [value world trace fst snd].
  rewrite List.filter_app, enabled_no_invocation. cbn [app].
  destruct (value (enabled redis self w)); cbn [negb]; [|reflexivity].
  unfold bind, call.
  destruct (redis_keys admin pattern _) as [[[|k keys]|e] w1];
    try reflexivity.
  destruct (redis_delete admin (k :: keys) w1) as [[n|e] w2]; reflexivity.
Qed.

End Wrapper.

(** X10.  The wrapper of [invalidate_cache(pattern)] is transparent: it
    returns what the wrapped operation returns or raises, whatever Redis
    does.  The operation is invoked once, before anything else.  Redis is
    touched only after the operation has returned: when it raises, or when
    the application has no cache manager, nothing more happens and the
    world is the one the operation left.  What follows otherwise is at
    most the [KEYS] of the pattern and the [DEL] of the keys found, never a
    [FLUSHDB]. *)
Theorem invalidate_cache_transparent {World : Type}
    (redis : CacheManager.Redis World) (admin : CacheAdmin.RedisAdmin World)
    (pattern : string)
    (f : list CacheManager.arg -> CacheManager.kwargs -> World
         -> Py.outcome CacheManager.pyvalue * World)
    (cache_manager : option CacheManager.t)
    (args : list CacheManager.arg) (kw : CacheManager.kwargs) (w : World) :
  let run :=
    CacheAdmin.invalidate_cache redis admin pattern f cache_manager args kw w
  in
  let result := fst (f args kw w) in
  Run.value run = result
  /\ exists rest,
       Run.trace run
       = CacheAdmin.Cache (CacheManager.Invoked args kw result) :: rest
       /\ List.filter CacheAdmin.is_invocation rest = []
       /\ (exists n,
              CacheAdmin.pattern_deleted pattern (CacheAdmin.commands rest) n)
       /\ (FavoritesManager.raised result = true \/ cache_manager = None ->
           rest = [] /\ Run.world run = snd (f args kw w)).
Proof.
  intros run result. subst run result.
  unfold CacheAdmin.invalidate_cache.
  rewrite bind_run, !call_run.
  destruct (f args kw w) as [[v|e] w1];
    cbn [Run.value Run.world Run.trace fst snd Run.ret app].
  2: { split; [reflexivity|]. exists [].
       split; [reflexivity|]. split; [reflexivity|].
       split; [|intros _; split; reflexivity].
       exists 0%Z. left. split; reflexivity. }
  destruct cache_manager as [cm|].
  2: { split; [reflexivity|]. exists [].
       split; [reflexivity|]. split; [reflexivity|].
       split; [|intros _; split; reflexivity].
       exists 0%Z. left. split; reflexivity. }
  rewrite bind_run, caching_run. cbn [Run.value Run.world Run.trace fst snd].
  destruct (Run.value (CacheManager.enabled redis cm w1)).
  - rewrite bind_run. cbn [Run.value Run.world Run.trace fst snd Run.ret].
    split; [reflexivity|]. eexists. split; [reflexivity|].
    rewrite app_nil_r.
    split; [|split].
    + rewrite List.filter_app, enabled_no_invocation,
        delete_pattern_no_invocation. reflexivity.
    + rewrite commands_app, enabled_commands. cbn [app].
      eexists. apply delete_pattern_run.
    + intros [H|H]; discriminate.
  - cbn [Run.value Run.world Run.trace fst snd Run.ret].
    split; [reflexivity|]. eexists. split; [reflexivity|].
    rewrite app_nil_r. split; [|split].
    + apply enabled_no_invocation.
    + rewrite enabled_commands. exists 0%Z. left. split; reflexivity.
    + intros [H|H]; discriminate.
Qed.

(** ** Keys of different operations *)

Section KeyPrefixes.
Import Py CacheManager.

Lemma chars_of_append (s1 s2 : string) :
  list_ascii_of_string (s1 +:+ s2)
  = list_ascii_of_string s1 ++ list_ascii_of_string s2.
Proof.
  induction s1 as [|c s1 IH]; [reflexivity|].
  rewrite append_cons. simpl. now rewrite IH.
Qed.

Lemma chars_inj (s1 s2 : string) :
  list_ascii_of_string s1 = list_ascii_of_string s2 -> s1 = s2.
Proof.
  intros H. rewrite <- (string_of_list_ascii_of_string s1),
    <- (string_of_list_ascii_of_string s2). now rewrite H.
Qed.

(** Two texts that end in tails of one length and agree as wholes agree on
    what precedes the tails. *)
Lemma append_cancel_tail (x y t1 t2 : string) :
  String.length t1 = String.length t2 ->
  x +:+ t1 = y +:+ t2 -> x = y /\ t1 = t2.
Proof.
  intros Hl H. apply (f_equal list_ascii_of_string) in H.
  rewrite !chars_of_append in H.
  apply app_inj_2 in H.
  - destruct H as [H1 H2]. split; now apply chars_inj.
  - rewrite <- !string_of_list_length, !string_of_list_ascii_of_string.
    exact Hl.
Qed.

Lemma generate_key_inj (p1 p2 : string) (a1 a2 : list arg) (k1 k2 : kwargs) :
  _generate_key p1 a1 k1 = _generate_key p2 a2 k2 ->
  p1 = p2
  /\ str_slice (MD5.hexdigest (key_string a1 k1)) 0 16
     = str_slice (MD5.hexdigest (key_string a2 k2)) 0 16.
Proof.
  unfold _generate_key. cbv zeta. intros H.
  apply append_cancel_l in H.
  apply append_cancel_tail in H.
  - destruct H as [Hp H]. split; [exact Hp|].
    now apply (append_cancel_l ":") in H.
  - change (":" +:+ ?h) with (String ":" h). cbn [String.length].
    destruct (key_hash_shape (key_string a1 k1)) as [-> _].
    destruct (key_hash_shape (key_string a2 k2)) as [-> _].
    reflexivity.
Qed.

End KeyPrefixes.

(** X11.  Operations cached under different prefixes never share a key,
    whatever their arguments and whatever the prefixes hold, colons
    included: the digest that ends a key has a fixed length, so the prefix
    can be read back from the key. *)
Theorem cache_key_prefix_separates (p1 p2 : string)
    (a1 a2 : list CacheManager.arg) (k1 k2 : CacheManager.kwargs) :
  p1 <> p2 ->
  CacheManager._generate_key p1 a1 k1 <> CacheManager._generate_key p2 a2 k2.
Proof.
  intros Hp H. apply generate_key_inj in H. now destruct H.
Qed.

Lemma cache_key_prefix_separates_witness :
  "search" <> "search:tracks"
  /\ CacheManager._generate_key "search" [CacheManager.AStr "tracks"] []
     <> CacheManager._generate_key "search:tracks" [] [].
Proof.
  assert (H : "search" <> "search:tracks") by discriminate.
  split; [exact H|].
  exact (cache_key_prefix_separates "search" "search:tracks"
           [CacheManager.AStr "tracks"] [] [] [] H).
Defined.

(** ** Search queries *)

Section SanitizeFacts.
Import Sanitize.
Local Open Scope Z_scope.

Lemma split_scan_app (P : Z -> Prop) (word s : text) :
  Forall P word -> Forall P s -> Forall (Forall P) (split_scan word s).
Proof.
  revert word. induction s as [|c s IH]; intros word Hw Hs; simpl.
  - destruct word; [constructor|]. constructor; [exact Hw|constructor].
  - apply Forall_cons in Hs as [Hc Hs].
    destruct (is_space c).
    + destruct word; [now apply IH|].
      constructor; [exact Hw|]. now apply IH.
    + apply IH; [|exact Hs]. apply Forall_app. split; [exact Hw|].
      now repeat constructor.
Qed.

Lemma split_scan_no_space (word s : text) :
  Forall (fun c => is_space c = false) word ->
  Forall (Forall (fun c => is_space c = false)) (split_scan word s).
Proof.
  revert word. induction s as [|c s IH]; intros word Hw; simpl.
  - destruct word; [constructor|]. constructor; [exact Hw|constructor].
  - destruct (is_space c) eqn:Hc.
    + destruct word; [now apply IH|].
      constructor; [exact Hw|]. now apply IH.
    + apply IH. apply Forall_app. split; [exact Hw|].
      now repeat constructor.
Qed.

Lemma split_scan_nonempty (word s : text) :
  Forall (fun w => w <> []) (split_scan word s).
Proof.
  revert word. induction s as [|c s IH]; intros word; simpl.
  - destruct word; [constructor|]. constructor; [discriminate|constructor].
  - destruct (is_space c).
    + destruct word; [apply IH|]. constructor; [discriminate|apply IH].
    + apply IH.
Qed.

Lemma split_scan_concat (word s : text) :
  concat (split_scan word s)
  = word ++ List.filter (fun c => negb (is_space c)) s.
Proof.
  revert word. induction s as [|c s IH]; intros word; simpl.
  - destruct word; simpl; now rewrite ?app_nil_r.
  - destruct (is_space c); simpl.
    + destruct word; simpl; now rewrite IH.
    + rewrite IH, <- app_assoc. reflexivity.
Qed.

Lemma words_join_cons (sep p : text) (rest : list text) :
  rest <> [] -> join sep (p :: rest) = p ++ sep ++ join sep rest.
Proof. destruct rest; [congruence|reflexivity]. Qed.

Lemma join_length (words : list text) :
  (length (join space words) <= length (concat words) + length words)%nat.
Proof.
  induction words as [|p [|q rest] IH]; simpl in *.
  - lia.
  - rewrite app_nil_r. lia.
  - rewrite !length_app in *. simpl in *. lia.
Qed.

Lemma split_scan_length (word s : text) :
  (length (join space (split_scan word s)) <= length word + length s)%nat.
Proof.
  revert word. induction s as [|c s IH]; intros word.
  - simpl. destruct word; simpl; lia.
  - simpl split_scan. destruct (is_space c).
    + destruct word as [|d word].
      * specialize (IH []). simpl in *. lia.
      * specialize (IH []).
        destruct (split_scan [] s) as [|q rest] eqn:Hq.
        -- simpl. lia.
        -- rewrite words_join_cons by discriminate.
           rewrite !length_app. simpl in *. lia.
    + specialize (IH (word ++ [c])). rewrite length_app in IH.
      simpl in *. lia.
Qed.

(** Scanning a word that holds no white space only extends the word read
    so far. *)
Lemma split_scan_word (word u rest : text) :
  Forall (fun c => is_space c = false) u ->
  split_scan word (u ++ rest) = split_scan (word ++ u) rest.
Proof.
  revert word. induction u as [|c u IH]; intros word Hu.
  - now rewrite app_nil_r.
  - apply Forall_cons in Hu as [Hc Hu]. simpl. rewrite Hc.
    rewrite IH by exact Hu. now rewrite <- app_assoc.
Qed.

Lemma split_join (words : list text) :
  Forall clean_word words -> split (join space words) = words.
Proof.
  unfold split. induction words as [|u words IH]; intros Hw; [reflexivity|].
  apply Forall_cons in Hw as [[Hne Hu] Hw].
  assert (Hsp : Forall (fun c => is_space c = false) u).
  { eapply Forall_impl; [exact Hu|]. now intros c [H _]. }
  destruct words as [|v words].
  - simpl. rewrite <- (app_nil_r u) at 1.
    rewrite split_scan_word by exact Hsp. simpl.
    destruct u; congruence.
  - rewrite words_join_cons by discriminate.
    rewrite split_scan_word by exact Hsp.
    change (space ++ ?x) with (32 :: x). simpl app.
    cbn [split_scan]. change (is_space 32) with true. cbv iota.
    rewrite (IH Hw). destruct u; congruence.
Qed.

Lemma lstrip_id (s : text) :
  match s with c :: _ => is_space c = false | [] => True end ->
  lstrip s = s.
Proof. destruct s as [|c s]; [trivial|]. simpl. now intros ->. Qed.

(** The joined words start and end with a character of a word. *)
Lemma join_head (words : list text) :
  Forall clean_word words ->
  match join space words with
  | c :: _ => is_space c = false
  | [] => True
  end.
Proof.
  intros Hw. destruct words as [|u words]; [exact I|].
  apply Forall_cons in Hw as [[Hne Hu] _].
  destruct u as [|c u]; [congruence|].
  apply Forall_cons in Hu as [[Hc _] _].
  destruct words; simpl; exact Hc.
Qed.

Lemma join_last (words : list text) :
  Forall clean_word words ->
  match rev (join space words) with
  | c :: _ => is_space c = false
  | [] => True
  end.
Proof.
  induction words as [|u words IH]; intros Hw; [exact I|].
  apply Forall_cons in Hw as [[Hne Hu] Hw].
  destruct words as [|v words].
  - simpl. destruct (rev u) as [|c r] eqn:Hr; [exact I|].
    assert (Hin : In c u) by (apply in_rev; rewrite Hr; now left).
    rewrite List.Forall_forall in Hu. now apply Hu.
  - rewrite words_join_cons by discriminate. rewrite !rev_app_distr.
    specialize (IH Hw).
    destruct (rev (join space (v :: words))) as [|c r] eqn:Hr.
    + apply (f_equal (@length Z)) in Hr. rewrite length_rev in Hr.
      apply Forall_cons in Hw as [[Hv _] _].
      destruct v; [congruence|].
      destruct words; simpl in Hr; [discriminate|].
      rewrite length_app in Hr. simpl in Hr. lia.
    + simpl. exact IH.
Qed.

Lemma strip_join (words : list text) :
  Forall clean_word words -> strip (join space words) = join space words.
Proof.
  intros Hw. unfold strip.
  rewrite (lstrip_id (join space words)) by now apply join_head.
  rewrite (lstrip_id (rev _)) by now apply join_last.
  apply rev_involutive.
Qed.

Lemma remove_controls_free (s : text) :
  Forall (fun c => is_control c = false) (remove_controls s).
Proof.
  unfold remove_controls. apply List.Forall_forall. intros c Hc.
  apply List.filter_In in Hc as [_ Hc]. now apply negb_true_iff.
Qed.

Lemma remove_controls_id (s : text) :
  Forall (fun c => is_control c = false) s -> remove_controls s = s.
Proof.
  unfold remove_controls. induction 1 as [|c s Hc _ IH]; [reflexivity|].
  simpl. rewrite Hc. simpl. now rewrite IH.
Qed.

Lemma slice_prefix {A} (l : list A) (stop : Z) :
  Py.slice l 0 stop
  = take (Z.to_nat (Py.slice_bound (Py.len l) stop)) l.
Proof.
  unfold Py.slice. cbv zeta.
  assert (H0 : Py.slice_bound (Py.len l) 0 = 0).
  { unfold Py.slice_bound, Py.len. simpl. lia. }
  rewrite H0, Z.sub_0_r. reflexivity.
Qed.

Lemma slice_free {A} (P : A -> Prop) (l : list A) (stop : Z) :
  Forall P l -> Forall P (Py.slice l 0 stop).
Proof. rewrite slice_prefix. apply Forall_take. Qed.

Lemma slice_length {A} (l : list A) (stop : Z) :
  0 <= stop -> Py.len (Py.slice l 0 stop) <= stop.
Proof.
  intros H. rewrite slice_prefix. unfold Py.len, Py.slice_bound.
  rewrite length_take. destruct (Z.ltb_spec stop 0); lia.
Qed.

Lemma slice_short {A} (l : list A) (stop : Z) :
  Py.len l <= stop -> Py.slice l 0 stop = l.
Proof.
  intros H. rewrite slice_prefix. unfold Py.len, Py.slice_bound in *.
  destruct (Z.ltb_spec stop 0); [lia|].
  apply take_ge. lia.
Qed.

(** The words of the query, as [sanitize_search_query] finds them. *)
Lemma sanitize_words (query : text) (max_length : Z) :
  let cut := Py.slice (remove_controls query) 0 max_length in
  sanitize_search_query query max_length = join space (split cut)
  /\ Forall clean_word (split cut).
Proof.
  intros cut.
  assert (Hclean : Forall clean_word (split cut)).
  { unfold split. apply List.Forall_forall. intros w Hw. split.
    - pose proof (split_scan_nonempty [] cut) as H.
      rewrite List.Forall_forall in H. now apply H.
    - pose proof (split_scan_no_space [] cut (List.Forall_nil _)) as H1.
      pose proof (split_scan_app (fun c => is_control c = false) [] cut
                    (List.Forall_nil _)
                    (slice_free _ _ _ (remove_controls_free query))) as H2.
      rewrite List.Forall_forall in H1, H2.
      specialize (H1 w Hw). specialize (H2 w Hw).
      rewrite List.Forall_forall in *. intros c Hc. split; auto. }
  split; [|exact Hclean].
  unfold sanitize_search_query. destruct query as [|c query].
  - subst cut. rewrite slice_prefix. simpl remove_controls.
    now rewrite take_nil.
  - cbv zeta. fold cut. now apply strip_join.
Qed.

Lemma join_free (words : list text) :
  Forall clean_word words ->
  Forall (fun c => is_control c = false) (join space words).
Proof.
  induction words as [|u words IH]; intros Hw; [constructor|].
  apply Forall_cons in Hw as [[_ Hu] Hw].
  assert (Hu' : Forall (fun c => is_control c = false) u).
  { eapply Forall_impl; [exact Hu|]. now intros c [_ H]. }
  destruct words as [|v words]; [exact Hu'|].
  rewrite words_join_cons by discriminate.
  apply Forall_app. split; [exact Hu'|].
  apply Forall_app. split; [now repeat constructor|]. now apply IH.
Qed.

(** With a negative [max_length] the slice drops characters from the end
    at every pass. *)
Example sanitize_negative_length :
  sanitize_search_query (sanitize_search_query [97; 98] (-1)) (-1)
  <> sanitize_search_query [97; 98] (-1).
Proof. vm_compute. discriminate. Qed.

End SanitizeFacts.


(** X12.  A sanitised search query is a sequence of words joined by single
    spaces (U+0020): every word is non-empty and holds neither white space
    nor a control character, so the query neither starts nor ends with
    white space and the final [strip] changes nothing.  The words hold, in
    order, the characters that are not white space of what is left of the
    query once its control characters are removed and the result is cut at
    [max_length]: nothing else is removed, nothing is added.  Tabs and line
    feeds are control characters: they vanish before the query is split,
    so they do not separate words. *)
Theorem sanitize_search_query_words (query : Sanitize.text) (max_length : Z) :
  let out := Sanitize.sanitize_search_query query max_length in
  (exists words,
      out = Sanitize.join Sanitize.space words
      /\ Forall Sanitize.clean_word words
      /\ concat words
         = List.filter (fun c => negb (Sanitize.is_space c))
             (Py.slice (Sanitize.remove_controls query) 0 max_length))
  /\ Forall (fun c => Sanitize.is_control c = false) out.
Proof.
  intros out. subst out.
  destruct (sanitize_words query max_length) as [Hs Hw].
  split.
  - eexists. split; [exact Hs|]. split; [exact Hw|].
    unfold Sanitize.split. now rewrite split_scan_concat.
  - rewrite Hs. now apply join_free.
Qed.

(** X13.  With a [max_length] that is not negative, the sanitised query
    has at most [max_length] characters and sanitising is idempotent: a
    query that went through it once is left as it is by a second pass. *)
Theorem sanitize_search_query_idempotent (query : Sanitize.text)
    (max_length : Z) :
  (0 <= max_length)%Z ->
  let out := Sanitize.sanitize_search_query query max_length in
  (Py.len out <= max_length)%Z
  /\ Sanitize.sanitize_search_query out max_length = out.
Proof.
  intros Hm out.
  destruct (sanitize_words query max_length) as [Hs Hw].
  fold out in Hs.
  set (cut := Py.slice (Sanitize.remove_controls query) 0 max_length) in *.
  assert (Hlen : (Py.len out <= max_length)%Z).
  { pose proof (slice_length (Sanitize.remove_controls query) max_length Hm)
      as Hc. fold cut in Hc.
    pose proof (split_scan_length [] cut) as Hj.
    fold (Sanitize.split cut) in Hj. rewrite <- Hs in Hj.
    unfold Py.len in *. simpl in Hj. lia. }
  assert (Hfree : Forall (fun c => Sanitize.is_control c = false) out).
  { rewrite Hs. now apply join_free. }
  split; [exact Hlen|].
  destruct (sanitize_words out max_length) as [Hs' _].
  rewrite Hs'. rewrite (remove_controls_id out Hfree).
  rewrite (slice_short out max_length Hlen).
  rewrite Hs at 1. rewrite split_join by exact Hw. now symmetry.
Qed.

Lemma sanitize_search_query_idempotent_witness :
  (0 <= 8)%Z
  /\ (let out :=
        Sanitize.sanitize_search_query
          [32; 104; 105; 9; 32; 32; 121; 111; 117; 32; 33]%Z 8 in
      (Py.len out <= 8)%Z
      /\ Sanitize.sanitize_search_query out 8 = out).
Proof.
  split; [lia|].
  apply (sanitize_search_query_idempotent
           [32; 104; 105; 9; 32; 32; 121; 111; 117; 32; 33]%Z 8).
  lia.
Defined.

(** ** The second route that adds a favourite *)

Section Favoritar.
Import Py Run FavoritesManager FavoritesWrites Validation AppWrites.
Context {World : Type} (sp : Spotify World) (spw : SpotifyWrites World).
Context (strip : string -> string).
Local Open Scope Z_scope.

(** The answer of [favoritar] to what [save_track] returned. *)
Lemma favoritar_string (d : list (string * json)) (track_id : string)
    (w : World) :
  dict_get "track_id" d = Some (JStr track_id) ->
  let saved := save_track sp spw strip track_id w in
  favoritar sp spw strip (Returned (JDict d)) w
  = (Returned
       (if fst (value saved)
        then {| success := true;
                message := Some "Música adicionada aos favoritos!";
                status := 200 |}
        else {| success := false; message := snd (value saved);
                status := 400 |}),
     world saved, trace saved).
Proof.
  intros Hget saved. subst saved. unfold favoritar.
  assert (Hd : truthy (JDict d) = true).
  { destruct d; [discriminate|reflexivity]. }
  assert (Hin : has_track_id (JDict d) = Returned true).
  { unfold has_track_id. f_equal. unfold dict_get in Hget.
    destruct (List.find _ d) as [item|] eqn:Hf; [|discriminate].
    apply List.find_some in Hf as [Hi He].
    apply List.existsb_exists. now exists item. }
  rewrite Hd, Hin. cbn [negb]. unfold get_track_id. rewrite Hget.
  unfold save_track_value.
  destruct (String.eqb_spec track_id "") as [->|Hne].
  - cbn [truthy String.eqb negb]. unfold save_track, blank.
    cbn [String.eqb orb]. reflexivity.
  - assert (Ht : truthy (JStr track_id) = true).
    { cbn [truthy]. destruct (String.eqb_spec track_id "");
        [congruence|reflexivity]. }
    rewrite Ht. cbn [negb]. rewrite !bind_run.
    destruct (save_track sp spw strip track_id w) as [[[ok error] w1] t1].
    cbn [value world trace fst snd].
    destruct ok; unfold ret; cbn [value world trace fst snd];
      now rewrite !app_nil_r.
Qed.

(** A truthy [track_id] that is not a string. *)
Lemma favoritar_not_string (d : list (string * json)) (v : json) (w : World) :
  dict_get "track_id" d = Some v -> truthy v = true ->
  (forall s, v <> JStr s) ->
  favoritar sp spw strip (Returned (JDict d)) w
  = (Raised AttributeError, w, []).
Proof.
  intros Hget Hv Hs. unfold favoritar.
  assert (Hd : truthy (JDict d) = true).
  { destruct d; [discriminate|reflexivity]. }
  assert (Hin : has_track_id (JDict d) = Returned true).
  { unfold has_track_id. f_equal. unfold dict_get in Hget.
    destruct (List.find _ d) as [item|] eqn:Hf; [|discriminate].
    apply List.find_some in Hf as [Hi He].
    apply List.existsb_exists. now exists item. }
  rewrite Hd, Hin. cbn [negb]. unfold get_track_id. rewrite Hget.
  unfold save_track_value. rewrite Hv. cbn [negb].
  destruct v; try reflexivity. now destruct (Hs s).
Qed.

(** The runs of [favoritar]: an exception leaves the view before anything
    is called; or the request is refused before anything is called; or
    the body is a dict whose [track_id] is a string, and the route goes
    through [save_track]. *)
Lemma favoritar_run (body : result json) (w : World) :
  let run := favoritar sp spw strip body w in
  (exists e, run = (Raised e, w, [])
             /\ (body = Raised e \/ e = TypeError \/ e = AttributeError))
  \/ (exists m, run = (Returned {| success := false; message := Some m;
                                   status := 400 |}, w, []))
  \/ (exists d track_id,
         body = Returned (JDict d)
         /\ dict_get "track_id" d = Some (JStr track_id)).
Proof.
  intros run. subst run. destruct body as [data|e].
  2: { left. exists e. split; [reflexivity|now left]. }
  destruct (truthy data) eqn:Ht.
  2: { right. left. eexists. unfold favoritar. rewrite Ht. reflexivity. }
  destruct data as [|b|z|nz|s|l|d].
  - discriminate.
  - left. exists TypeError. unfold favoritar. rewrite Ht.
    split; [reflexivity|auto].
  - left. exists TypeError. unfold favoritar. rewrite Ht.
    split; [reflexivity|auto].
  - left. exists TypeError. unfold favoritar. rewrite Ht.
    split; [reflexivity|auto].
  - unfold favoritar. rewrite Ht. cbn [negb has_track_id].
    destruct (contains "track_id" s).
    + left. exists TypeError. split; [reflexivity|auto].
    + right. left. eexists. reflexivity.
  - unfold favoritar. rewrite Ht. cbn [negb has_track_id].
    destruct (existsb _ l).
    + left. exists TypeError. split; [reflexivity|auto].
    + right. left. eexists. reflexivity.
  - destruct (dict_get "track_id" d) as [v|] eqn:Hget.
    + destruct (truthy v) eqn:Hv.
      * destruct v as [|b|z|nz|s|l'|d'];
          try (left; exists AttributeError;
               split; [now apply (favoritar_not_string d _ w Hget)|auto]).
        right. right. now exists d, s.
      * right. left. exists "ID da música inválido.".
        unfold favoritar. rewrite Ht. cbn [negb has_track_id].
        assert (Hin : existsb (fun item => String.eqb (fst item) "track_id") d
                      = true).
        { unfold dict_get in Hget.
          destruct (List.find _ d) as [item|] eqn:Hf; [|discriminate].
          apply List.find_some in Hf as [Hi He].
          apply List.existsb_exists. now exists item. }
        rewrite Hin. cbn [negb]. unfold get_track_id. rewrite Hget.
        unfold save_track_value. rewrite Hv. reflexivity.
    + right. left. eexists.
      unfold favoritar. rewrite Ht. cbn [negb has_track_id].
      assert (Hin : existsb (fun item => String.eqb (fst item) "track_id") d
                    = false).
      { unfold dict_get in Hget.
        destruct (List.find _ d) as [item|] eqn:Hf; [discriminate|].
        destruct (existsb _ d) eqn:He; [|reflexivity].
        apply List.existsb_exists in He as (item & Hi & He).
        now rewrite (List.find_none _ _ Hf item Hi) in He. }
      rewrite Hin. reflexivity.
Qed.

Lemma save_track_run (track_id : string) (w : World) :
  let saved := save_track sp spw strip track_id w in
  let w1 := world (_validate_authentication sp w) in
  let out := fst (current_user_saved_tracks_add spw [strip track_id] w1) in
  (blank strip track_id = true
   /\ saved = ((false, Some "ID da música inválido."), w, []))
  \/ (blank strip track_id = false /\ authenticated sp w = false
      /\ exists e, saved = ((false, Some e), w1, []))
  \/ (blank strip track_id = false /\ authenticated sp w = true
      /\ saved
         = (write_result "Erro ao adicionar aos favoritos: " out,
            snd (current_user_saved_tracks_add spw [strip track_id] w1),
            [Api_saved_tracks_add [strip track_id] out])).
Proof.
  intros saved w1 out.
  destruct (write_run sp strip (current_user_saved_tracks_add spw)
              Api_saved_tracks_add "Erro ao adicionar aos favoritos: "
              track_id w)
    as [[Hb Hr]|[(Hb & Ha & e & _ & Hr)|(Hb & Ha & Hr)]].
  - left. split; [exact Hb|exact Hr].
  - right. left. split; [exact Hb|]. split; [exact Ha|].
    exists e. exact Hr.
  - right. right. split; [exact Hb|]. split; [exact Ha|exact Hr].
Qed.

End Favoritar.


(** A body whose [track_id] is the number 5, one without a body, and one
    whose [track_id] has a hyphen, for a logged-in user. *)
Example favoritar_requests :
  let w := Replay.logged_in [] [] in
  let spw := {| FavoritesWrites.current_user_saved_tracks_add :=
                  fun _ w => (Py.Ok tt, w);
                FavoritesWrites.current_user_saved_tracks_delete :=
                  fun _ w => (Py.Ok tt, w) |} in
  let post body :=
    AppWrites.favoritar Replay.client spw Py.strip_ascii body w in
  AppWrites.http_status
    (Run.value
       (post (AppWrites.Returned
                (AppWrites.JDict [("track_id", AppWrites.JInt 5)]))))
  = 500%Z
  /\ AppWrites.http_status
       (Run.value
          (post (AppWrites.Raised (AppWrites.HTTPException 415))))
     = 415%Z
  /\ Run.trace
       (post (AppWrites.Returned
                (AppWrites.JDict
                   [("track_id", AppWrites.JStr "4Z8W4fKeB5-xbusRsdQVPb")])))
     = [FavoritesWrites.Api_saved_tracks_add ["4Z8W4fKeB5-xbusRsdQVPb"]
          (Py.Ok tt)].
Proof. vm_compute. repeat split. Qed.
